(** * Smoke Specialist: the air-quality page and its helpers

    A shallow embedding of [pages/visualization.py] (the page callback
    [handle_callback]) and of [utils.py] ([get_patient_demographics],
    [generate_clinical_details_table], [generate_prompt]), with the
    properties of the environmental-data pipeline stated over it.

    Python values are modelled as the code meets them:
    - the bodies returned by [response.json()] are JSON documents ([json]);
    - [aqi_results] is a Python [dict], which keeps insertion order, so it
      is an association list with the update-in-place rule of [dict.update];
    - FHIR resources are objects probed with [hasattr] and read by attribute
      ([pyval]);
    - a raised exception is a value of [exn]; code that may raise returns a
      [result]. *)

From Stdlib Require Import String Ascii List ZArith NArith Bool Lia Permutation Sorted.
Import ListNotations.
Open Scope string_scope.
Open Scope list_scope.
Set Warnings "-register-all".

(** ** Exceptions and results *)

Inductive exn : Type :=
| KeyError
| IndexError
| TypeError
| AttributeError
| UnboundLocalError
| ConnectionError                (* raised by requests.post *)
| JSONDecodeError                (* raised by response.json() *)
| PyException (msg : string)     (* raise Exception(msg) *)
| PreventUpdate (msg : string).  (* raise PreventUpdate(msg) *)

Inductive result (A : Type) : Type :=
| Done (a : A)
| Raised (e : exn).
Arguments Done {A} a.
Arguments Raised {A} e.

Definition bind {A B : Type} (c : result A) (k : A -> result B) : result B :=
  match c with
  | Done a => k a
  | Raised e => Raised e
  end.

Notation "x <- c ;; k" := (bind c (fun x => k))
  (at level 61, c at next level, right associativity).

(** A [for] loop whose body may raise: the accumulator is threaded through
    the items, and the first exception ends the loop. *)
Fixpoint for_each {A S : Type} (body : A -> S -> result S) (items : list A) (s : S)
  : result S :=
  match items with
  | [] => Done s
  | a :: rest => s' <- body a s ;; for_each body rest s'
  end.

(** A list comprehension [[f(a) for a in items]] whose element may raise. *)
Fixpoint for_list {A B : Type} (f : A -> result B) (items : list A) : result (list B) :=
  match items with
  | [] => Done []
  | a :: rest => b <- f a ;; bs <- for_list f rest ;; Done (b :: bs)
  end.

(** ** Python strings *)

(** [needle in hay] on two [str]: the substring test. *)
Fixpoint str_contains (needle hay : string) : bool :=
  String.prefix needle hay
  || match hay with
     | EmptyString => false
     | String _ hay' => str_contains needle hay'
     end.

(** Iterating a [str] yields its characters as one-character strings. *)
Fixpoint str_chars (s : string) : list string :=
  match s with
  | EmptyString => []
  | String c s' => String c EmptyString :: str_chars s'
  end.

(** ** JSON documents, as [response.json()] returns them

    Numbers are the integers; a JSON object is a [dict] with [str] keys. *)

Inductive json : Type :=
| JNull
| JBool (b : bool)
| JNum (n : Z)
| JStr (s : string)
| JArr (items : list json)
| JObj (fields : list (string * json)).

Fixpoint field {A : Type} (k : string) (fields : list (string * A)) : option A :=
  match fields with
  | [] => None
  | (k', v) :: rest => if String.eqb k' k then Some v else field k rest
  end.

(** [d.update({k: v})] on a dict with [str] keys: an existing key keeps its
    place, a new one goes last. *)
Fixpoint field_set {A : Type} (k : string) (v : A) (fields : list (string * A))
  : list (string * A) :=
  match fields with
  | [] => [(k, v)]
  | (k', v') :: rest =>
      if String.eqb k' k then (k', v) :: rest else (k', v') :: field_set k v rest
  end.

(** [j[k]] with a [str] subscript. *)
Definition py_getitem (j : json) (k : string) : result json :=
  match j with
  | JObj fields =>
      match field k fields with
      | Some v => Done v
      | None => Raised KeyError
      end
  | _ => Raised TypeError
  end.

(** [j[0]]. *)
Definition py_first (j : json) : result json :=
  match j with
  | JArr (v :: _) => Done v
  | JArr [] => Raised IndexError
  | JStr (String c _) => Done (JStr (String c EmptyString))
  | JStr EmptyString => Raised IndexError
  | JObj _ => Raised KeyError
  | _ => Raised TypeError
  end.

Definition is_str (k : string) (j : json) : bool :=
  match j with
  | JStr s => String.eqb s k
  | _ => false
  end.

(** [k in j] for a [str] [k]: key membership on a dict, element membership
    on a list, substring on a str. *)
Definition py_contains (k : string) (j : json) : result bool :=
  match j with
  | JObj fields =>
      Done (match field k fields with Some _ => true | None => false end)
  | JArr items => Done (existsb (is_str k) items)
  | JStr s => Done (str_contains k s)
  | _ => Raised TypeError
  end.

(** [for item in j]. *)
Definition py_iter (j : json) : result (list json) :=
  match j with
  | JArr items => Done items
  | JObj fields => Done (map (fun kv => JStr (fst kv)) fields)
  | JStr s => Done (map JStr (str_chars s))
  | _ => Raised TypeError
  end.

(** ** The dict [aqi_results]

    Keys are compared the way a Python dict compares them: by hash and
    [==], under which [True] and [1] (and [False] and [0]) are one key;
    lists and dicts are unhashable. *)

Inductive hkey : Type :=
| HNone
| HInt (n : Z)
| HStr (s : string).

Definition hash_key (j : json) : option hkey :=
  match j with
  | JNull => Some HNone
  | JBool b => Some (HInt (if b then 1 else 0))
  | JNum n => Some (HInt n)
  | JStr s => Some (HStr s)
  | JArr _ | JObj _ => None
  end.

Definition hkey_eqb (a b : hkey) : bool :=
  match a, b with
  | HNone, HNone => true
  | HInt n, HInt m => Z.eqb n m
  | HStr s, HStr t => String.eqb s t
  | _, _ => false
  end.

Definition key_eqb (a b : json) : bool :=
  match hash_key a, hash_key b with
  | Some ha, Some hb => hkey_eqb ha hb
  | _, _ => false
  end.

Definition pydict : Type := list (json * json).

Definition keys (d : pydict) : list json := map fst d.

Fixpoint dict_get (k : json) (d : pydict) : option json :=
  match d with
  | [] => None
  | (k', v) :: rest => if key_eqb k' k then Some v else dict_get k rest
  end.

(** [d[k]]. *)
Definition dict_getitem (d : pydict) (k : json) : result json :=
  match hash_key k with
  | None => Raised TypeError
  | Some _ =>
      match dict_get k d with
      | Some v => Done v
      | None => Raised KeyError
      end
  end.

(** The dict display [{k: v}]: the key must be hashable. *)
Definition dict_item (k v : json) : result (json * json) :=
  match hash_key k with
  | Some _ => Done (k, v)
  | None => Raised TypeError
  end.

(** [d.update({k: v})]: the value of an existing key is replaced where the
    key stands, a new key is appended. *)
Fixpoint dict_update (d : pydict) (kv : json * json) : pydict :=
  match d with
  | [] => [kv]
  | (k', v') :: rest =>
      if key_eqb k' (fst kv) then (k', snd kv) :: rest
      else (k', v') :: dict_update rest kv
  end.

(** ** The air-quality service, as the callback sees it

    One run of the callback meets the service as a sequence of replies to
    its successive [requests.post] calls.  [pending] holds the replies still
    to come and [sent] the requests issued so far.  A run that asks for a
    reply when none is left has no outcome within that sequence: the loop
    [while True] has no bound of its own. *)

Inductive reply : Type :=
| ConnectionFailed                 (* requests.post raises *)
| Response (text : option json).   (* None: the body is not JSON *)

Record request : Type := { url : string; data : list (string * json) }.

Record net : Type := { pending : list reply; sent : list request }.

Definition response_json (text : option json) : result json :=
  match text with
  | Some j => Done j
  | None => Raised JSONDecodeError
  end.

Definition deliver (r : reply) : result (option json) :=
  match r with
  | ConnectionFailed => Raised ConnectionError
  | Response text => Done text
  end.

(** What the callback knows when it starts the lookups: the API key, the
    geocoded coordinates and the three formatted instants derived from
    [current_dt]. *)
Record site : Type := {
  api_key : string;
  latitude : json;
  longitude : json;
  now : string;            (* current_dt.strftime('%Y-%m-%dT%H:%M:%SZ') *)
  now_plus_1h : string;    (* (current_dt + timedelta(hours=1)).strftime(...) *)
  now_plus_96h : string    (* (current_dt + timedelta(hours=96)).strftime(...) *)
}.

(** [{h['dateTime']: h['indexes'][0]['aqi']}] *)
Definition reading (h : json) : result (json * json) :=
  k <- py_getitem h "dateTime" ;;
  ix <- py_getitem h "indexes" ;;
  i0 <- py_first ix ;;
  a <- py_getitem i0 "aqi" ;;
  dict_item k a.

(** The body of the [for hourly_result in ...] loop of the history case. *)
Definition history_hour (hourly_result : json) (aqi_results : pydict) : result pydict :=
  has_dt <- py_contains "dateTime" hourly_result ;;
  if has_dt then
    has_ix <- py_contains "indexes" hourly_result ;;
    if has_ix then
      kv <- reading hourly_result ;;
      Done (dict_update aqi_results kv)
    else Done aqi_results
  else Done aqi_results.

(** The body of the [for hourly_forecast in ...] loop of the forecast case. *)
Definition forecast_hour (hourly_forecast : json) (aqi_results : pydict) : result pydict :=
  kv <- reading hourly_forecast ;;
  Done (dict_update aqi_results kv).

Definition history_page (body : json) (aqi_results : pydict) : result pydict :=
  info <- py_getitem body "hoursInfo" ;;
  items <- py_iter info ;;
  for_each history_hour items aqi_results.

Definition forecast_page (body : json) (aqi_results : pydict) : result pydict :=
  info <- py_getitem body "hourlyForecasts" ;;
  items <- py_iter info ;;
  for_each forecast_hour items aqi_results.

(** One turn of a [while True] pagination loop, after the reply came in:
    merge the page, then either store the continuation token in [data]
    ([Some data']) or [break] ([None]). *)
Definition turn (page : json -> pydict -> result pydict)
    (text : option json) (data : list (string * json)) (aqi_results : pydict)
  : result (pydict * option (list (string * json))) :=
  body <- response_json text ;;
  aqi_results' <- page body aqi_results ;;
  more <- py_contains "nextPageToken" body ;;
  if more then
    token <- py_getitem body "nextPageToken" ;;
    Done (aqi_results', Some (field_set "pageToken" token data))
  else Done (aqi_results', None).

(** The pagination loop.  It recurses on the replies still to come. *)
Fixpoint paginate (page : json -> pydict -> result pydict) (u : string)
    (data : list (string * json)) (aqi_results : pydict)
    (pending : list reply) (sent : list request)
  : option (result (pydict * net)) :=
  match pending with
  | [] => None
  | r :: pending' =>
      let sent' := sent ++ [{| url := u; data := data |}] in
      match (text <- deliver r ;; turn page text data aqi_results) with
      | Raised e => Some (Raised e)
      | Done (aqi_results', Some data') =>
          paginate page u data' aqi_results' pending' sent'
      | Done (aqi_results', None) =>
          Some (Done (aqi_results', {| pending := pending'; sent := sent' |}))
      end
  end.

Definition location (s : site) : json :=
  JObj [("latitude", latitude s); ("longitude", longitude s)].

Definition history_data (s : site) : list (string * json) :=
  [("hours", JNum 720); ("pageSize", JNum 720); ("location", location s)].

Definition current_data (s : site) : list (string * json) :=
  [("location", location s)].

Definition forecast_data (s : site) : list (string * json) :=
  [("universalAqi", JStr "true");
   ("location", location s);
   ("period", JObj [("startTime", JStr (now_plus_1h s));
                    ("endTime", JStr (now_plus_96h s))])].

Definition lookup_url (s : site) (time : string) : string :=
  "https://airquality.googleapis.com/v1/" ++ time ++ ":lookup?key=" ++ api_key s.

(** The single call of the currentConditions case. *)
Definition current_call (u : string) (data : list (string * json))
    (aqi_results : pydict) (w : net) : option (result (pydict * net)) :=
  match pending w with
  | [] => None
  | r :: pending' =>
      let sent' := sent w ++ [{| url := u; data := data |}] in
      Some (text <- deliver r ;;
            body <- response_json text ;;
            kv <- reading body ;;
            Done (dict_update aqi_results kv,
                  {| pending := pending'; sent := sent' |}))
  end.

(** The body of [for time in [...]]: the [match time] statement. *)
Definition lookup (s : site) (time : string) (aqi_results : pydict) (w : net)
  : option (result (pydict * net)) :=
  let u := lookup_url s time in
  if String.eqb time "history" then
    paginate history_page u (history_data s) aqi_results (pending w) (sent w)
  else if String.eqb time "currentConditions" then
    current_call u (current_data s) aqi_results w
  else if String.eqb time "forecast" then
    paginate forecast_page u (forecast_data s) aqi_results (pending w) (sent w)
  else Some (Done (aqi_results, w)).

Fixpoint for_time (s : site) (times : list string) (aqi_results : pydict) (w : net)
  : option (result (pydict * net)) :=
  match times with
  | [] => Some (Done (aqi_results, w))
  | time :: rest =>
      match lookup s time aqi_results w with
      | None => None
      | Some (Raised e) => Some (Raised e)
      | Some (Done (aqi_results', w')) => for_time s rest aqi_results' w'
      end
  end.

(** Lines 95-146 of the callback: [aqi_results = {}] and the loop over the
    three lookups, in the order the source lists them. *)
Definition lookup_order : list string := ["forecast"; "currentConditions"; "history"].

Definition aggregate (s : site) (replies : list reply) : option (result (pydict * net)) :=
  for_time s lookup_order [] {| pending := replies; sent := [] |}.

(** ** The two chart traces (lines 154-165) *)

(** [dt <= bound] and [dt >= bound] against a [str]: only a [str] compares,
    and two [str] compare character by character, by code point. *)
Definition le_str (bound : string) (dt : json) : result bool :=
  match dt with
  | JStr t => Done (String.leb t bound)
  | _ => Raised TypeError
  end.

Definition ge_str (bound : string) (dt : json) : result bool :=
  match dt with
  | JStr t => Done (String.leb bound t)
  | _ => Raised TypeError
  end.

(** [[dt for dt in ks if test(dt)]] *)
Fixpoint select (test : json -> result bool) (ks : list json) : result (list json) :=
  match ks with
  | [] => Done []
  | dt :: rest =>
      keep <- test dt ;;
      if keep then (xs <- select test rest ;; Done (dt :: xs)) else select test rest
  end.

(** [[aqi_results[dt] for dt in ks if test(dt)]] *)
Fixpoint select_values (test : json -> result bool) (aqi_results : pydict)
    (ks : list json) : result (list json) :=
  match ks with
  | [] => Done []
  | dt :: rest =>
      keep <- test dt ;;
      if keep then
        (v <- dict_getitem aqi_results dt ;;
         ys <- select_values test aqi_results rest ;;
         Done (v :: ys))
      else select_values test aqi_results rest
  end.

Record scatter : Type := { x : list json; y : list json }.

Definition trace (test : json -> result bool) (aqi_results : pydict) : result scatter :=
  xs <- select test (keys aqi_results) ;;
  ys <- select_values test aqi_results (keys aqi_results) ;;
  Done {| x := xs; y := ys |}.

(** The figure's two traces: the solid one up to now, the dotted one from
    now on. *)
Definition make_traces (aqi_results : pydict) (now_str : string)
  : result (scatter * scatter) :=
  observed <- trace (le_str now_str) aqi_results ;;
  forecast <- trace (ge_str now_str) aqi_results ;;
  Done (observed, forecast).

(** ** FHIR resources as Python objects

    The helpers of [utils.py] read resources by attribute and probe them with
    [hasattr].  An object is its attributes; an attribute that exists may
    still hold [None].  None of the attribute names probed below is an
    attribute of [str], [list] or [None]. *)

Inductive pyval : Type :=
| PNone
| PStr (s : string)
| PList (items : list pyval)
| PObj (attrs : list (string * pyval)).

Definition hasattr (o : pyval) (a : string) : bool :=
  match o with
  | PObj attrs => match field a attrs with Some _ => true | None => false end
  | _ => false
  end.

Definition getattr (o : pyval) (a : string) : result pyval :=
  match o with
  | PObj attrs =>
      match field a attrs with
      | Some v => Done v
      | None => Raised AttributeError
      end
  | _ => Raised AttributeError
  end.

(** Truth value of an object in [if o] / [not o]. *)
Definition truthy (o : pyval) : bool :=
  match o with
  | PNone => false
  | PStr EmptyString => false
  | PList [] => false
  | _ => true
  end.

Definition pv_iter (o : pyval) : result (list pyval) :=
  match o with
  | PList items => Done items
  | PStr s => Done (map PStr (str_chars s))
  | _ => Raised TypeError
  end.

(** [o[0]] *)
Definition pv_first (o : pyval) : result pyval :=
  match o with
  | PList (v :: _) => Done v
  | PList [] => Raised IndexError
  | PStr (String c _) => Done (PStr (String c EmptyString))
  | PStr EmptyString => Raised IndexError
  | _ => Raised TypeError
  end.

(** [len(o)] *)
Definition pv_len (o : pyval) : result nat :=
  match o with
  | PList items => Done (List.length items)
  | PStr s => Done (String.length s)
  | _ => Raised TypeError
  end.

Definition pv_is_str (k : string) (o : pyval) : bool :=
  match o with
  | PStr s => String.eqb s k
  | _ => false
  end.

(** [k in o] for a [str] [k] *)
Definition pv_contains (k : string) (o : pyval) : result bool :=
  match o with
  | PStr s => Done (str_contains k s)
  | PList items => Done (existsb (pv_is_str k) items)
  | _ => Raised TypeError
  end.

Definition as_str (o : pyval) : result string :=
  match o with
  | PStr s => Done s
  | _ => Raised TypeError
  end.

(** [sep.join(o)]: every item must be a [str]. *)
Definition join (sep : string) (o : pyval) : result string :=
  items <- pv_iter o ;;
  strs <- for_list as_str items ;;
  Done (String.concat sep strs).

(** [s + o] for a [str] [s] *)
Definition str_add (s : string) (o : pyval) : result string :=
  t <- as_str o ;; Done (s ++ t)%string.

(** ** [get_patient_demographics] (utils.py, lines 262-340) *)

(** [name.text if name.text is not None else firstNames + " " + name.family] *)
Definition text_or_parts (entry : pyval) (firstNames : string) : result pyval :=
  t <- getattr entry "text" ;;
  match t with
  | PNone =>
      family <- getattr entry "family" ;;
      s <- str_add (firstNames ++ " ") family ;;
      Done (PStr s)
  | _ => getattr entry "text"
  end.

(** The loop [for name in patient.name].  The loop variable is the local
    [name] itself: when the loop ends without [break], [name] is left bound
    to the last entry. *)
Fixpoint name_loop (entries : list pyval) (name : pyval) : result pyval :=
  match entries with
  | [] => Done name
  | entry :: rest =>
      use <- getattr entry "use" ;;
      official <- pv_contains "official" use ;;
      if official then
        given <- getattr entry "given" ;;
        firstNames <- join " " given ;;
        text_or_parts entry firstNames
      else name_loop rest entry
  end.

Definition first_name_entry (patient : pyval) : result pyval :=
  names <- getattr patient "name" ;; pv_first names.

Definition get_name (patient : pyval) : result pyval :=
  names <- getattr patient "name" ;;
  entries <- pv_iter names ;;
  name <- name_loop entries PNone ;;
  if negb (truthy name) then
    n0 <- first_name_entry patient ;;
    given <- getattr n0 "given" ;;
    firstNames <- join " " given ;;
    n0' <- first_name_entry patient ;;
    text_or_parts n0' firstNames
  else Done name.

Definition get_sex (patient : pyval) : result pyval :=
  g <- getattr patient "gender" ;;
  if truthy g then getattr patient "gender" else Done (PStr "Unknown").

Definition get_birthday (patient : pyval) : result pyval :=
  b <- getattr patient "birthDate" ;;
  if truthy b then
    b' <- getattr patient "birthDate" ;; getattr b' "isostring"
  else Done (PStr "Unknown").

(** The address section.  [None] stands for the local [address] never
    having been bound: neither branch of the [if]/[elif] ran.  The tests
    [if (address, 'city')] and the like are tests of a non-empty tuple, so
    each of the five fields is read unconditionally. *)
Definition get_address (patient : pyval) : result (option pyval) :=
  addresses <- getattr patient "address" ;;
  n <- pv_len addresses ;;
  if Nat.eqb n 1 then
    addresses0 <- getattr patient "address" ;;
    address <- pv_first addresses0 ;;
    t <- getattr address "text" ;;
    if truthy t then
      t' <- getattr address "text" ;; Done (Some t')
    else
      lines <- (if hasattr address "line" then getattr address "line"
                else Done (PList [])) ;;
      city <- getattr address "city" ;;
      district <- getattr address "district" ;;
      state <- getattr address "state" ;;
      postal_code <- getattr address "postalCode" ;;
      country <- getattr address "country" ;;
      joined <- join ", " lines ;;
      full <- join ", " (PList (filter truthy
                [PStr joined; city; district; state; postal_code; country])) ;;
      Done (Some (PStr full))
  else
    addresses' <- getattr patient "address" ;;
    n' <- pv_len addresses' ;;
    if Nat.ltb 1 n' then Raised (PyException "Multiple addresses detected!")
    else Done None.

Definition get_patient_demographics (patient : pyval)
  : result (pyval * pyval * pyval * pyval) :=
  name <- get_name patient ;;
  sex <- get_sex patient ;;
  birthday <- get_birthday patient ;;
  address <- get_address patient ;;
  match address with
  | Some a => Done (name, sex, birthday, a)
  | None => Raised UnboundLocalError
  end.

(** Lines 60-69 of the callback: the address guard, then the extractor
    under [try]/[except Exception]. *)
Definition callback_demographics (patient : pyval)
  : result (pyval * pyval * pyval * pyval) :=
  present <- (if hasattr patient "address" then
                addresses <- getattr patient "address" ;;
                n <- pv_len addresses ;;
                Done (negb (Nat.eqb n 0))
              else Done false) ;;
  if negb present then Raised (PreventUpdate "No address found for the patient.")
  else
    match get_patient_demographics patient with
    | Done r => Done r
    | Raised _ =>
        Raised (PreventUpdate
                  "Something went wrong processing the patient's demographics")
    end.

(** ** The condition rows of [generate_clinical_details_table]
    (utils.py, lines 42-74) *)

(** [for coding in codings: if hasattr(coding, 'display'): ...; break] *)
Fixpoint first_display (codings : list pyval) (condition_name : pyval) : result pyval :=
  match codings with
  | [] => Done condition_name
  | coding :: rest =>
      if hasattr coding "display" then getattr coding "display"
      else first_display rest condition_name
  end.

Definition condition_name (condition : pyval) : result pyval :=
  if hasattr condition "code" then
    code <- getattr condition "code" ;;
    if hasattr code "text" then
      code' <- getattr condition "code" ;; getattr code' "text"
    else if hasattr code "coding" then
      code' <- getattr condition "code" ;;
      coding <- getattr code' "coding" ;;
      codings <- pv_iter coding ;;
      first_display codings (PStr "")
    else Raised (PyException "A Condition resource has no 'code' element")
  else Done (PStr "").

(** The status blocks for [clinicalStatus] and [verificationStatus] are the
    same code on two attribute names. *)
Definition status_of (attr : string) (condition : pyval) : result pyval :=
  if hasattr condition attr then
    st <- getattr condition attr ;;
    status <- (if hasattr st "text" then getattr st "text"
               else Done (PStr "Unknown")) ;;
    if hasattr st "coding" then
      coding <- getattr st "coding" ;;
      c0 <- pv_first coding ;;
      getattr c0 "code"
    else Done status
  else Done (PStr "Unknown").

Definition clinical_status : pyval -> result pyval := status_of "clinicalStatus".
Definition verification_status : pyval -> result pyval := status_of "verificationStatus".

Record condition_row : Type := {
  row_condition_name : pyval;
  row_clinical_status : pyval;
  row_verification_status : pyval
}.

Definition condition_row_of (condition : pyval) : result condition_row :=
  n <- condition_name condition ;;
  c <- clinical_status condition ;;
  v <- verification_status condition ;;
  Done {| row_condition_name := n;
          row_clinical_status := c;
          row_verification_status := v |}.

(** [health_conditions_list] as the loop leaves it, before it is sorted. *)
Definition health_conditions_list (conditions : list pyval) : result (list condition_row) :=
  for_list condition_row_of conditions.

(** ** [generate_prompt] and its call (utils.py 232-256, visualization.py 184-190) *)

(** A call with positional arguments to a function whose parameters are all
    required: the arguments bind to the parameters one for one, and any
    other number of arguments is a [TypeError]. *)
Definition py_call {V R : Type} (params : list string)
    (body : list (string * V) -> R) (args : list V) : result R :=
  if Nat.eqb (List.length args) (List.length params)
  then Done (body (combine params args))
  else Raised TypeError.

Section Prompt.
(** The values handed to the prompt and their [format()] text, which the
      f-string embeds. *)
Variable V : Type.
Variable fmt : V -> string.
Variable missing : V.

Definition arg (name : string) (env : list (string * V)) : V :=
  match field name env with
  | Some v => v
  | None => missing
  end.

Definition generate_prompt_params : list string :=
  ["sex"; "date_of_birth"; "health_conditions"; "encounters";
   "medication_administrations"; "current_dt"; "combined_environmental_data"].

Definition generate_prompt_body (env : list (string * V)) : string :=
  String (ascii_of_nat 34) (* the fourth quote of the opening delimiter *)
    ("
    -------------------------------
    Prompt Context

    You have been approached by a healthcare professional seeking consultation on how to mitigate the health risks or treat the health complications 
    associated with climate-related events, such as heat waves or forest fires. Your role as the AI specialist is to provide a consultation based on 
    the specific characteristics and surrounding environment of the patient, like their demographics, health conditions, medications, encounter history, AQI, 
    temperature, and apparent temperature.
    -------------------------------
    Patient Details

    Sex: "
  ++ fmt (arg "sex" env) ++ "
    Date of Birth: "
  ++ fmt (arg "date_of_birth" env) ++ "
    Health Conditions: "
  ++ fmt (arg "health_conditions" env) ++ "
    Encounters: "
  ++ fmt (arg "encounters" env) ++ "
    Medication Administrations: "
  ++ fmt (arg "medication_administrations" env) ++ "

    Here is the past, present, and forecasted environmental data (in a tabular format) for the patient's primary address. Its columns include time, 
    air quality index measurements, temperature (Fahrenheit), and apparent temperature (Fahrenheit). Right now, The current datetime is "
  ++ fmt (arg "current_dt" env) ++ ".
    
    "
  ++ fmt (arg "combined_environmental_data" env) ++ "

    -------------------------------
    "
    ).

Definition generate_prompt (args : list V) : result string :=
  py_call generate_prompt_params generate_prompt_body args.
End Prompt.

(** The five values the callback passes. *)
Inductive prompt_arg : Type :=
| OfObject (o : pyval)
| OfConditions (all_health_conditions : list json)
| OfStr (s : string)
| OfDict (aqi_results : pydict).

Definition callback_prompt (fmt : prompt_arg -> string) (patient : pyval)
    (all_health_conditions : list json) (now_str : string) (aqi_results : pydict)
  : result string :=
  gender <- getattr patient "gender" ;;
  birthDate <- getattr patient "birthDate" ;;
  isostring <- getattr birthDate "isostring" ;;
  generate_prompt prompt_arg fmt (OfObject PNone)
    [OfObject gender; OfObject isostring; OfConditions all_health_conditions;
     OfStr now_str; OfDict aqi_results].

(** ** [fetch_all_resources] (utils.py, lines 342-353)

    The FHIR server answers the search and each later [Bundle.read_from]
    with a bundle, or the request raises.  [bundles_pending] holds the
    answers still to come, [links_read] the links handed to
    [Bundle.read_from] so far. *)

Inductive fetched : Type :=
| FetchFailed
| Bundle (bundle : pyval).

Record fhir_server : Type := {
  bundles_pending : list fetched;
  links_read : list pyval
}.

(** [next((link.url for link in links if link.relation == 'next'), None)] *)
Fixpoint next_link_of (links : list pyval) : result pyval :=
  match links with
  | [] => Done PNone
  | link :: rest =>
      relation <- getattr link "relation" ;;
      if pv_is_str "next" relation then getattr link "url" else next_link_of rest
  end.

(** [entry.resource for entry in bundle.entry], when [bundle.entry] is
    true; nothing otherwise. *)
Definition bundle_resources (bundle : pyval) : result (list pyval) :=
  entry <- getattr bundle "entry" ;;
  if truthy entry then
    entry' <- getattr bundle "entry" ;;
    entries <- pv_iter entry' ;;
    for_list (fun e => getattr e "resource") entries
  else Done [].

Definition bundle_next_link (bundle : pyval) : result pyval :=
  link <- getattr bundle "link" ;;
  links <- pv_iter link ;;
  next_link_of links.

(** The loop [while next_url], recursing on the answers still to come. *)
Fixpoint bundle_loop (next_url : pyval) (resources : list pyval)
    (pending : list fetched) (reads : list pyval)
  : option (result (list pyval * fhir_server)) :=
  if truthy next_url then
    match (new <- bundle_resources next_url ;;
           next_link <- bundle_next_link next_url ;;
           Done (resources ++ new, next_link)) with
    | Raised e => Some (Raised e)
    | Done (resources', next_link) =>
        if truthy next_link then
          match pending with
          | [] => None
          | FetchFailed :: _ => Some (Raised ConnectionError)
          | Bundle b :: pending' =>
              bundle_loop b resources' pending' (reads ++ [next_link])
          end
        else Some (Done (resources',
                         {| bundles_pending := pending; links_read := reads |}))
    end
  else Some (Done (resources, {| bundles_pending := pending; links_read := reads |})).

Definition fetch_all_resources (answers : list fetched)
  : option (result (list pyval * fhir_server)) :=
  match answers with
  | [] => None
  | FetchFailed :: _ => Some (Raised ConnectionError)
  | Bundle b :: pending => bundle_loop b [] pending []
  end.

(** ** Sample resources *)

Definition name_entry (use given family : string) : pyval :=
  PObj [("use", PStr use); ("given", PList [PStr given]);
        ("family", PStr family); ("text", PNone)].

Definition address_entry (line city state : string) : pyval :=
  PObj [("text", PNone); ("line", PList [PStr line]); ("city", PStr city);
        ("district", PNone); ("state", PStr state); ("postalCode", PNone);
        ("country", PNone)].

Definition patient_of (names addresses : pyval) : pyval :=
  PObj [("name", names); ("gender", PStr "female");
        ("birthDate", PObj [("isostring", PStr "1980-01-01")]);
        ("address", addresses)].

Definition main_st : pyval := address_entry "123 Main St" "Springfield" "IL".
Definition elm_st : pyval := address_entry "9 Elm St" "Shelbyville" "IL".

Definition usual_ann : pyval := name_entry "usual" "Ann" "Lee".
Definition official_ann : pyval := name_entry "official" "Annabel" "Lee".

(** A patient whose only name entry has the use-code "usual". *)
Definition patient_usual_only : pyval := patient_of (PList [usual_ann]) (PList [main_st]).

(** A patient whose official name comes second. *)
Definition patient_official_second : pyval :=
  patient_of (PList [usual_ann; official_ann]) (PList [main_st]).

Definition patient_two_addresses : pyval :=
  patient_of (PList [official_ann]) (PList [main_st; elm_st]).

(** A condition whose clinical status has both a text and a coding. *)
Definition condition_text_and_code : pyval :=
  PObj [("code", PObj [("text", PStr "Asthma")]);
        ("clinicalStatus",
         PObj [("text", PStr "Active problem");
               ("coding", PList [PObj [("code", PStr "active")]])])].

(** A condition whose code has codings, none of them with a display. *)
Definition condition_code_only : pyval :=
  PObj [("code",
         PObj [("coding", PList [PObj [("system", PStr "http://snomed.info/sct");
                                       ("code", PStr "195967001")]])])].

Definition no_display (coding : pyval) : Prop := hasattr coding "display" = false.

(** A name entry that the loop passes over: its use-code is a [str] that
    does not contain "official". *)
Definition passed_over (entry : pyval) : Prop :=
  exists use, getattr entry "use" = Done (PStr use)
              /\ str_contains "official" use = false.

(** ** Sample runs of the lookups *)

(** A well-formed reply body. *)
Definition ok (body : json) : reply := Response (Some body).

(** One hourly entry, as the service renders it. *)
Definition hour (t : string) (aqi : Z) : json :=
  JObj [("dateTime", JStr t); ("indexes", JArr [JObj [("aqi", JNum aqi)]])].

Definition forecast_body (hours : list json) : json := JObj [("hourlyForecasts", JArr hours)].
Definition history_body (hours : list json) : json := JObj [("hoursInfo", JArr hours)].

Definition with_token (token : string) (body : json) : json :=
  match body with
  | JObj fields => JObj (fields ++ [("nextPageToken", JStr token)])
  | _ => body
  end.

Definition t10 : string := "2024-06-01T10:00:00Z".
Definition t11 : string := "2024-06-01T11:00:00Z".
Definition t12 : string := "2024-06-01T12:00:00Z".
Definition t13 : string := "2024-06-01T13:00:00Z".
Definition t14 : string := "2024-06-01T14:00:00Z".

Definition springfield : site :=
  {| api_key := "KEY";
     latitude := JNum 39;
     longitude := JNum (-89);
     now := "2024-06-01T12:30:00Z";
     now_plus_1h := "2024-06-01T13:30:00Z";
     now_plus_96h := "2024-06-05T12:30:00Z" |}.

(** One page per lookup; history in ascending order. *)
Definition replies_plain : list reply :=
  [ok (forecast_body [hour t13 60; hour t14 70]);
   ok (hour t12 50);
   ok (history_body [hour t10 40; hour t11 45])].

(** The current hour is also the last hour of the history. *)
Definition replies_collide : list reply :=
  [ok (forecast_body [hour t13 60]);
   ok (hour t12 50);
   ok (history_body [hour t12 48; hour t11 45])].

(** A history page one of whose hours has no [indexes]. *)
Definition replies_gap : list reply :=
  [ok (forecast_body [hour t13 60]);
   ok (hour t12 50);
   ok (history_body [hour t10 40; JObj [("dateTime", JStr t11)]])].

(** Three history pages, the first two with a continuation token. *)
Definition history_three_pages : list json :=
  [with_token "p2" (history_body [hour t10 40]);
   with_token "p3" (history_body [hour t11 45]);
   history_body [hour t12 48]].

(** A series with a reading exactly at now. *)
Definition series_at_now : pydict :=
  [(JStr t13, JNum 60); (JStr "2024-06-01T12:30:00Z", JNum 52); (JStr t11, JNum 45)].

(** ** Vocabulary of the statements *)

Definition is_timestamp (k : json) : Prop := exists t, k = JStr t.

Definition str_leb (a b : json) : bool :=
  match a, b with
  | JStr s, JStr t => String.leb s t
  | _, _ => false
  end.

(** Ascending order of a list of timestamps, by the order of [str]. *)
Fixpoint ascending (ks : list json) : bool :=
  match ks with
  | [] => true
  | a :: rest =>
      match rest with
      | [] => true
      | b :: _ => str_leb a b && ascending rest
      end
  end.

(** ** Pages and the readings they emit *)

(** What one hour of a history page contributes: a reading, or nothing when
    the guard of the loop skips it. *)
Definition history_hour_reading (h : json) : result (option (json * json)) :=
  has_dt <- py_contains "dateTime" h ;;
  if has_dt then
    has_ix <- py_contains "indexes" h ;;
    if has_ix then (kv <- reading h ;; Done (Some kv)) else Done None
  else Done None.

Definition forecast_hour_reading (h : json) : result (option (json * json)) :=
  kv <- reading h ;; Done (Some kv).

Fixpoint collect (f : json -> result (option (json * json))) (items : list json)
  : result (list (json * json)) :=
  match items with
  | [] => Done []
  | h :: rest =>
      r <- f h ;;
      rs <- collect f rest ;;
      Done (match r with Some kv => kv :: rs | None => rs end)
  end.

(** The readings of a page, in the order of the page. *)
Definition history_readings (body : json) : result (list (json * json)) :=
  info <- py_getitem body "hoursInfo" ;;
  items <- py_iter info ;;
  collect history_hour_reading items.

Definition forecast_readings (body : json) : result (list (json * json)) :=
  info <- py_getitem body "hourlyForecasts" ;;
  items <- py_iter info ;;
  collect forecast_hour_reading items.

(** Successive [update]s of the dict with a sequence of readings. *)
Definition merge (d : pydict) (rs : list (json * json)) : pydict :=
  fold_left dict_update rs d.

(** The value of the last reading of [rs] written under the key [k]. *)
Fixpoint last_write (k : json) (rs : list (json * json)) : option json :=
  match rs with
  | [] => None
  | (k', v) :: rest =>
      match last_write k rest with
      | Some v' => Some v'
      | None => if key_eqb k' k then Some v else None
      end
  end.

(** The request bodies of one pagination loop: the first is the initial
    [data]; each later one is the one before it with [pageToken] set to the
    token the page before returned. *)
Fixpoint payloads (data : list (string * json)) (tokens : list json)
  : list (list (string * json)) :=
  match tokens with
  | [] => [data]
  | token :: rest => data :: payloads (field_set "pageToken" token data) rest
  end.

Definition call (u : string) (data : list (string * json)) : request :=
  {| url := u; data := data |}.

(** [pages] is a sequence of pages of which every one but the last carries
    a continuation token, [tokens] being those tokens in order. *)
Definition paged (pages tokens : list json) : Prop :=
  exists init final,
    pages = init ++ [final]
    /\ Forall2 (fun b token => py_getitem b "nextPageToken" = Done token) init tokens
    /\ py_contains "nextPageToken" final = Done false.

Definition emits (readings : json -> result (list (json * json)))
    (pages : list json) (rss : list (list (json * json))) : Prop :=
  Forall2 (fun b rs => readings b = Done rs) pages rss.

(** An hour with all the expected fields: a [dateTime] that can be a key
    and an [aqi] in the first of its [indexes]. *)
Definition complete (h : json) : Prop := exists kv, reading h = Done kv.

(** An hour that the guard of the history loop passes over. *)
Definition skipped (h : json) : Prop :=
  py_contains "dateTime" h = Done false
  \/ (py_contains "dateTime" h = Done true /\ py_contains "indexes" h = Done false).

(** [h] is one of the hours in the array [array] of the page [b]. *)
Definition hour_of (array : string) (b h : json) : Prop :=
  exists info items,
    py_getitem b array = Done info /\ py_iter info = Done items /\ In h items.

Definition forecast_ok (b : json) : Prop :=
  exists info items,
    py_getitem b "hourlyForecasts" = Done info
    /\ py_iter info = Done items
    /\ Forall complete items.

Definition history_ok (b : json) : Prop :=
  exists info items,
    py_getitem b "hoursInfo" = Done info
    /\ py_iter info = Done items
    /\ Forall (fun h => skipped h \/ complete h) items.

(** The two pagination loops of the callback. *)
Inductive loop : Type := ForecastLoop | HistoryLoop.

Definition loop_time (l : loop) : string :=
  match l with ForecastLoop => "forecast" | HistoryLoop => "history" end.

Definition loop_page (l : loop) : json -> pydict -> result pydict :=
  match l with ForecastLoop => forecast_page | HistoryLoop => history_page end.

Definition loop_readings (l : loop) : json -> result (list (json * json)) :=
  match l with ForecastLoop => forecast_readings | HistoryLoop => history_readings end.

Definition loop_data (l : loop) (s : site) : list (string * json) :=
  match l with ForecastLoop => forecast_data s | HistoryLoop => history_data s end.

(** The loop of [l] as [lookup] starts it. *)
Definition run_loop (l : loop) (s : site) (aqi_results : pydict)
    (pending : list reply) (sent : list request) : option (result (pydict * net)) :=
  paginate (loop_page l) (lookup_url s (loop_time l)) (loop_data l s)
    aqi_results pending sent.


(** Two bundles of a search, the first with a link to the next. *)
Definition bundle_of (resources : list pyval) (links : list pyval) : pyval :=
  PObj [("entry", PList (map (fun r => PObj [("resource", r)]) resources));
        ("link", PList links)].

Definition link_to (relation target : string) : pyval :=
  PObj [("relation", PStr relation); ("url", PStr target)].

Definition two_bundles : list fetched :=
  [Bundle (bundle_of [condition_text_and_code]
             [link_to "self" "Condition?patient=1"; link_to "next" "Condition?page=2"]);
   Bundle (bundle_of [condition_code_only] [link_to "self" "Condition?page=2"])].

(** Conditions shaped the way the FHIR client builds them: every attribute
    exists and holds [None] when the resource has no such element. *)
Definition condition_all_none : pyval :=
  PObj [("code",
         PObj [("text", PNone);
               ("coding", PList [PObj [("system", PStr "http://snomed.info/sct");
                                       ("code", PStr "195967001");
                                       ("display", PNone)]])]);
        ("clinicalStatus", PObj [("text", PStr "Active problem"); ("coding", PNone)]);
        ("verificationStatus", PNone)].

(** ** Vocabulary for the series as a dict *)

Definition hashable (k : json) : Prop := exists hk, hash_key k = Some hk.

(** No two entries of the dict stand under the same key. *)
Fixpoint distinct_keys (d : pydict) : Prop :=
  match d with
  | [] => True
  | (k, _) :: rest =>
      Forall (fun kv => key_eqb k (fst kv) = false) rest /\ distinct_keys rest
  end.

Definition seen_key (seen : list json) (k : json) : bool :=
  existsb (fun k' => key_eqb k' k) seen.

(** The keys of [ks] that are new with respect to [seen], each at its first
    occurrence. *)
Fixpoint fresh_keys (seen ks : list json) : list json :=
  match ks with
  | [] => []
  | k :: rest =>
      if seen_key seen k then fresh_keys seen rest
      else k :: fresh_keys (seen ++ [k]) rest
  end.

(** Whether a test of a comprehension lets a key through. *)
Definition passes (test : json -> result bool) (k : json) : bool :=
  match test k with
  | Done true => true
  | _ => false
  end.

(** ** [generate_iframe] (utils.py, lines 258-260)

    [urllib.parse.quote(address, safe='')] encodes the address as UTF-8
    and keeps the bytes of the letters, the digits and of [_.-~]; every
    other byte becomes [%XX] with two upper-case hexadecimal digits.  A
    character of a [str] is modelled by its code point, below 256; such a
    character is one byte in UTF-8 when below 128, two otherwise. *)

Definition in_range (lo hi n : N) : bool := (N.leb lo n) && (N.leb n hi).

Definition always_safe (b : N) : bool :=
  in_range 65 90 b || in_range 97 122 b || in_range 48 57 b
  || N.eqb b 95 || N.eqb b 46 || N.eqb b 45 || N.eqb b 126.

Definition hex_digit (n : N) : ascii :=
  ascii_of_N (if N.ltb n 10 then 48 + n else 55 + n)%N.

(** ['%{:02X}'.format(b)] *)
Definition percent (b : N) : string :=
  String (ascii_of_nat 37)
    (String (hex_digit (b / 16)%N) (String (hex_digit (b mod 16)%N) EmptyString)).

(** The UTF-8 bytes of one character. *)
Definition utf8 (c : ascii) : list N :=
  let n := N_of_ascii c in
  if N.ltb n 128 then [n] else [(192 + n / 64)%N; (128 + n mod 64)%N].

Definition quote_byte (b : N) : string :=
  if always_safe b then String (ascii_of_N b) EmptyString else percent b.

Definition quote_char (c : ascii) : string :=
  String.concat EmptyString (map quote_byte (utf8 c)).

Fixpoint quote (s : string) : string :=
  match s with
  | EmptyString => EmptyString
  | String c rest => (quote_char c ++ quote rest)%string
  end.

(** [google_maps_api_key] is the text of [os.getenv('GOOGLE_MAPS_API_KEY')]
    as the f-string renders it.  [quote] accepts a [str] only. *)
Definition generate_iframe (google_maps_api_key : string) (address : pyval)
  : result string :=
  match address with
  | PStr a =>
      Done ("https://www.google.com/maps/embed/v1/place?key=" ++ google_maps_api_key
            ++ "&q=" ++ quote a ++ "&zoom=11&maptype=satellite")%string
  | _ => Raised TypeError
  end.

(** The characters [quote] can produce. *)
Definition url_char (c : ascii) : bool :=
  always_safe (N_of_ascii c) || Ascii.eqb c (ascii_of_nat 37).

(** A decoder for what [quote] produces, to state that nothing is lost:
    [%XX] back to a byte, and UTF-8 back to characters. *)
Definition hex_value (c : ascii) : N :=
  let n := N_of_ascii c in
  if N.ltb n 58 then (n - 48)%N else (n - 55)%N.

Fixpoint unquote_bytes (s : string) : list N :=
  match s with
  | EmptyString => []
  | String c rest =>
      if Ascii.eqb c (ascii_of_nat 37) then
        match rest with
        | String h (String l rest') =>
            (16 * hex_value h + hex_value l)%N :: unquote_bytes rest'
        | _ => []
        end
      else N_of_ascii c :: unquote_bytes rest
  end.

Fixpoint utf8_decode (bs : list N) : string :=
  match bs with
  | [] => EmptyString
  | b :: rest =>
      if N.ltb b 128 then String (ascii_of_N b) (utf8_decode rest)
      else
        match rest with
        | b2 :: rest' =>
            String (ascii_of_N ((b - 192) * 64 + (b2 - 128))%N) (utf8_decode rest')
        | [] => EmptyString
        end
  end.

Definition unquote (s : string) : string := utf8_decode (unquote_bytes s).

(** ** The session helpers (utils.py, lines 17-30)

    The Flask session is a dict with [str] keys holding JSON values.
    [get_smart] is modelled by the arguments it passes to [FHIRClient]:
    the stored state, or the application settings. *)

Definition flask_session : Type := list (string * json).

(** Truth value of a JSON value in [if state]. *)
Definition json_truthy (j : json) : bool :=
  match j with
  | JNull => false
  | JBool b => b
  | JNum n => negb (Z.eqb n 0)
  | JStr EmptyString => false
  | JStr _ => true
  | JArr [] => false
  | JArr _ => true
  | JObj [] => false
  | JObj _ => true
  end.

(** [del d[k]] *)
Fixpoint field_del {A : Type} (k : string) (fields : list (string * A))
  : list (string * A) :=
  match fields with
  | [] => []
  | (k', v) :: rest =>
      if String.eqb k' k then field_del k rest else (k', v) :: field_del k rest
  end.

Definition save_state (state : json) (session : flask_session) : flask_session :=
  field_set "state" state session.

Definition reset (session : flask_session) : flask_session :=
  match field "state" session with
  | Some _ => field_del "state" session
  | None => session
  end.

Inductive client_args : Type :=
| WithState (state : json)    (* FHIRClient(state=state, save_func=save_state) *)
| WithSettings.               (* FHIRClient(settings=app_settings, save_func=save_state) *)

Definition get_smart (session : flask_session) : client_args :=
  match field "state" session with
  | Some state => if json_truthy state then WithState state else WithSettings
  | None => WithSettings
  end.

(** ** The encounter and medication rows of [generate_clinical_details_table]
    (utils.py, lines 106-202) *)

Definition is_none (o : pyval) : bool :=
  match o with
  | PNone => true
  | _ => false
  end.

(** Lines 112-119: the description read off [serviceType]. *)
Definition service_type_description (encounter : pyval) : result pyval :=
  if hasattr encounter "serviceType" then
    st <- getattr encounter "serviceType" ;;
    if negb (is_none st) then
      if hasattr st "text" then
        st' <- getattr encounter "serviceType" ;; getattr st' "text"
      else if hasattr st "coding" then
        st' <- getattr encounter "serviceType" ;;
        coding <- getattr st' "coding" ;;
        codings <- pv_iter coding ;;
        first_display codings (PStr "")
      else Done (PStr "")
    else Done (PStr "")
  else Done (PStr "").

(** Lines 121-128: the loop over [encounter.type]; each concept with a
    text, or with a coding that has a display, overwrites the description. *)
Fixpoint type_loop (concepts : list pyval) (encounter_description : pyval)
  : result pyval :=
  match concepts with
  | [] => Done encounter_description
  | codeableConcept :: rest =>
      if hasattr codeableConcept "text" then
        t <- getattr codeableConcept "text" ;; type_loop rest t
      else if hasattr codeableConcept "coding" then
        coding <- getattr codeableConcept "coding" ;;
        codings <- pv_iter coding ;;
        d <- first_display codings encounter_description ;;
        type_loop rest d
      else type_loop rest encounter_description
  end.

Definition encounter_description (encounter : pyval) : result pyval :=
  d <- service_type_description encounter ;;
  if hasattr encounter "type" then
    ty <- getattr encounter "type" ;;
    concepts <- pv_iter ty ;;
    type_loop concepts d
  else if hasattr encounter "class" then
    encounter_class <- getattr encounter "class" ;;
    if hasattr encounter_class "display" then getattr encounter_class "display"
    else Done d
  else
    Raised (PyException
              "An Encounter resource has no human readable element to serve as a description").

(** [status = 'Unknown'; if hasattr(o, 'status'): status = o.status] *)
Definition status_or_unknown (o : pyval) : result pyval :=
  if hasattr o "status" then getattr o "status" else Done (PStr "Unknown").

Record encounter_row : Type := {
  row_encounter_description : pyval;
  row_encounter_status : pyval
}.

Definition encounter_row_of (encounter : pyval) : result encounter_row :=
  d <- encounter_description encounter ;;
  s <- status_or_unknown encounter ;;
  Done {| row_encounter_description := d; row_encounter_status := s |}.

Definition medication_administration_name (m : pyval) : result pyval :=
  if hasattr m "medicationCodeableConcept" then
    cc <- getattr m "medicationCodeableConcept" ;;
    if hasattr cc "text" then
      cc' <- getattr m "medicationCodeableConcept" ;; getattr cc' "text"
    else if hasattr cc "coding" then
      cc' <- getattr m "medicationCodeableConcept" ;;
      coding <- getattr cc' "coding" ;;
      codings <- pv_iter coding ;;
      first_display codings (PStr "")
    else Done (PStr "")
  else if hasattr m "medicationReference" then
    ref <- getattr m "medicationReference" ;; getattr ref "display"
  else
    Raised (PyException
              "A medication resource has no human readable 'medication[x]' element").

Record medication_row : Type := {
  row_medication_administration_name : pyval;
  row_medication_administration_status : pyval
}.

Definition medication_row_of (m : pyval) : result medication_row :=
  n <- medication_administration_name m ;;
  s <- status_or_unknown m ;;
  Done {| row_medication_administration_name := n;
          row_medication_administration_status := s |}.

(** ** Sorting the rows by status (lines 77, 145, 202)

    [rows.sort(key=...)] is a stable sort that compares the keys with [<].
    When every key is a [str] its result is the stable sorted arrangement,
    computed here by insertion.  With fewer than two rows nothing is
    compared.  Otherwise some comparison involves a key that is not a
    [str], and comparing a [str], [None] or an object with a value of
    another kind, or [None] or objects among themselves, is a [TypeError].
    Keys that are all lists compare among themselves in Python; that case
    is not modelled ([None]). *)

Fixpoint insert_row {A : Type} (key : A -> string) (a : A) (sorted : list A) : list A :=
  match sorted with
  | [] => [a]
  | b :: rest =>
      if String.ltb (key b) (key a) then b :: insert_row key a rest
      else a :: b :: rest
  end.

Definition stable_sort {A : Type} (key : A -> string) (rows : list A) : list A :=
  fold_right (insert_row key) [] rows.

Definition is_pstr (o : pyval) : bool :=
  match o with PStr _ => true | _ => false end.

Definition is_plist (o : pyval) : bool :=
  match o with PList _ => true | _ => false end.

Definition str_of (o : pyval) : string :=
  match o with PStr s => s | _ => EmptyString end.

Definition sort_rows {A : Type} (key : A -> pyval) (rows : list A)
  : option (result (list A)) :=
  match rows with
  | [] | [_] => Some (Done rows)
  | _ =>
      if forallb (fun r => is_pstr (key r)) rows then
        Some (Done (stable_sort (fun r => str_of (key r)) rows))
      else if forallb (fun r => is_plist (key r)) rows then None
      else Some (Raised TypeError)
  end.

(** The [data] of the three tables, in the order the function builds
    them: each list of rows is collected, then sorted, before the next
    kind of resource is looked at. *)
Definition generate_clinical_details_table
    (conditions encounters medication_administrations : list pyval)
  : option (result (list condition_row * list encounter_row * list medication_row)) :=
  match health_conditions_list conditions with
  | Raised e => Some (Raised e)
  | Done health_conditions =>
      match sort_rows row_clinical_status health_conditions with
      | None => None
      | Some (Raised e) => Some (Raised e)
      | Some (Done conditions_data) =>
          match for_list encounter_row_of encounters with
          | Raised e => Some (Raised e)
          | Done encounters_list =>
              match sort_rows row_encounter_status encounters_list with
              | None => None
              | Some (Raised e) => Some (Raised e)
              | Some (Done encounters_data) =>
                  match for_list medication_row_of medication_administrations with
                  | Raised e => Some (Raised e)
                  | Done medications_list =>
                      match sort_rows row_medication_administration_status
                              medications_list with
                      | None => None
                      | Some (Raised e) => Some (Raised e)
                      | Some (Done medications_data) =>
                          Some (Done (conditions_data, encounters_data, medications_data))
                      end
                  end
              end
          end
      end
  end.

(** Sample encounters and medication administrations. *)
Definition concept_text (t : string) : pyval := PObj [("text", PStr t)].

Definition encounter_of (type_texts : list string) (status : string) : pyval :=
  PObj [("type", PList (map concept_text type_texts)); ("status", PStr status)].

Definition encounter_service_only : pyval :=
  PObj [("serviceType", concept_text "Cardiology"); ("status", PStr "finished")].

Definition medication_by_reference : pyval :=
  PObj [("medicationReference", PObj [("display", PStr "Salbutamol inhaler")]);
        ("status", PStr "completed")].

Definition condition_with_status (name status : string) : pyval :=
  PObj [("code", PObj [("text", PStr name)]);
        ("clinicalStatus", PObj [("coding", PList [PObj [("code", PStr status)]])])].

(** [sorted] is [rows] arranged by a stable sort on the [str] key: the
    same rows, each key at most the next, rows of equal key in their
    original order. *)
Definition stably_sorted {A : Type} (key : A -> string) (rows sorted : list A) : Prop :=
  Permutation rows sorted
  /\ Sorted (fun a b => String.leb (key a) (key b) = true) sorted
  /\ forall k, filter (fun r => String.eqb (key r) k) sorted
               = filter (fun r => String.eqb (key r) k) rows.

Definition sample_conditions : list pyval :=
  [condition_with_status "Asthma" "resolved";
   condition_with_status "COPD" "active";
   condition_with_status "Eczema" "active"].

Definition sample_condition_rows : list condition_row :=
  [{| row_condition_name := PStr "COPD"; row_clinical_status := PStr "active";
      row_verification_status := PStr "Unknown" |};
   {| row_condition_name := PStr "Eczema"; row_clinical_status := PStr "active";
      row_verification_status := PStr "Unknown" |};
   {| row_condition_name := PStr "Asthma"; row_clinical_status := PStr "resolved";
      row_verification_status := PStr "Unknown" |}].

(** ** [handle_callback] as a whole (visualization.py, lines 49-202)

    What lies outside the two files is gathered in [collaborators]: the
    outcome of each call to a service or a library, to be taken as given.
    The steps between those calls are the code of the callback. *)

Record collaborators : Type := {
  (** [Patient.read(...)], as its future returns it *)
  patient_read : result pyval;
  (** [Condition.where(...).perform_resources(...)], as its future returns it *)
  conditions_read : result (list pyval);
  (** imported from [utils], where no function of that name is defined *)
  retrieve_current_health_conditions : list pyval -> result pyval;
  (** [condition.as_json()] *)
  as_json : pyval -> result json;
  (** [googlemaps.Client(key=...).geocode(address)] *)
  geocode : pyval -> result json;
  (** [os.getenv('GOOGLE_MAPS_API_KEY')], as an f-string renders it *)
  google_maps_api_key : string;
  (** [current_dt] and the two instants derived from it, formatted *)
  now_str : string;
  in_1h_str : string;
  in_96h_str : string;
  (** the replies of the air-quality service, in order *)
  air_quality : list reply;
  (** [genai.configure(...)] and [genai.GenerativeModel(...)] *)
  gemini_model : result unit;
  (** [model.generate_content(prompt).text] *)
  generate_content : string -> result string;
  (** the text of a value embedded in an f-string *)
  fmt_value : pyval -> string;
  fmt_prompt_arg : prompt_arg -> string
}.

(** The five outputs of the callback. *)
Record outputs : Type := {
  out_patient_details : string;
  out_address : string;
  out_map_src : string;
  out_gemini_response : string;
  out_figure : scatter * scatter
}.

Definition and_then {A B : Type} (c : result A) (k : A -> option (result B))
  : option (result B) :=
  match c with
  | Done a => k a
  | Raised e => Some (Raised e)
  end.

(** Lines 70-81: the conditions step under [try]/[except Exception]. *)
Definition callback_conditions (c : collaborators) (conditions : list pyval)
  : result (string * list json) :=
  match (current <- retrieve_current_health_conditions c conditions ;;
         joined <- join ", " current ;;
         all_health_conditions <- for_list (as_json c) conditions ;;
         Done (joined, all_health_conditions)) with
  | Done r => Done r
  | Raised _ =>
      Raised (PreventUpdate
                "Something went wrong processing the patient's health conditions")
  end.

(** Lines 86-89: [geocode_result[0]['geometry']['location']['lat']] and
    the same path to ['lng']. *)
Definition coordinate (geocode_result : json) (axis : string) : result json :=
  first <- py_first geocode_result ;;
  geometry <- py_getitem first "geometry" ;;
  location <- py_getitem geometry "location" ;;
  py_getitem location axis.

Definition newline : string := String (ascii_of_nat 10) EmptyString.

(** The pin that opens the address line, as its four UTF-8 bytes. *)
Definition pin : string :=
  String (ascii_of_nat 240) (String (ascii_of_nat 159)
    (String (ascii_of_nat 147) (String (ascii_of_nat 141) EmptyString))).

Definition handle_callback (c : collaborators) : option (result outputs) :=
  and_then (patient_read c) (fun patient =>
  and_then (conditions_read c) (fun conditions =>
  and_then (callback_demographics patient) (fun demographics =>
  let '(name, sex, birthday, address) := demographics in
  and_then (callback_conditions c conditions) (fun health =>
  let '(current_health_conditions, all_health_conditions) := health in
  and_then (geocode c address) (fun geocode_result =>
  and_then (coordinate geocode_result "lat") (fun lat =>
  and_then (coordinate geocode_result "lng") (fun lng =>
  and_then (generate_iframe (google_maps_api_key c) address) (fun maps_iframe =>
  let s := {| api_key := google_maps_api_key c;
              latitude := lat;
              longitude := lng;
              now := now_str c;
              now_plus_1h := in_1h_str c;
              now_plus_96h := in_96h_str c |} in
  match aggregate s (air_quality c) with
  | None => None
  | Some (Raised e) => Some (Raised e)
  | Some (Done (aqi_results, _)) =>
      and_then (make_traces aqi_results (now_str c)) (fun figure =>
      and_then (gemini_model c) (fun _ =>
      and_then (callback_prompt (fmt_prompt_arg c) patient all_health_conditions
                  (now_str c) aqi_results) (fun prompt =>
      and_then (generate_content c prompt) (fun text =>
      Some (Done
        {| out_patient_details :=
             ("Name: " ++ fmt_value c name ++ newline
              ++ "Date of Birth: " ++ fmt_value c birthday ++ newline
              ++ "Sex: " ++ fmt_value c sex ++ newline
              ++ "Current health conditions: " ++ current_health_conditions)%string;
           out_address := (pin ++ " Address: " ++ fmt_value c address)%string;
           out_map_src := maps_iframe;
           out_gemini_response := text;
           out_figure := figure |})))))
  end)))))))).

(** Collaborators that all answer, for a patient with one address. *)
Definition all_answer (patient : pyval) (replies : list reply) : collaborators :=
  {| patient_read := Done patient;
     conditions_read := Done [];
     retrieve_current_health_conditions := fun _ => Done (PList []);
     as_json := fun _ => Done JNull;
     geocode := fun _ =>
       Done (JArr [JObj [("geometry",
                          JObj [("location",
                                 JObj [("lat", JNum 39); ("lng", JNum (-89))])])]]);
     google_maps_api_key := "KEY";
     now_str := "2024-06-01T12:30:00Z";
     in_1h_str := "2024-06-01T13:30:00Z";
     in_96h_str := "2024-06-05T12:30:00Z";
     air_quality := replies;
     gemini_model := Done tt;
     generate_content := fun _ => Done "Stay indoors.";
     fmt_value := fun v => str_of v;
     fmt_prompt_arg := fun _ => EmptyString |}.

(** ** Vocabulary for the address *)

Definition non_empty (s : string) : bool :=
  match s with
  | EmptyString => false
  | _ => true
  end.

(** A field that holds a [str] or [None]. *)
Definition str_or_none (v : pyval) : Prop := v = PNone \/ exists s, v = PStr s.

(** ** The formatted instants (visualization.py, lines 97, 135-136, 155-162)

    [dt.strftime('%Y-%m-%dT%H:%M:%SZ')] for a datetime whose year has four
    digits: the fields zero-padded to their width, with the separators of
    the format. *)

Record datetime : Type := {
  dt_year : N; dt_month : N; dt_day : N;
  dt_hour : N; dt_minute : N; dt_second : N
}.

Definition valid_datetime (dt : datetime) : Prop :=
  (1000 <= dt_year dt <= 9999)%N /\ (1 <= dt_month dt <= 12)%N
  /\ (1 <= dt_day dt <= 31)%N /\ (dt_hour dt <= 23)%N
  /\ (dt_minute dt <= 59)%N /\ (dt_second dt <= 59)%N.

Definition digit (n : N) : ascii := ascii_of_N (48 + n).

(** [%m], [%d], [%H], [%M], [%S]: two digits. *)
Definition two_digits (n : N) : string :=
  String (digit (n / 10)) (String (digit (n mod 10)) EmptyString).

Definition strftime (dt : datetime) : string :=
  (two_digits (dt_year dt / 100) ++ two_digits (dt_year dt mod 100) ++ "-"
   ++ two_digits (dt_month dt) ++ "-" ++ two_digits (dt_day dt) ++ "T"
   ++ two_digits (dt_hour dt) ++ ":" ++ two_digits (dt_minute dt) ++ ":"
   ++ two_digits (dt_second dt) ++ "Z")%string.

(** The order of instants: by year, then month, day, hour, minute, second. *)
Fixpoint lex_compare (xs ys : list N) : comparison :=
  match xs, ys with
  | x :: xs', y :: ys' =>
      match N.compare x y with
      | Eq => lex_compare xs' ys'
      | c => c
      end
  | _, _ => Eq
  end.

Definition instant_compare (a b : datetime) : comparison :=
  lex_compare [dt_year a; dt_month a; dt_day a; dt_hour a; dt_minute a; dt_second a]
              [dt_year b; dt_month b; dt_day b; dt_hour b; dt_minute b; dt_second b].

Definition at_or_before (a b : datetime) : bool :=
  match instant_compare a b with
  | Gt => false
  | _ => true
  end.

Definition noon : datetime :=
  {| dt_year := 2024; dt_month := 6; dt_day := 1;
     dt_hour := 12; dt_minute := 0; dt_second := 0 |}.

Definition half_past_noon : datetime :=
  {| dt_year := 2024; dt_month := 6; dt_day := 1;
     dt_hour := 12; dt_minute := 30; dt_second := 0 |}.

(** ** Lookups that fail, and runs that go on *)

(** The three lookups, in the order of [lookup_order]. *)
Inductive stage : Type := AtForecast | AtCurrent | AtHistory.

(** A body of the shape the lookup of that stage reads without raising. *)
Definition well_formed (st : stage) (b : json) : Prop :=
  match st with
  | AtForecast => forecast_ok b
  | AtCurrent => complete b
  | AtHistory => history_ok b
  end.

(** A lookup fails when the request raises, when the body is not JSON, or
    when the body is not of that shape: it lacks its array of hours, or one
    of its hours lacks a field that is read. *)
Definition failed (st : stage) (r : reply) : Prop :=
  r = ConnectionFailed
  \/ r = Response None
  \/ exists b, r = ok b /\ ~ well_formed st b.

(** Pages that all carry a continuation token. *)
Definition continuing (pages tokens : list json) : Prop :=
  Forall2 (fun b token => py_getitem b "nextPageToken" = Done token) pages tokens.

(** [consumed] are replies without a failure after which the run waits for
    a reply of the stage [st]: a next forecast page, the current body, or a
    next history page. *)
Definition reached (consumed : list reply) (st : stage) : Prop :=
  match st with
  | AtForecast =>
      exists fp ft,
        consumed = map ok fp /\ continuing fp ft /\ Forall forecast_ok fp
  | AtCurrent =>
      exists fp ft,
        consumed = map ok fp /\ paged fp ft /\ Forall forecast_ok fp
  | AtHistory =>
      exists fp ft cb hp ht,
        consumed = map ok fp ++ ok cb :: map ok hp
        /\ paged fp ft /\ Forall forecast_ok fp /\ complete cb
        /\ continuing hp ht /\ Forall history_ok hp
  end.

(** [h] is an hour of one of the bodies of a run: of a forecast page, the
    current body itself, or of a history page. *)
Definition hour_consumed (fp : list json) (cb : json) (hp : list json) (h : json) : Prop :=
  (exists b, In b fp /\ hour_of "hourlyForecasts" b h)
  \/ h = cb
  \/ (exists b, In b hp /\ hour_of "hoursInfo" b h).

(** A forecast page whose second hour has no [indexes]. *)
Definition forecast_page_short_hour : json :=
  forecast_body [hour t13 60; JObj [("dateTime", JStr t14)]].

(** A history reply without the array of hours. *)
Definition history_quota_error : json := JObj [("error", JStr "quota exceeded")].

(** ** Failures of the demographics extractor *)

(** The name, sex and birth-date steps run before the address step, so an
    error of the address step is what the extractor raises only when the
    three of them complete; otherwise it raises the error of the first of
    them that fails. *)
Definition demographics_error (patient : pyval) (at_address : exn) : exn :=
  match get_name patient with
  | Raised e => e
  | Done _ =>
      match get_sex patient with
      | Raised e => e
      | Done _ =>
          match get_birthday patient with
          | Raised e => e
          | Done _ => at_address
          end
      end
  end.

(** A name entry without a use-code, as the FHIR client holds it. *)
Definition name_without_use : pyval :=
  PObj [("use", PNone); ("given", PList [PStr "Ann"]);
        ("family", PStr "Lee"); ("text", PNone)].

Definition patient_two_addresses_no_use : pyval :=
  patient_of (PList [name_without_use]) (PList [main_st; elm_st]).

(** A condition as the FHIR client builds it from a record whose code has
    no text and one coding with a display string: every attribute of the
    element exists, and [text] holds [None]. *)
Definition condition_asthma_coded : pyval :=
  PObj [("code",
         PObj [("text", PNone);
               ("coding", PList [PObj [("system", PStr "http://snomed.info/sct");
                                       ("code", PStr "195967001");
                                       ("display", PStr "Asthma")]])]);
        ("clinicalStatus",
         PObj [("text", PNone);
               ("coding", PList [PObj [("system", PNone);
                                       ("code", PStr "active");
                                       ("display", PNone)]])]);
        ("verificationStatus", PNone)].

(** ** What one concept of [encounter.type] does to the description
    (utils.py, lines 122-128) *)

(** The concept overwrites the description with [v]: the value of its
    [text] attribute when it has one, and otherwise the display of the
    first of its codings that has a [display] attribute. *)
Definition concept_writes (c v : pyval) : Prop :=
  getattr c "text" = Done v
  \/ (hasattr c "text" = false
      /\ exists coding before d after,
           getattr c "coding" = Done coding
           /\ pv_iter coding = Done (before ++ d :: after)
           /\ Forall no_display before
           /\ getattr d "display" = Done v).

(** The concept leaves the description as it is: it has no [text]
    attribute, and no [coding] attribute or no coding with a [display]. *)
Definition concept_silent (c : pyval) : Prop :=
  hasattr c "text" = false
  /\ (hasattr c "coding" = false
      \/ exists coding codings,
           getattr c "coding" = Done coding
           /\ pv_iter coding = Done codings
           /\ Forall no_display codings).

(** A concept with codings only, and an encounter whose second type
    concept is such a one. *)
Definition concept_coded (display : string) : pyval :=
  PObj [("coding", PList [PObj [("code", PStr "AMB")];
                          PObj [("code", PStr "AMB"); ("display", PStr display)]])].

Definition encounter_text_then_coded : pyval :=
  PObj [("serviceType", concept_text "Cardiology");
        ("type", PList [concept_text "Consultation"; concept_coded "ambulatory";
                        PObj [("coding", PList [PObj [("code", PStr "x")]])]]);
        ("status", PStr "finished")].

(** ** The name composed from one entry (utils.py, lines 273-274) *)

(** [firstNames = " ".join(entry.given)], then the entry's text if it is
    not [None], else the first names, a space and the family name. *)
Definition composed_name (entry : pyval) : result pyval :=
  given <- getattr entry "given" ;;
  firstNames <- join " " given ;;
  text_or_parts entry firstNames.

(** An official entry whose text is the empty string, after a usual one. *)
Definition official_empty_text : pyval :=
  PObj [("use", PStr "official"); ("given", PList [PStr "Annabel"]);
        ("family", PStr "Lee"); ("text", PStr EmptyString)].

Definition patient_official_empty_text : pyval :=
  patient_of (PList [usual_ann; official_empty_text]) (PList [main_st]).

(** * Properties *)

(** ** Helpers on results and objects *)

Lemma bind_done {A B : Type} (c : result A) (k : A -> result B) (b : B) :
  bind c k = Done b -> exists a, c = Done a /\ k a = Done b.
Proof.
  destruct c as [a|e]; simpl; intros H.
  - exists a. split; [reflexivity | exact H].
  - discriminate H.
Qed.

Tactic Notation "bind_inv" hyp(H) "as" ident(a) ident(Ha) :=
  apply bind_done in H; destruct H as [a [Ha H]].

Lemma getattr_hasattr (o v : pyval) (a : string) :
  getattr o a = Done v -> hasattr o a = true.
Proof.
  destruct o; simpl; try discriminate.
  destruct (field a attrs); [reflexivity | discriminate].
Qed.

Lemma hasattr_getattr (o : pyval) (a : string) :
  hasattr o a = true -> exists v, getattr o a = Done v.
Proof.
  destruct o; simpl; try discriminate.
  destruct (field a attrs) as [v|]; [exists v; reflexivity | discriminate].
Qed.

Lemma no_attr_raises (o : pyval) (a : string) :
  hasattr o a = false -> getattr o a = Raised AttributeError.
Proof.
  destruct o; simpl; try reflexivity.
  destruct (field a attrs); [discriminate | reflexivity].
Qed.

(** ** The call of [generate_prompt] *)

(** [generate_prompt] returns a prompt exactly for seven arguments. *)
Lemma generate_prompt_arity (V : Type) (fmt : V -> string) (missing : V) (args : list V) :
  (exists prompt, generate_prompt V fmt missing args = Done prompt)
  <-> List.length args = 7%nat.
Proof.
  unfold generate_prompt, py_call. simpl.
  destruct (Nat.eqb (List.length args) 7) eqn:E.
  - apply Nat.eqb_eq in E. split; [intros _; exact E | intros _; eexists; reflexivity].
  - apply Nat.eqb_neq in E. split; [intros [p Hp]; discriminate Hp | intros H; contradiction].
Qed.

(** C10.  The callback's call of [generate_prompt] passes five arguments to
    a function of seven required parameters.  Whatever the patient, the
    conditions, the instant and the readings are, the prompt step returns
    no prompt; and whenever the five argument expressions evaluate, so that
    the call itself is reached, what is raised is the [TypeError] of the
    arity mismatch. *)
Theorem prompt_call_always_fails :
  forall (fmt : prompt_arg -> string) (patient : pyval)
         (all_health_conditions : list json) (now_str : string) (aqi_results : pydict),
    (forall prompt,
        callback_prompt fmt patient all_health_conditions now_str aqi_results
        <> Done prompt)
    /\ (forall gender birthDate isostring,
           getattr patient "gender" = Done gender ->
           getattr patient "birthDate" = Done birthDate ->
           getattr birthDate "isostring" = Done isostring ->
           callback_prompt fmt patient all_health_conditions now_str aqi_results
           = Raised TypeError).
Proof.
  intros fmt patient conds now_str aqi. unfold callback_prompt. split.
  - intros prompt H.
    bind_inv H as gender Hg. bind_inv H as birthDate Hb. bind_inv H as isostring Hi.
    unfold generate_prompt, py_call in H. simpl in H. discriminate H.
  - intros gender birthDate isostring Hg Hb Hi.
    rewrite Hg; simpl. rewrite Hb; simpl. rewrite Hi; simpl. reflexivity.
Qed.

Lemma prompt_call_always_fails_witness :
  callback_prompt (fun _ => "") patient_usual_only [] "2024-06-01T12:30:00Z" []
  = Raised TypeError.
Proof.
  apply (proj2 (prompt_call_always_fails (fun _ => "") patient_usual_only []
                  "2024-06-01T12:30:00Z" []))
    with (gender := PStr "female")
         (birthDate := PObj [("isostring", PStr "1980-01-01")])
         (isostring := PStr "1980-01-01");
    reflexivity.
Defined.

(** ** Condition rows *)

(** C5 as stated fails: with both a text and a coding present, the status is
    the code of the coding, not the text. *)
Lemma clinical_status_text_overridden :
  getattr condition_text_and_code "clinicalStatus"
  = Done (PObj [("text", PStr "Active problem");
                ("coding", PList [PObj [("code", PStr "active")]])])
  /\ clinical_status condition_text_and_code = Done (PStr "active")
  /\ clinical_status condition_text_and_code <> Done (PStr "Active problem").
Proof.
  split; [reflexivity | split; [reflexivity | discriminate]].
Qed.

(** C5, amended.  When the clinical status carries a coding, the status is
    the code of its first entry, whether or not a text is present (the
    coded status overrides the text); the text is the status only when no
    coding is present; and the status is "Unknown" when the condition has
    no clinical status, or one with neither text nor coding. *)
Theorem clinical_status_resolution :
  forall condition : pyval,
    (forall st coding c0 code,
        getattr condition "clinicalStatus" = Done st ->
        getattr st "coding" = Done coding ->
        pv_first coding = Done c0 ->
        getattr c0 "code" = Done code ->
        clinical_status condition = Done code)
    /\ (forall st text,
           getattr condition "clinicalStatus" = Done st ->
           hasattr st "coding" = false ->
           getattr st "text" = Done text ->
           clinical_status condition = Done text)
    /\ (forall st,
           getattr condition "clinicalStatus" = Done st ->
           hasattr st "coding" = false ->
           hasattr st "text" = false ->
           clinical_status condition = Done (PStr "Unknown"))
    /\ (hasattr condition "clinicalStatus" = false ->
        clinical_status condition = Done (PStr "Unknown")).
Proof.
  intros condition. unfold clinical_status, status_of.
  repeat split.
  - intros st coding c0 code Hst Hc H0 Hcode.
    rewrite (getattr_hasattr _ _ _ Hst), Hst. simpl.
    rewrite (getattr_hasattr _ _ _ Hc).
    destruct (hasattr st "text") eqn:Ht.
    + destruct (hasattr_getattr _ _ Ht) as [t Ht']. rewrite Ht'. simpl.
      rewrite Hc. simpl. rewrite H0. simpl. exact Hcode.
    + simpl. rewrite Hc. simpl. rewrite H0. simpl. exact Hcode.
  - intros st text Hst Hnc Ht.
    rewrite (getattr_hasattr _ _ _ Hst), Hst. simpl.
    rewrite (getattr_hasattr _ _ _ Ht), Ht. simpl. rewrite Hnc. reflexivity.
  - intros st Hst Hnc Hnt.
    rewrite (getattr_hasattr _ _ _ Hst), Hst. simpl.
    rewrite Hnt. simpl. rewrite Hnc. reflexivity.
  - intros H. rewrite H. reflexivity.
Qed.

Lemma clinical_status_resolution_witness :
  clinical_status condition_text_and_code = Done (PStr "active").
Proof.
  apply (proj1 (clinical_status_resolution condition_text_and_code))
    with (st := PObj [("text", PStr "Active problem");
                      ("coding", PList [PObj [("code", PStr "active")]])])
         (coding := PList [PObj [("code", PStr "active")]])
         (c0 := PObj [("code", PStr "active")]);
    reflexivity.
Defined.

Lemma first_display_found (before after : list pyval) (c display name0 : pyval) :
  Forall no_display before ->
  getattr c "display" = Done display ->
  first_display (before ++ c :: after) name0 = Done display.
Proof.
  intros Hb Hd. induction Hb as [|b before Hb _ IH]; simpl.
  - rewrite (getattr_hasattr _ _ _ Hd). exact Hd.
  - unfold no_display in Hb. rewrite Hb. exact IH.
Qed.

Lemma first_display_none (codings : list pyval) (name0 : pyval) :
  Forall no_display codings -> first_display codings name0 = Done name0.
Proof.
  intros H. induction H as [|c codings Hc _ IH]; simpl.
  - reflexivity.
  - unfold no_display in Hc. rewrite Hc. exact IH.
Qed.

(** A condition whose code has a [text] attribute gets the value of that
    attribute as its name, whatever it is and whatever the codings hold:
    the branch that reads the codings and the one that raises are not
    reached. *)
Lemma condition_name_is_text_attribute (condition code text : pyval) :
  getattr condition "code" = Done code ->
  getattr code "text" = Done text ->
  condition_name condition = Done text.
Proof.
  intros Hcode Ht. unfold condition_name.
  rewrite (getattr_hasattr _ _ _ Hcode), Hcode. simpl.
  rewrite (getattr_hasattr _ _ _ Ht). exact Ht.
Qed.

(** C9 on conditions as the FHIR client builds them, where the [text] of
    a code is an attribute that holds [None] when the record has no text.
    For a record with no text and a coding whose display is "Asthma" the
    name is [None], not "Asthma"; and for a record with no text and no
    display the name is [None] too, and nothing is raised. *)
Theorem condition_display_never_read :
  condition_name condition_asthma_coded = Done PNone
  /\ condition_name condition_asthma_coded <> Done (PStr "Asthma")
  /\ condition_name condition_all_none = Done PNone
  /\ (forall e, condition_name condition_all_none <> Raised e).
Proof.
  split; [reflexivity|]. split; [discriminate|].
  split; [reflexivity | intros e; discriminate].
Qed.

(** ** Demographics: the name *)

Lemma passed_over_truthy (entry : pyval) : passed_over entry -> truthy entry = true.
Proof.
  intros [use [H _]]. destruct entry; simpl in H; try discriminate. reflexivity.
Qed.

Lemma last_nonempty {A : Type} (a : A) (l : list A) (d d' : A) :
  last (a :: l) d = last (a :: l) d'.
Proof.
  revert a. induction l as [|b l IH]; intros a.
  - reflexivity.
  - change (last (b :: l) d = last (b :: l) d'). apply IH.
Qed.

(** When no entry is official the loop ends with [name] bound to the last
    entry. *)
Lemma name_loop_passed_over (entries : list pyval) (name0 : pyval) :
  Forall passed_over entries ->
  name_loop entries name0 = Done (last entries name0).
Proof.
  intros H. revert name0.
  induction H as [|entry entries [use [Hu Hn]] Hall IH]; intros name0; simpl.
  - reflexivity.
  - rewrite Hu. simpl. rewrite Hn. rewrite IH.
    destruct entries as [|p entries]; [reflexivity|].
    f_equal. apply last_nonempty.
Qed.

(** The loop stops at the first official entry, wherever it stands. *)
Lemma name_loop_official (before after : list pyval) (entry use given name0 r : pyval)
    (firstNames : string) :
  Forall passed_over before ->
  getattr entry "use" = Done use ->
  pv_contains "official" use = Done true ->
  getattr entry "given" = Done given ->
  join " " given = Done firstNames ->
  name_loop (before ++ entry :: after) name0
  = text_or_parts entry firstNames.
Proof.
  intros Hb Hu Ho Hg Hj. revert name0.
  induction Hb as [|b before [use' [Hu' Hn']] _ IH]; intros name0; simpl.
  - rewrite Hu. simpl. rewrite Ho. simpl. rewrite Hg. simpl. rewrite Hj. reflexivity.
  - rewrite Hu'. simpl. rewrite Hn'. apply IH.
Qed.

(** The part of C4 that the code does: an official entry is chosen wherever
    it stands (given that the entries before it carry a use-code, and that
    its given names can be joined), and yields its text, or else its given
    names and family name. *)
Lemma get_name_official (patient : pyval) (before after : list pyval)
    (entry use given name : pyval) (firstNames : string) :
  getattr patient "name" = Done (PList (before ++ entry :: after)) ->
  Forall passed_over before ->
  getattr entry "use" = Done use ->
  pv_contains "official" use = Done true ->
  getattr entry "given" = Done given ->
  join " " given = Done firstNames ->
  text_or_parts entry firstNames = Done name ->
  truthy name = true ->
  get_name patient = Done name.
Proof.
  intros Hn Hb Hu Ho Hg Hj Ht Htr. unfold get_name.
  rewrite Hn. simpl.
  rewrite (name_loop_official before after entry use given PNone name firstNames Hb Hu Ho Hg Hj).
  rewrite Ht. simpl. rewrite Htr. reflexivity.
Qed.

(** Without an official entry the extractor returns the last entry object
    itself: the fallback to the first entry never runs. *)
Lemma get_name_no_official (patient : pyval) (entries : list pyval) :
  getattr patient "name" = Done (PList entries) ->
  entries <> [] ->
  Forall passed_over entries ->
  get_name patient = Done (last entries PNone).
Proof.
  intros Hn Hne Hall. unfold get_name. rewrite Hn. simpl.
  rewrite (name_loop_passed_over entries PNone Hall). simpl.
  assert (Ht : truthy (last entries PNone) = true).
  { apply passed_over_truthy.
    destruct (exists_last Hne) as [l' [a Hl]]. subst entries.
    rewrite last_last. rewrite Forall_app in Hall. destruct Hall as [_ Ha].
    inversion Ha; assumption. }
  rewrite Ht. reflexivity.
Qed.

(** C4 at a patient whose single name entry is not official: the extractor
    returns the name entry object, not the string "Ann Lee" made of its
    given and family names. *)
Theorem get_name_usual_only :
  getattr patient_usual_only "name" = Done (PList [usual_ann])
  /\ get_name patient_usual_only = Done usual_ann
  /\ get_name patient_usual_only <> Done (PStr "Ann Lee").
Proof.
  split; [reflexivity | split; [reflexivity | discriminate]].
Qed.

Example get_name_official_second :
  get_name patient_official_second = Done (PStr "Annabel Lee").
Proof. reflexivity. Qed.

(** On a condition built by the FHIR client, where an absent element is an
    attribute holding [None]: a clinical status with a text and no coding
    raises on [coding[0]]. *)
Example clinical_status_text_only_none_coding :
  clinical_status condition_all_none = Raised TypeError
  /\ verification_status condition_all_none = Done (PStr "Unknown").
Proof. split; reflexivity. Qed.

(** ** Demographics: the address *)

Lemma get_address_some (patient a : pyval) :
  get_address patient = Done (Some a) ->
  exists address, getattr patient "address" = Done (PList [address]).
Proof.
  unfold get_address. intros H.
  destruct (getattr patient "address") as [addresses|e] eqn:Ha; simpl in H;
    [|discriminate].
  destruct (pv_len addresses) as [n|e] eqn:Hl; simpl in H; [|discriminate].
  destruct (Nat.eqb n 1) eqn:En.
  - apply Nat.eqb_eq in En. subst n.
    destruct addresses as [| s | items | attrs]; simpl in Hl; try discriminate.
    + (* a [str] of length one: its character has no attribute [text] *)
      destruct s as [|c s]; simpl in Hl; [discriminate|].
      simpl in H. discriminate.
    + destruct items as [|address [|b items]]; simpl in Hl; try discriminate.
      exists address. reflexivity.
  - destruct (Nat.ltb 1 n); simpl in H; discriminate.
Qed.

(** What the extractor raises when its address step raises. *)
Lemma address_step_raises (patient : pyval) (e : exn) :
  get_address patient = Raised e ->
  get_patient_demographics patient = Raised (demographics_error patient e).
Proof.
  intros H. unfold get_patient_demographics, demographics_error.
  destruct (get_name patient) as [n|e1]; simpl; [|reflexivity].
  destruct (get_sex patient) as [s|e2]; simpl; [|reflexivity].
  destruct (get_birthday patient) as [b|e3]; simpl; [|reflexivity].
  rewrite H. reflexivity.
Qed.

(** What it raises when the address step binds no address. *)
Lemma address_step_unbound (patient : pyval) :
  get_address patient = Done None ->
  get_patient_demographics patient
  = Raised (demographics_error patient UnboundLocalError).
Proof.
  intros H. unfold get_patient_demographics, demographics_error.
  destruct (get_name patient) as [n|e1]; simpl; [|reflexivity].
  destruct (get_sex patient) as [s|e2]; simpl; [|reflexivity].
  destruct (get_birthday patient) as [b|e3]; simpl; [|reflexivity].
  rewrite H. reflexivity.
Qed.

Lemma demographics_error_last (patient name sex birthday : pyval) (e : exn) :
  get_name patient = Done name ->
  get_sex patient = Done sex ->
  get_birthday patient = Done birthday ->
  demographics_error patient e = e.
Proof.
  intros Hn Hs Hb. unfold demographics_error. rewrite Hn, Hs, Hb. reflexivity.
Qed.

(** C8 as stated fails: a patient with two addresses whose name entry has
    no use-code makes the extractor raise the [TypeError] of the name
    step, which runs first; the multiple-addresses error is not raised. *)
Lemma two_addresses_name_without_use :
  getattr patient_two_addresses_no_use "address" = Done (PList [main_st; elm_st])
  /\ get_patient_demographics patient_two_addresses_no_use = Raised TypeError
  /\ get_patient_demographics patient_two_addresses_no_use
     <> Raised (PyException "Multiple addresses detected!").
Proof.
  split; [reflexivity | split; [reflexivity | discriminate]].
Qed.

(** C8, amended.  For a patient with more than one address the address
    step raises "Multiple addresses detected!" and the extractor returns
    nothing: it raises that error when the name, sex and birth-date steps,
    which run before the address step, complete, and otherwise the error
    of the first of them that fails; the callback raises its
    [PreventUpdate] either way.  For a patient with no address the
    extractor raises as well, after the same earlier steps:
    [UnboundLocalError] for an empty list, [AttributeError] for an absent
    attribute, [TypeError] for [None]; the callback stops such a patient at
    its guard, with [PreventUpdate] for an empty list or an absent
    attribute and with the [TypeError] of [len(None)] for [None].  And
    whenever the extractor returns, the patient has exactly one address,
    which is the one returned. *)
Theorem address_count_decides :
  forall patient : pyval,
    (forall addresses,
        getattr patient "address" = Done (PList addresses) ->
        (1 < List.length addresses)%nat ->
        get_address patient = Raised (PyException "Multiple addresses detected!")
        /\ get_patient_demographics patient
           = Raised (demographics_error patient
                       (PyException "Multiple addresses detected!"))
        /\ (forall name sex birthday,
               get_name patient = Done name ->
               get_sex patient = Done sex ->
               get_birthday patient = Done birthday ->
               get_patient_demographics patient
               = Raised (PyException "Multiple addresses detected!"))
        /\ callback_demographics patient
           = Raised (PreventUpdate
                       "Something went wrong processing the patient's demographics"))
    /\ (getattr patient "address" = Done (PList []) ->
        get_address patient = Done None
        /\ get_patient_demographics patient
           = Raised (demographics_error patient UnboundLocalError)
        /\ callback_demographics patient
           = Raised (PreventUpdate "No address found for the patient."))
    /\ (hasattr patient "address" = false ->
        get_address patient = Raised AttributeError
        /\ get_patient_demographics patient
           = Raised (demographics_error patient AttributeError)
        /\ callback_demographics patient
           = Raised (PreventUpdate "No address found for the patient."))
    /\ (getattr patient "address" = Done PNone ->
        get_address patient = Raised TypeError
        /\ get_patient_demographics patient
           = Raised (demographics_error patient TypeError)
        /\ callback_demographics patient = Raised TypeError)
    /\ (forall name sex birthday address,
           get_patient_demographics patient = Done (name, sex, birthday, address) ->
           get_address patient = Done (Some address)
           /\ exists a, getattr patient "address" = Done (PList [a])).
Proof.
  intros patient. split; [|split; [|split; [|split]]].
  - intros addresses Ha Hlen.
    assert (Hstep : get_address patient
                    = Raised (PyException "Multiple addresses detected!")).
    { unfold get_address. rewrite Ha. simpl.
      destruct addresses as [|a [|b addresses]]; simpl in Hlen; try lia. reflexivity. }
    split; [exact Hstep|].
    split; [apply address_step_raises; exact Hstep|].
    split.
    + intros name sex birthday Hn Hs Hb.
      rewrite (address_step_raises patient _ Hstep).
      rewrite (demographics_error_last patient name sex birthday _ Hn Hs Hb).
      reflexivity.
    + unfold callback_demographics.
      rewrite (getattr_hasattr _ _ _ Ha), Ha. simpl.
      destruct addresses as [|a [|b addresses]]; simpl in Hlen; try lia. simpl.
      rewrite (address_step_raises patient _ Hstep). reflexivity.
  - intros Ha.
    assert (Hstep : get_address patient = Done None).
    { unfold get_address. rewrite Ha. reflexivity. }
    split; [exact Hstep|].
    split; [apply address_step_unbound; exact Hstep|].
    unfold callback_demographics. rewrite (getattr_hasattr _ _ _ Ha), Ha. reflexivity.
  - intros Ha.
    assert (Hstep : get_address patient = Raised AttributeError).
    { unfold get_address. rewrite (no_attr_raises _ _ Ha). reflexivity. }
    split; [exact Hstep|].
    split; [apply address_step_raises; exact Hstep|].
    unfold callback_demographics. rewrite Ha. reflexivity.
  - intros Ha.
    assert (Hstep : get_address patient = Raised TypeError).
    { unfold get_address. rewrite Ha. reflexivity. }
    split; [exact Hstep|].
    split; [apply address_step_raises; exact Hstep|].
    unfold callback_demographics. rewrite (getattr_hasattr _ _ _ Ha), Ha. reflexivity.
  - intros name sex birthday address H.
    unfold get_patient_demographics in H.
    bind_inv H as n Hn. bind_inv H as s Hs. bind_inv H as b Hb. bind_inv H as oa Hoa.
    destruct oa as [a'|]; [|discriminate].
    inversion H; subst. split; [exact Hoa|].
    apply (get_address_some patient address Hoa).
Qed.

Lemma address_count_decides_witness :
  get_address patient_two_addresses
  = Raised (PyException "Multiple addresses detected!")
  /\ get_patient_demographics patient_two_addresses
     = Raised (demographics_error patient_two_addresses
                 (PyException "Multiple addresses detected!"))
  /\ (forall name sex birthday,
         get_name patient_two_addresses = Done name ->
         get_sex patient_two_addresses = Done sex ->
         get_birthday patient_two_addresses = Done birthday ->
         get_patient_demographics patient_two_addresses
         = Raised (PyException "Multiple addresses detected!"))
  /\ callback_demographics patient_two_addresses
     = Raised (PreventUpdate
                 "Something went wrong processing the patient's demographics").
Proof.
  apply (proj1 (address_count_decides patient_two_addresses) [main_st; elm_st]).
  - reflexivity.
  - simpl. lia.
Defined.

Example two_addresses_raise_multiple :
  get_patient_demographics patient_two_addresses
  = Raised (PyException "Multiple addresses detected!").
Proof. reflexivity. Qed.

Example no_name_two_addresses :
  get_patient_demographics (patient_of PNone (PList [main_st; elm_st]))
  = Raised TypeError.
Proof. reflexivity. Qed.

Example empty_address_list :
  get_patient_demographics (patient_of (PList [official_ann]) (PList []))
  = Raised UnboundLocalError
  /\ callback_demographics (patient_of (PList [official_ann]) (PList []))
     = Raised (PreventUpdate "No address found for the patient.").
Proof. split; reflexivity. Qed.

Example one_address_composed :
  get_address (patient_of (PList [official_ann]) (PList [main_st]))
  = Done (Some (PStr "123 Main St, Springfield, IL")).
Proof. reflexivity. Qed.

(** ** The two chart traces *)

Lemma leb_refl (s : string) : String.leb s s = true.
Proof. destruct (String.leb_total s s); assumption. Qed.

Lemma hkey_eqb_refl (h : hkey) : hkey_eqb h h = true.
Proof.
  destruct h; simpl.
  - reflexivity.
  - apply Z.eqb_refl.
  - apply String.eqb_refl.
Qed.

Lemma hkey_eqb_eq (a b : hkey) : hkey_eqb a b = true <-> a = b.
Proof.
  destruct a, b; simpl; split; intros H; try discriminate; try reflexivity.
  - apply Z.eqb_eq in H. subst; reflexivity.
  - inversion H; subst. apply Z.eqb_refl.
  - apply String.eqb_eq in H. subst; reflexivity.
  - inversion H; subst. apply String.eqb_refl.
Qed.

Lemma key_eqb_str (k : json) (t : string) : key_eqb k (JStr t) = true -> k = JStr t.
Proof.
  unfold key_eqb. destruct k as [| b | n | s | items | fields]; simpl;
    try discriminate.
  intros H. apply String.eqb_eq in H. subst; reflexivity.
Qed.

Lemma key_eqb_refl (k : json) (h : hkey) : hash_key k = Some h -> key_eqb k k = true.
Proof. unfold key_eqb. intros H. rewrite H. apply hkey_eqb_refl. Qed.

Lemma dict_get_in_keys (k v : json) (d : pydict) :
  dict_get k d = Some v -> exists k', In (k', v) d /\ key_eqb k' k = true.
Proof.
  induction d as [|[k' v'] d IH]; simpl; [discriminate|].
  destruct (key_eqb k' k) eqn:E.
  - intros H; inversion H; subst. exists k'. split; [left; reflexivity | exact E].
  - intros H. destruct (IH H) as [k'' [Hin He]]. exists k''. split; [right; exact Hin | exact He].
Qed.

Lemma key_has_value (k : json) (h : hkey) (d : pydict) :
  hash_key k = Some h -> In k (keys d) -> exists v, dict_get k d = Some v.
Proof.
  intros Hh. induction d as [|[k' v'] d IH]; simpl; [intros []|].
  intros [E | Hin].
  - subst k'. rewrite (key_eqb_refl _ _ Hh). eexists; reflexivity.
  - destruct (key_eqb k' k); [eexists; reflexivity | apply IH; exact Hin].
Qed.

Lemma select_in (test : json -> result bool) (ks xs : list json) :
  select test ks = Done xs ->
  forall k, In k xs -> In k ks /\ test k = Done true.
Proof.
  revert xs. induction ks as [|a ks IH]; simpl; intros xs H k Hk.
  - inversion H; subst. destruct Hk.
  - destruct (test a) as [[|]|e] eqn:Ta; simpl in H; try discriminate.
    + bind_inv H as xs' Hxs. inversion H; subst. destruct Hk as [E | Hk].
      * subst. split; [left; reflexivity | exact Ta].
      * destruct (IH _ Hxs k Hk) as [Hin Ht]. split; [right; exact Hin | exact Ht].
    + destruct (IH _ H k Hk) as [Hin Ht]. split; [right; exact Hin | exact Ht].
Qed.

(** The two comprehensions run over the same keys with the same test, so
    they pair each selected key with its value. *)
Lemma select_pairs (test : json -> result bool) (d : pydict) (ks xs ys : list json) :
  select test ks = Done xs ->
  select_values test d ks = Done ys ->
  forall k v, In k ks -> test k = Done true -> dict_getitem d k = Done v ->
              In (k, v) (combine xs ys).
Proof.
  revert xs ys. induction ks as [|a ks IH]; simpl; intros xs ys Hx Hy k v Hk Ht Hv.
  - destruct Hk.
  - destruct (test a) as [[|]|e] eqn:Ta; simpl in Hx, Hy; try discriminate.
    + bind_inv Hx as xs' Hxs. inversion Hx; subst.
      bind_inv Hy as v' Hv'. bind_inv Hy as ys' Hys. inversion Hy; subst.
      destruct Hk as [E | Hk].
      * subst a. rewrite Hv in Hv'. inversion Hv'; subst. left; reflexivity.
      * right. apply (IH _ _ Hxs Hys k v Hk Ht Hv).
    + destruct Hk as [E | Hk].
      * subst a. rewrite Ht in Ta. discriminate.
      * apply (IH _ _ Hx Hy k v Hk Ht Hv).
Qed.

Lemma select_total (test : json -> result bool) (ks : list json) :
  Forall (fun k => exists b, test k = Done b) ks ->
  exists xs, select test ks = Done xs.
Proof.
  intros H. induction H as [|a ks [b Hb] _ [xs IH]]; simpl.
  - eexists; reflexivity.
  - rewrite Hb. simpl. destruct b.
    + rewrite IH. simpl. eexists; reflexivity.
    + exists xs. exact IH.
Qed.

Lemma select_values_total (test : json -> result bool) (d : pydict) (ks : list json) :
  Forall (fun k => (exists b, test k = Done b) /\ exists v, dict_getitem d k = Done v) ks ->
  exists ys, select_values test d ks = Done ys.
Proof.
  intros H. induction H as [|a ks [[b Hb] [v Hv]] _ [ys IH]]; simpl.
  - eexists; reflexivity.
  - rewrite Hb. simpl. destruct b.
    + rewrite Hv. simpl. rewrite IH. simpl. eexists; reflexivity.
    + exists ys. exact IH.
Qed.

Lemma trace_total (test : json -> result bool) (d : pydict) :
  (forall t, exists b, test (JStr t) = Done b) ->
  Forall is_timestamp (keys d) ->
  exists s, trace test d = Done s.
Proof.
  intros Htest Hk. unfold trace.
  destruct (select_total test (keys d)) as [xs Hx].
  { eapply Forall_impl; [|exact Hk]. intros k [t E]. subst. apply Htest. }
  destruct (select_values_total test d (keys d)) as [ys Hy].
  { rewrite Forall_forall in Hk |- *. intros k Hin.
    destruct (Hk k Hin) as [t E]. subst k. split; [apply Htest|].
    destruct (key_has_value (JStr t) (HStr t) d eq_refl Hin) as [v Hv].
    exists v. unfold dict_getitem. simpl. rewrite Hv. reflexivity. }
  rewrite Hx, Hy. simpl. eexists; reflexivity.
Qed.

Lemma trace_has (test : json -> result bool) (d : pydict) (s : scatter) (t : string) (v : json) :
  trace test d = Done s ->
  test (JStr t) = Done true ->
  dict_get (JStr t) d = Some v ->
  In (JStr t, v) (combine (x s) (y s)).
Proof.
  unfold trace. intros H Ht Hv.
  bind_inv H as xs Hxs. bind_inv H as ys Hys. inversion H; subst; simpl.
  apply (select_pairs test d (keys d) xs ys Hxs Hys).
  - destruct (dict_get_in_keys _ _ _ Hv) as [k' [Hin He]].
    apply key_eqb_str in He. subst k'.
    unfold keys. apply (in_map fst) in Hin. exact Hin.
  - exact Ht.
  - unfold dict_getitem. simpl. rewrite Hv. reflexivity.
Qed.

Lemma trace_keys (test : json -> result bool) (d : pydict) (s : scatter) :
  trace test d = Done s ->
  forall k, In k (x s) -> In k (keys d) /\ test k = Done true.
Proof.
  unfold trace. intros H k Hk.
  bind_inv H as xs Hxs. bind_inv H as ys Hys. inversion H; subst; simpl in Hk.
  apply (select_in test (keys d) xs Hxs k Hk).
Qed.

(** C6.  For every series whose keys are timestamps the two traces are
    produced; and whenever they are produced, a reading whose timestamp
    equals now is in both traces with its value, every timestamp of the
    observed trace is at most now, and every timestamp of the forecast
    trace is at least now (in the order of the timestamp strings, which is
    the comparison the code makes). *)
Theorem traces_split_at_now :
  forall (aqi_results : pydict) (now_str : string),
    (Forall is_timestamp (keys aqi_results) ->
     exists observed forecast,
       make_traces aqi_results now_str = Done (observed, forecast))
    /\ (forall observed forecast,
           make_traces aqi_results now_str = Done (observed, forecast) ->
           (forall v,
               dict_get (JStr now_str) aqi_results = Some v ->
               In (JStr now_str, v) (combine (x observed) (y observed))
               /\ In (JStr now_str, v) (combine (x forecast) (y forecast)))
           /\ (forall k, In k (x observed) ->
                         exists t, k = JStr t /\ String.leb t now_str = true)
           /\ (forall k, In k (x forecast) ->
                         exists t, k = JStr t /\ String.leb now_str t = true)).
Proof.
  intros d now_str. split.
  - intros Hk. unfold make_traces.
    destruct (trace_total (le_str now_str) d) as [o Ho];
      [intros t; eexists; reflexivity | exact Hk |].
    destruct (trace_total (ge_str now_str) d) as [f Hf];
      [intros t; eexists; reflexivity | exact Hk |].
    rewrite Ho, Hf. simpl. exists o, f. reflexivity.
  - intros o f H. unfold make_traces in H.
    bind_inv H as o' Ho. bind_inv H as f' Hf. inversion H; subst. clear H.
    split; [|split].
    + intros v Hv. split.
      * apply (trace_has (le_str now_str) d o now_str v Ho); [|exact Hv].
        simpl. rewrite leb_refl. reflexivity.
      * apply (trace_has (ge_str now_str) d f now_str v Hf); [|exact Hv].
        simpl. rewrite leb_refl. reflexivity.
    + intros k Hk. destruct (trace_keys _ _ _ Ho k Hk) as [_ Ht].
      destruct k as [| b | n | s | items | fields]; simpl in Ht; try discriminate.
      exists s. split; [reflexivity|]. inversion Ht; reflexivity.
    + intros k Hk. destruct (trace_keys _ _ _ Hf k Hk) as [_ Ht].
      destruct k as [| b | n | s | items | fields]; simpl in Ht; try discriminate.
      exists s. split; [reflexivity|]. inversion Ht; reflexivity.
Qed.

Lemma traces_split_at_now_witness :
  exists observed forecast,
    make_traces series_at_now "2024-06-01T12:30:00Z" = Done (observed, forecast).
Proof.
  apply (proj1 (traces_split_at_now series_at_now "2024-06-01T12:30:00Z")).
  repeat constructor; eexists; reflexivity.
Defined.

Example traces_of_series_at_now :
  make_traces series_at_now "2024-06-01T12:30:00Z"
  = Done ({| x := [JStr "2024-06-01T12:30:00Z"; JStr t11];
             y := [JNum 52; JNum 45] |},
          {| x := [JStr t13; JStr "2024-06-01T12:30:00Z"];
             y := [JNum 60; JNum 52] |}).
Proof. reflexivity. Qed.

(** C2 at a run with one page per lookup: the readings come in the order
    forecast, current, history, the traces keep that order, and the
    observed trace starts with the current hour followed by the earlier
    hours of the history; it is not ascending. *)
Theorem observed_trace_not_sorted :
  exists d w observed forecast,
    aggregate springfield replies_plain = Some (Done (d, w))
    /\ make_traces d (now springfield) = Done (observed, forecast)
    /\ x observed = [JStr t12; JStr t10; JStr t11]
    /\ ascending (x observed) = false.
Proof.
  do 4 eexists. split; [reflexivity|]. split; [reflexivity|].
  split; reflexivity.
Qed.

(** ** The dict under successive updates *)

Lemma key_eqb_true (a b : json) :
  key_eqb a b = true <-> exists h, hash_key a = Some h /\ hash_key b = Some h.
Proof.
  unfold key_eqb. split.
  - destruct (hash_key a) as [ha|]; [|discriminate].
    destruct (hash_key b) as [hb|]; [|discriminate].
    intros H. apply hkey_eqb_eq in H. subst hb. exists ha. split; reflexivity.
  - intros [h [Ha Hb]]. rewrite Ha, Hb. apply hkey_eqb_refl.
Qed.

Lemma key_eqb_congr (a b c : json) :
  key_eqb a b = true -> key_eqb a c = key_eqb b c.
Proof.
  intros H. apply key_eqb_true in H. destruct H as [h [Ha Hb]].
  unfold key_eqb. rewrite Ha, Hb. reflexivity.
Qed.

Lemma dict_get_update (d : pydict) (k' v k : json) :
  dict_get k (dict_update d (k', v))
  = if key_eqb k' k then Some v else dict_get k d.
Proof.
  induction d as [|[k0 v0] d IH]; simpl.
  - destruct (key_eqb k' k); reflexivity.
  - destruct (key_eqb k0 k') eqn:E0; simpl.
    + rewrite <- (key_eqb_congr k0 k' k E0).
      destruct (key_eqb k0 k); reflexivity.
    + destruct (key_eqb k0 k) eqn:E1.
      * destruct (key_eqb k' k) eqn:E2; [|reflexivity].
        exfalso.
        apply key_eqb_true in E1. destruct E1 as [h [H0 Hk]].
        apply key_eqb_true in E2. destruct E2 as [h' [H' Hk']].
        rewrite Hk in Hk'. inversion Hk'; subst h'.
        assert (key_eqb k0 k' = true) by (apply key_eqb_true; exists h; split; assumption).
        congruence.
      * exact IH.
Qed.

Lemma dict_get_merge (rs : list (json * json)) (d : pydict) (k : json) :
  dict_get k (merge d rs)
  = match last_write k rs with
    | Some v => Some v
    | None => dict_get k d
    end.
Proof.
  unfold merge. revert d. induction rs as [|[k' v] rs IH]; intros d; simpl.
  - reflexivity.
  - rewrite IH, dict_get_update.
    destruct (last_write k rs); [reflexivity|].
    destruct (key_eqb k' k); reflexivity.
Qed.

Lemma last_write_app (k : json) (l1 l2 : list (json * json)) :
  last_write k (l1 ++ l2)
  = match last_write k l2 with
    | Some v => Some v
    | None => last_write k l1
    end.
Proof.
  induction l1 as [|[k' v] l1 IH]; simpl.
  - destruct (last_write k l2); reflexivity.
  - rewrite IH. destruct (last_write k l2); reflexivity.
Qed.

Lemma last_write_none (k : json) (rs : list (json * json)) :
  Forall (fun kv => key_eqb (fst kv) k = false) rs -> last_write k rs = None.
Proof.
  intros H. induction H as [|[k' v] rs Hk _ IH]; simpl.
  - reflexivity.
  - simpl in Hk. rewrite IH, Hk. reflexivity.
Qed.

Lemma last_write_here (k v : json) (h : hkey) (l1 l2 : list (json * json)) :
  hash_key k = Some h ->
  (exists v', last_write k (l1 ++ (k, v) :: l2) = Some v')
  /\ (Forall (fun kv => key_eqb (fst kv) k = false) l2 ->
      last_write k (l1 ++ (k, v) :: l2) = Some v).
Proof.
  intros Hh. rewrite last_write_app. simpl.
  rewrite (key_eqb_refl k h Hh). split.
  - destruct (last_write k l2) as [v'|]; eexists; reflexivity.
  - intros Hl. rewrite (last_write_none k l2 Hl). reflexivity.
Qed.

Lemma merge_app (d : pydict) (l1 l2 : list (json * json)) :
  merge d (l1 ++ l2) = merge (merge d l1) l2.
Proof. unfold merge. apply fold_left_app. Qed.

(** ** Pages as sequences of readings *)

Lemma reading_hashable (h k v : json) :
  reading h = Done (k, v) -> exists hk, hash_key k = Some hk.
Proof.
  unfold reading. intros H.
  bind_inv H as k0 Hk. bind_inv H as ix Hix. bind_inv H as i0 Hi0. bind_inv H as a Haqi.
  unfold dict_item in H. destruct (hash_key k0) as [hk|] eqn:E; [|discriminate].
  inversion H; subst. exists hk. exact E.
Qed.

Lemma getitem_contains (b v : json) (k : string) :
  py_getitem b k = Done v -> py_contains k b = Done true.
Proof.
  destruct b as [| bb | n | s | items | fields]; simpl; try discriminate.
  destruct (field k fields); [reflexivity | discriminate].
Qed.

(** A complete hour is never skipped by the guard of the history loop. *)
Lemma reading_not_skipped (h : json) (kv : json * json) :
  reading h = Done kv -> history_hour_reading h = Done (Some kv).
Proof.
  intros H. unfold history_hour_reading.
  assert (Hc : py_contains "dateTime" h = Done true /\ py_contains "indexes" h = Done true).
  { unfold reading in H.
    bind_inv H as k0 Hk. bind_inv H as ix Hix.
    split; eapply getitem_contains; eassumption. }
  destruct Hc as [H1 H2]. rewrite H1. simpl. rewrite H2. simpl. rewrite H. reflexivity.
Qed.

Lemma history_hour_cases (h : json) (r : option (json * json)) :
  history_hour_reading h = Done r ->
  (r = None /\ skipped h) \/ (exists kv, r = Some kv /\ reading h = Done kv).
Proof.
  unfold history_hour_reading, skipped. intros H.
  destruct (py_contains "dateTime" h) as [[|]|e]; simpl in H; try discriminate.
  - destruct (py_contains "indexes" h) as [[|]|e]; simpl in H; try discriminate.
    + bind_inv H as kv Hkv. inversion H; subst. right. exists kv.
      split; [reflexivity | exact Hkv].
    + inversion H; subst. left. split; [reflexivity|]. right. split; reflexivity.
  - inversion H; subst. left. split; [reflexivity|]. left. reflexivity.
Qed.

Lemma for_each_collect (hourly : json -> pydict -> result pydict)
    (f : json -> result (option (json * json))) :
  (forall h d, hourly h d
               = (r <- f h ;;
                  Done (match r with Some kv => dict_update d kv | None => d end))) ->
  forall items d,
    for_each hourly items d = (rs <- collect f items ;; Done (merge d rs)).
Proof.
  intros Hh items. induction items as [|h items IH]; intros d; simpl.
  - reflexivity.
  - rewrite Hh. destruct (f h) as [[kv|]|e]; simpl; try reflexivity.
    + rewrite IH. destruct (collect f items); reflexivity.
    + rewrite IH. destruct (collect f items); reflexivity.
Qed.

Lemma history_page_merges (body : json) (d : pydict) :
  history_page body d = (rs <- history_readings body ;; Done (merge d rs)).
Proof.
  unfold history_page, history_readings.
  destruct (py_getitem body "hoursInfo") as [info|e]; simpl; [|reflexivity].
  destruct (py_iter info) as [items|e]; simpl; [|reflexivity].
  apply for_each_collect. intros h d0.
  unfold history_hour, history_hour_reading.
  destruct (py_contains "dateTime" h) as [[|]|e]; simpl; try reflexivity.
  destruct (py_contains "indexes" h) as [[|]|e]; simpl; try reflexivity.
  destruct (reading h); reflexivity.
Qed.

Lemma forecast_page_merges (body : json) (d : pydict) :
  forecast_page body d = (rs <- forecast_readings body ;; Done (merge d rs)).
Proof.
  unfold forecast_page, forecast_readings.
  destruct (py_getitem body "hourlyForecasts") as [info|e]; simpl; [|reflexivity].
  destruct (py_iter info) as [items|e]; simpl; [|reflexivity].
  apply for_each_collect. intros h d0.
  unfold forecast_hour, forecast_hour_reading.
  destruct (reading h); reflexivity.
Qed.

Lemma collect_in (f : json -> result (option (json * json))) (items : list json)
    (rs : list (json * json)) (h : json) (kv : json * json) :
  collect f items = Done rs -> In h items -> f h = Done (Some kv) -> In kv rs.
Proof.
  revert rs. induction items as [|a items IH]; simpl; intros rs H Hin Hf.
  - destruct Hin.
  - bind_inv H as r Hr. bind_inv H as rs' Hrs. inversion H; subst. clear H.
    destruct Hin as [E | Hin].
    + subst a. rewrite Hf in Hr. inversion Hr; subst. left; reflexivity.
    + specialize (IH _ Hrs Hin Hf). destruct r; [right|]; exact IH.
Qed.

Lemma collect_each (f : json -> result (option (json * json))) (items : list json)
    (rs : list (json * json)) :
  collect f items = Done rs -> Forall (fun h => exists r, f h = Done r) items.
Proof.
  revert rs. induction items as [|a items IH]; simpl; intros rs H.
  - constructor.
  - bind_inv H as r Hr. bind_inv H as rs' Hrs.
    constructor; [exists r; exact Hr | apply (IH _ Hrs)].
Qed.

Lemma collect_keys (f : json -> result (option (json * json))) (items : list json)
    (rs : list (json * json)) :
  (forall h kv, f h = Done (Some kv) -> reading h = Done kv) ->
  collect f items = Done rs ->
  Forall (fun kv => exists hk, hash_key (fst kv) = Some hk) rs.
Proof.
  intros Hf. revert rs. induction items as [|a items IH]; simpl; intros rs H.
  - inversion H; subst. constructor.
  - bind_inv H as r Hr. bind_inv H as rs' Hrs. inversion H; subst. clear H.
    specialize (IH _ Hrs). destruct r as [[k v]|]; [|exact IH].
    constructor; [|exact IH].
    simpl. apply (reading_hashable a k v). apply Hf. exact Hr.
Qed.

Lemma history_readings_ok (b : json) (rs : list (json * json)) :
  history_readings b = Done rs -> history_ok b.
Proof.
  unfold history_readings, history_ok. intros H.
  bind_inv H as info Hinfo. bind_inv H as items Hitems.
  exists info, items. split; [exact Hinfo|]. split; [exact Hitems|].
  eapply Forall_impl; [|apply (collect_each _ _ _ H)].
  intros h [r Hr]. destruct (history_hour_cases h r Hr) as [[_ Hs] | [kv [_ Hk]]].
  - left. exact Hs.
  - right. exists kv. exact Hk.
Qed.

Lemma forecast_readings_ok (b : json) (rs : list (json * json)) :
  forecast_readings b = Done rs -> forecast_ok b.
Proof.
  unfold forecast_readings, forecast_ok. intros H.
  bind_inv H as info Hinfo. bind_inv H as items Hitems.
  exists info, items. split; [exact Hinfo|]. split; [exact Hitems|].
  eapply Forall_impl; [|apply (collect_each _ _ _ H)].
  intros h [r Hr]. unfold forecast_hour_reading in Hr.
  bind_inv Hr as kv Hkv. exists kv. exact Hkv.
Qed.

Lemma history_readings_keys (b : json) (rs : list (json * json)) :
  history_readings b = Done rs ->
  Forall (fun kv => exists hk, hash_key (fst kv) = Some hk) rs.
Proof.
  unfold history_readings. intros H.
  bind_inv H as info Hinfo. bind_inv H as items Hitems.
  apply (collect_keys history_hour_reading items rs); [|exact H].
  intros h kv Hh. destruct (history_hour_cases h _ Hh) as [[E _] | [kv' [E Hk]]].
  - discriminate E.
  - inversion E; subst. exact Hk.
Qed.

Lemma forecast_readings_keys (b : json) (rs : list (json * json)) :
  forecast_readings b = Done rs ->
  Forall (fun kv => exists hk, hash_key (fst kv) = Some hk) rs.
Proof.
  unfold forecast_readings. intros H.
  bind_inv H as info Hinfo. bind_inv H as items Hitems.
  apply (collect_keys forecast_hour_reading items rs); [|exact H].
  intros h kv Hh. unfold forecast_hour_reading in Hh.
  bind_inv Hh as kv' Hkv. inversion Hh; subst. exact Hkv.
Qed.

Lemma history_hour_emitted (b h : json) (rs : list (json * json)) (kv : json * json) :
  history_readings b = Done rs -> hour_of "hoursInfo" b h -> reading h = Done kv ->
  In kv rs.
Proof.
  unfold history_readings. intros H [info [items [Hi [Hit Hin]]]] Hr.
  rewrite Hi in H. simpl in H. rewrite Hit in H. simpl in H.
  apply (collect_in _ _ _ h kv H Hin). apply reading_not_skipped. exact Hr.
Qed.

Lemma forecast_hour_emitted (b h : json) (rs : list (json * json)) (kv : json * json) :
  forecast_readings b = Done rs -> hour_of "hourlyForecasts" b h -> reading h = Done kv ->
  In kv rs.
Proof.
  unfold forecast_readings. intros H [info [items [Hi [Hit Hin]]]] Hr.
  rewrite Hi in H. simpl in H. rewrite Hit in H. simpl in H.
  apply (collect_in _ _ _ h kv H Hin). unfold forecast_hour_reading.
  rewrite Hr. reflexivity.
Qed.

(** ** The pagination loop *)

Lemma field_set_get {A : Type} (k : string) (v : A) (fields : list (string * A)) :
  field k (field_set k v fields) = Some v.
Proof.
  induction fields as [|[k' v'] fields IH]; simpl.
  - rewrite String.eqb_refl. reflexivity.
  - destruct (String.eqb k' k) eqn:E; simpl; rewrite E; [reflexivity | exact IH].
Qed.

Lemma payloads_head (data : list (string * json)) (tokens : list json) :
  nth_error (payloads data tokens) 0 = Some data.
Proof. destruct tokens; reflexivity. Qed.

Lemma payloads_length (data : list (string * json)) (tokens : list json) :
  List.length (payloads data tokens) = S (List.length tokens).
Proof.
  revert data. induction tokens as [|t tokens IH]; intros data; simpl.
  - reflexivity.
  - rewrite IH. reflexivity.
Qed.

Lemma paged_length (pages tokens : list json) :
  paged pages tokens -> List.length pages = S (List.length tokens).
Proof.
  intros [init [final [E [Ht _]]]]. subst.
  rewrite length_app. simpl. rewrite (Forall2_length Ht). lia.
Qed.

(** The call that follows a page carries the token that page returned. *)
Lemma payloads_carry_tokens (pages tokens : list json) :
  paged pages tokens ->
  forall data i b token,
    nth_error pages i = Some b ->
    py_getitem b "nextPageToken" = Done token ->
    exists p, nth_error (payloads data tokens) (S i) = Some p
              /\ field "pageToken" p = Some token.
Proof.
  intros [init [final [E [Ht Hlast]]]]. subst pages.
  induction Ht as [|b0 t0 init tokens Hb0 Ht IH]; intros data i b token Hn Hb.
  - destruct i as [|i]; simpl in Hn.
    + inversion Hn; subst. rewrite (getitem_contains _ _ _ Hb) in Hlast. discriminate.
    + destruct i; discriminate.
  - destruct i as [|i]; simpl in Hn.
    + inversion Hn; subst. rewrite Hb0 in Hb. inversion Hb; subst.
      exists (field_set "pageToken" token data). split.
      * simpl. apply payloads_head.
      * apply field_set_get.
    + simpl. apply (IH (field_set "pageToken" t0 data) i b token Hn Hb).
Qed.

Section Pagination.
Variable page : json -> pydict -> result pydict.
Variable readings : json -> result (list (json * json)).
Hypothesis page_merges :
  forall b d, page b d = (rs <- readings b ;; Done (merge d rs)).

Lemma turn_more (b token : json) (rs : list (json * json))
    (data : list (string * json)) (d : pydict) :
  py_getitem b "nextPageToken" = Done token ->
  readings b = Done rs ->
  turn page (Some b) data d
  = Done (merge d rs, Some (field_set "pageToken" token data)).
Proof.
  intros Ht Hr. unfold turn. simpl. rewrite page_merges, Hr. simpl.
  rewrite (getitem_contains _ _ _ Ht). simpl. rewrite Ht. reflexivity.
Qed.

Lemma turn_last (b : json) (rs : list (json * json))
    (data : list (string * json)) (d : pydict) :
  py_contains "nextPageToken" b = Done false ->
  readings b = Done rs ->
  turn page (Some b) data d = Done (merge d rs, None).
Proof.
  intros Hc Hr. unfold turn. simpl. rewrite page_merges, Hr. simpl.
  rewrite Hc. reflexivity.
Qed.

Lemma turn_inv (text : option json) (data : list (string * json)) (d d' : pydict)
    (next : option (list (string * json))) :
  turn page text data d = Done (d', next) ->
  exists b rs,
    text = Some b /\ readings b = Done rs /\ d' = merge d rs
    /\ ((next = None /\ py_contains "nextPageToken" b = Done false)
        \/ (exists token, next = Some (field_set "pageToken" token data)
                          /\ py_getitem b "nextPageToken" = Done token)).
Proof.
  unfold turn. intros H.
  bind_inv H as b Hb. destruct text as [b'|]; simpl in Hb; [|discriminate].
  inversion Hb; subst b'. clear Hb.
  bind_inv H as d1 Hd. rewrite page_merges in Hd.
  bind_inv Hd as rs Hrs. inversion Hd; subst d1. clear Hd.
  bind_inv H as more Hm. exists b, rs.
  destruct more.
  - bind_inv H as token Ht. inversion H; subst.
    repeat split; try assumption. right. exists token. split; [reflexivity | exact Ht].
  - inversion H; subst.
    repeat split; try assumption. left. split; [reflexivity | exact Hm].
Qed.

(** Over a sequence of pages of which only the last lacks a token, the
    loop consumes exactly those pages. *)
Lemma paginate_pages (u : string) (pages tokens : list json)
    (rss : list (list (json * json))) :
  paged pages tokens ->
  emits readings pages rss ->
  forall data d rest sent0,
    paginate page u data d (map ok pages ++ rest) sent0
    = Some (Done (merge d (List.concat rss),
                  {| pending := rest;
                     sent := sent0 ++ map (call u) (payloads data tokens) |})).
Proof.
  intros [init [final [E [Ht Hlast]]]]. subst pages. revert rss.
  induction Ht as [|b0 t0 init tokens Hb0 Ht IH]; intros rss He data d rest sent0.
  - simpl in He. inversion He as [|b rs l l' Hr Hnil]; subst.
    inversion Hnil; subst. simpl.
    rewrite (turn_last final rs data d Hlast Hr).
    rewrite app_nil_r. reflexivity.
  - simpl in He. inversion He as [|b rs l l' Hr Hrest]; subst. simpl.
    rewrite (turn_more b0 t0 rs data d Hb0 Hr).
    rewrite (IH l' Hrest). rewrite merge_app.
    rewrite <- app_assoc. reflexivity.
Qed.

(** Conversely, a loop that returns has consumed such a sequence. *)
Lemma paginate_inv (u : string) (pend : list reply) :
  forall data d sent0 d' w',
    paginate page u data d pend sent0 = Some (Done (d', w')) ->
    exists pages tokens rss,
      pend = map ok pages ++ pending w'
      /\ paged pages tokens
      /\ emits readings pages rss
      /\ d' = merge d (List.concat rss)
      /\ sent w' = sent0 ++ map (call u) (payloads data tokens).
Proof.
  induction pend as [|r pend IH]; intros data d sent0 d' w' H; simpl in H.
  - discriminate.
  - destruct r as [|text]; simpl in H; [discriminate|].
    destruct (turn page text data d) as [[d1 next]|e] eqn:Hturn; [|discriminate].
    destruct (turn_inv _ _ _ _ _ Hturn) as [b [rs [Etext [Hr [Ed1 Hnext]]]]].
    subst text d1.
    destruct Hnext as [[En Hc] | [token [En Ht]]]; subst next.
    + inversion H; subst. clear H.
      exists [b], [], [rs]. simpl.
      repeat split.
      * exists [], b. repeat split; [constructor | exact Hc].
      * constructor; [exact Hr | constructor].
      * rewrite app_nil_r. reflexivity.
    + destruct (IH _ _ _ _ _ H)
        as [pages [tokens [rss [Ep [[init [final [Ei [Hts Hl]]]] [He [Ed Es]]]]]]].
      exists (b :: pages), (token :: tokens), (rs :: rss). simpl.
      repeat split.
      * rewrite Ep. reflexivity.
      * exists (b :: init), final. subst pages.
        repeat split; [constructor; assumption | exact Hl].
      * constructor; assumption.
      * rewrite Ed. rewrite merge_app. reflexivity.
      * rewrite Es. rewrite <- app_assoc. reflexivity.
Qed.
End Pagination.

Lemma loop_page_merges (l : loop) (b : json) (d : pydict) :
  loop_page l b d = (rs <- loop_readings l b ;; Done (merge d rs)).
Proof. destruct l; [apply forecast_page_merges | apply history_page_merges]. Qed.

Lemma loop_readings_keys (l : loop) (b : json) (rs : list (json * json)) :
  loop_readings l b = Done rs ->
  Forall (fun kv => exists hk, hash_key (fst kv) = Some hk) rs.
Proof. destruct l; [apply forecast_readings_keys | apply history_readings_keys]. Qed.

Lemma emits_keys (l : loop) (pages : list json) (rss : list (list (json * json))) :
  emits (loop_readings l) pages rss ->
  Forall (fun kv => exists hk, hash_key (fst kv) = Some hk) (List.concat rss).
Proof.
  intros H. induction H as [|b rs pages rss Hr _ IH]; simpl.
  - constructor.
  - apply Forall_app. split; [apply (loop_readings_keys l b rs Hr) | exact IH].
Qed.

(** A reading written into the dict is found under its key, with its own
    value unless a later reading was written under the same key. *)
Lemma merge_keeps (d : pydict) (l1 l2 : list (json * json)) (k v : json) :
  Forall (fun kv => exists hk, hash_key (fst kv) = Some hk) (l1 ++ (k, v) :: l2) ->
  (exists v', dict_get k (merge d (l1 ++ (k, v) :: l2)) = Some v')
  /\ (Forall (fun kv => key_eqb (fst kv) k = false) l2 ->
      dict_get k (merge d (l1 ++ (k, v) :: l2)) = Some v).
Proof.
  intros Hk. rewrite Forall_app in Hk. destruct Hk as [_ Hk].
  inversion Hk as [|kv l [hk Hh] _]; subst. simpl in Hh.
  rewrite dict_get_merge.
  destruct (last_write_here k v hk l1 l2 Hh) as [[v' Hv'] Hlast]. split.
  - exists v'. rewrite Hv'. reflexivity.
  - intros Hl. rewrite (Hlast Hl). reflexivity.
Qed.

(** C7.  For each of the two pagination loops: given a sequence of pages of
    which every one but the last carries a continuation token, the loop
    returns after the last page, leaving the replies that follow untouched;
    it has issued exactly one call per page; the call that follows a page
    carries the token that page returned; and the merged dict is the dict
    updated with the readings of all pages in order, so that every reading
    emitted is found under its timestamp, with its own value unless a
    later reading of the sequence was written under the same timestamp. *)
Theorem pagination_follows_tokens :
  forall (l : loop) (s : site) (pages tokens : list json)
         (rss : list (list (json * json)))
         (d : pydict) (rest : list reply) (sent0 : list request),
    paged pages tokens ->
    emits (loop_readings l) pages rss ->
    let calls := map (call (lookup_url s (loop_time l))) (payloads (loop_data l s) tokens) in
    let d' := merge d (List.concat rss) in
    run_loop l s d (map ok pages ++ rest) sent0
    = Some (Done (d', {| pending := rest; sent := sent0 ++ calls |}))
    /\ List.length calls = List.length pages
    /\ (forall i b token,
           nth_error pages i = Some b ->
           py_getitem b "nextPageToken" = Done token ->
           exists r, nth_error calls (S i) = Some r
                     /\ field "pageToken" (data r) = Some token)
    /\ (forall l1 k v l2,
           List.concat rss = l1 ++ (k, v) :: l2 ->
           (exists v', dict_get k d' = Some v')
           /\ (Forall (fun kv => key_eqb (fst kv) k = false) l2 ->
               dict_get k d' = Some v)).
Proof.
  intros l s pages tokens rss d rest sent0 Hp He calls d'.
  split; [|split; [|split]].
  - unfold run_loop.
    apply (paginate_pages (loop_page l) (loop_readings l) (loop_page_merges l)
             _ pages tokens rss Hp He).
  - unfold calls. rewrite length_map, payloads_length.
    symmetry. apply paged_length. exact Hp.
  - intros i b token Hn Hb.
    destruct (payloads_carry_tokens pages tokens Hp (loop_data l s) i b token Hn Hb)
      as [p [Hnp Hf]].
    exists (call (lookup_url s (loop_time l)) p). split.
    + unfold calls. apply map_nth_error. exact Hnp.
    + exact Hf.
  - intros l1 k v l2 E. unfold d'. rewrite E.
    apply merge_keeps. rewrite <- E. apply (emits_keys l pages rss He).
Qed.

Lemma pagination_follows_tokens_witness :
  run_loop HistoryLoop springfield [] (map ok history_three_pages ++ [ConnectionFailed]) []
  = Some (Done ([(JStr t10, JNum 40); (JStr t11, JNum 45); (JStr t12, JNum 48)],
                {| pending := [ConnectionFailed];
                   sent := map (call (lookup_url springfield "history"))
                             (payloads (history_data springfield) [JStr "p2"; JStr "p3"]) |})).
Proof.
  refine (proj1 (pagination_follows_tokens HistoryLoop springfield history_three_pages
                   [JStr "p2"; JStr "p3"]
                   [[(JStr t10, JNum 40)]; [(JStr t11, JNum 45)]; [(JStr t12, JNum 48)]]
                   [] [ConnectionFailed] [] _ _)).
  - exists [with_token "p2" (history_body [hour t10 40]);
            with_token "p3" (history_body [hour t11 45])],
           (history_body [hour t12 48]).
    split; [reflexivity|]. split; [|reflexivity].
    constructor; [reflexivity|]. constructor; [reflexivity|]. constructor.
  - constructor; [reflexivity|]. constructor; [reflexivity|].
    constructor; [reflexivity|]. constructor.
Defined.

Example three_pages_three_calls :
  exists d w,
    run_loop HistoryLoop springfield [] (map ok history_three_pages) [] = Some (Done (d, w))
    /\ List.length (sent w) = 3%nat
    /\ map (fun r => field "pageToken" (data r)) (sent w)
       = [None; Some (JStr "p2"); Some (JStr "p3")].
Proof. do 2 eexists. split; [reflexivity|]. split; reflexivity. Qed.

(** ** The three lookups *)

Lemma current_call_inv (u : string) (data : list (string * json)) (d d' : pydict)
    (w w' : net) :
  current_call u data d w = Some (Done (d', w')) ->
  exists cb crd,
    pending w = ok cb :: pending w'
    /\ reading cb = Done crd
    /\ d' = dict_update d crd
    /\ sent w' = sent w ++ [call u data].
Proof.
  unfold current_call. destruct (pending w) as [|r pend] eqn:Ep; [discriminate|].
  intros H. inversion H as [H']. clear H.
  bind_inv H' as text Ht. destruct r as [|text']; simpl in Ht; [discriminate|].
  inversion Ht; subst text'. clear Ht.
  bind_inv H' as body Hb. destruct text as [cb|]; simpl in Hb; [|discriminate].
  inversion Hb; subst body. clear Hb.
  bind_inv H' as crd Hr. inversion H'; subst. clear H'.
  exists cb, crd. simpl. repeat split. exact Hr.
Qed.

(** The history and forecast cases of [lookup] are the two loops. *)
Lemma lookup_runs_loop (l : loop) (s : site) (d : pydict) (w : net) :
  lookup s (loop_time l) d w = run_loop l s d (pending w) (sent w).
Proof. destruct l; reflexivity. Qed.

(** The loop over [lookup_order], unfolded: the forecast loop, then the
    current call, then the history loop. *)
Lemma aggregate_unfold (s : site) (replies : list reply) :
  aggregate s replies
  = match run_loop ForecastLoop s [] replies [] with
    | None => None
    | Some (Raised e) => Some (Raised e)
    | Some (Done (d1, w1)) =>
        match current_call (lookup_url s "currentConditions") (current_data s) d1 w1 with
        | None => None
        | Some (Raised e) => Some (Raised e)
        | Some (Done (d2, w2)) =>
            match run_loop HistoryLoop s d2 (pending w2) (sent w2) with
            | None => None
            | Some (Raised e) => Some (Raised e)
            | Some (Done (d3, w3)) => Some (Done (d3, w3))
            end
        end
    end.
Proof. reflexivity. Qed.

(** What a completed aggregation has consumed and produced. *)
Lemma aggregate_inv (s : site) (replies : list reply) (d : pydict) (w : net) :
  aggregate s replies = Some (Done (d, w)) ->
  exists fp ft frss cb crd hp ht hrss,
    replies = map ok fp ++ ok cb :: map ok hp ++ pending w
    /\ paged fp ft
    /\ emits forecast_readings fp frss
    /\ reading cb = Done crd
    /\ paged hp ht
    /\ emits history_readings hp hrss
    /\ d = merge [] (List.concat frss ++ crd :: List.concat hrss)
    /\ sent w
       = map (call (lookup_url s "forecast")) (payloads (forecast_data s) ft)
         ++ call (lookup_url s "currentConditions") (current_data s)
         :: map (call (lookup_url s "history")) (payloads (history_data s) ht).
Proof.
  rewrite aggregate_unfold. intros H.
  destruct (run_loop ForecastLoop s [] replies []) as [[[d1 w1]|e]|] eqn:Hf;
    try discriminate.
  destruct (current_call (lookup_url s "currentConditions") (current_data s) d1 w1)
    as [[[d2 w2]|e]|] eqn:Hc; try discriminate.
  destruct (run_loop HistoryLoop s d2 (pending w2) (sent w2)) as [[[d3 w3]|e]|] eqn:Hh;
    try discriminate.
  inversion H; subst d3 w3. clear H.
  unfold run_loop in Hf, Hh.
  destruct (paginate_inv _ _ (loop_page_merges ForecastLoop) _ _ _ _ _ _ _ Hf)
    as [fp [ft [frss [Ef [Hfp [Hfe [Ed1 Es1]]]]]]].
  destruct (current_call_inv _ _ _ _ _ _ Hc) as [cb [crd [Ec [Hr [Ed2 Es2]]]]].
  destruct (paginate_inv _ _ (loop_page_merges HistoryLoop) _ _ _ _ _ _ _ Hh)
    as [hp [ht [hrss [Eh [Hhp [Hhe [Ed3 Es3]]]]]]].
  exists fp, ft, frss, cb, crd, hp, ht, hrss.
  repeat split; try assumption.
  - rewrite Ef, Ec, Eh. reflexivity.
  - rewrite Ed3, Ed2, Ed1. rewrite merge_app. simpl. reflexivity.
  - rewrite Es3, Es2, Es1. simpl. rewrite <- app_assoc. reflexivity.
Qed.

Lemma paged_nonempty (pages tokens : list json) : paged pages tokens -> pages <> [].
Proof.
  intros [init [final [E _]]] Hn. subst.
  destruct init; discriminate.
Qed.

Lemma urls_of_calls (u : string) (ps : list (list (string * json))) :
  map url (map (call u) ps) = repeat u (List.length ps).
Proof.
  induction ps as [|p ps IH]; simpl; [reflexivity | rewrite IH; reflexivity].
Qed.

(** C1 as stated fails: the first call goes to the forecast endpoint and
    the last to the history endpoint; and where the current hour is also
    an hour of the history, the history's value (48) is the one kept, not
    the value of the current call (50), which the stated order would make
    the later one. *)
Lemma lookup_order_is_not_history_first :
  exists d w,
    aggregate springfield replies_collide = Some (Done (d, w))
    /\ map url (sent w)
       = [lookup_url springfield "forecast";
          lookup_url springfield "currentConditions";
          lookup_url springfield "history"]
    /\ map url (sent w)
       <> [lookup_url springfield "history";
           lookup_url springfield "currentConditions";
           lookup_url springfield "forecast"]
    /\ dict_get (JStr t12) d = Some (JNum 48)
    /\ dict_get (JStr t12) d <> Some (JNum 50).
Proof.
  do 2 eexists. split; [reflexivity|].
  split; [reflexivity|]. split; [discriminate|].
  split; [reflexivity | discriminate].
Qed.

(** C1, amended.  Every completed aggregation has issued its calls in the
    fixed order forecast, then current, then history: at least one call to
    the forecast endpoint, one to the current endpoint, at least one to the
    history endpoint, and no other.  The series is the empty dict updated
    with the readings in that order, so when two calls produce a reading
    under the same timestamp the later call in that order overwrites the
    earlier: a history value prevails over the current value, which
    prevails over a forecast value. *)
Theorem lookups_forecast_current_history :
  forall (s : site) (replies : list reply) (d : pydict) (w : net),
    aggregate s replies = Some (Done (d, w)) ->
    exists fp frss cb crd hp hrss,
      replies = map ok fp ++ ok cb :: map ok hp ++ pending w
      /\ fp <> [] /\ hp <> []
      /\ map url (sent w)
         = repeat (lookup_url s "forecast") (List.length fp)
           ++ lookup_url s "currentConditions"
           :: repeat (lookup_url s "history") (List.length hp)
      /\ emits forecast_readings fp frss
      /\ reading cb = Done crd
      /\ emits history_readings hp hrss
      /\ d = merge [] (List.concat frss ++ crd :: List.concat hrss)
      /\ forall k,
           dict_get k d
           = match last_write k (List.concat hrss) with
             | Some v => Some v
             | None =>
                 match last_write k [crd] with
                 | Some v => Some v
                 | None => last_write k (List.concat frss)
                 end
             end.
Proof.
  intros s replies d w H.
  destruct (aggregate_inv s replies d w H)
    as [fp [ft [frss [cb [crd [hp [ht [hrss [E [Hfp [Hfe [Hr [Hhp [Hhe [Ed Es]]]]]]]]]]]]]]].
  exists fp, frss, cb, crd, hp, hrss.
  split; [exact E|].
  split; [apply (paged_nonempty fp ft Hfp)|].
  split; [apply (paged_nonempty hp ht Hhp)|].
  split.
  { rewrite Es. rewrite map_app. simpl. rewrite !urls_of_calls.
    rewrite !payloads_length.
    rewrite (paged_length fp ft Hfp), (paged_length hp ht Hhp). reflexivity. }
  split; [exact Hfe|]. split; [exact Hr|]. split; [exact Hhe|].
  split; [exact Ed|].
  intros k. rewrite Ed. rewrite dict_get_merge. simpl dict_get.
  rewrite last_write_app.
  change (crd :: List.concat hrss) with ([crd] ++ List.concat hrss).
  rewrite last_write_app.
  destruct (last_write k (List.concat hrss)); [reflexivity|].
  destruct (last_write k [crd]); [reflexivity|].
  destruct (last_write k (List.concat frss)); reflexivity.
Qed.

Lemma lookups_forecast_current_history_witness :
  exists fp frss cb crd hp hrss,
    replies_collide = map ok fp ++ ok cb :: map ok hp ++ []
    /\ fp <> [] /\ hp <> []
    /\ [lookup_url springfield "forecast";
        lookup_url springfield "currentConditions";
        lookup_url springfield "history"]
       = repeat (lookup_url springfield "forecast") (List.length fp)
         ++ lookup_url springfield "currentConditions"
         :: repeat (lookup_url springfield "history") (List.length hp)
    /\ emits forecast_readings fp frss
    /\ reading cb = Done crd
    /\ emits history_readings hp hrss
    /\ [(JStr t13, JNum 60); (JStr t12, JNum 48); (JStr t11, JNum 45)]
       = merge [] (List.concat frss ++ crd :: List.concat hrss)
    /\ forall k,
         dict_get k [(JStr t13, JNum 60); (JStr t12, JNum 48); (JStr t11, JNum 45)]
         = match last_write k (List.concat hrss) with
           | Some v => Some v
           | None =>
               match last_write k [crd] with
               | Some v => Some v
               | None => last_write k (List.concat frss)
               end
           end.
Proof.
  apply (lookups_forecast_current_history springfield replies_collide
           [(JStr t13, JNum 60); (JStr t12, JNum 48); (JStr t11, JNum 45)]
           {| pending := [];
              sent := [call (lookup_url springfield "forecast") (forecast_data springfield);
                       call (lookup_url springfield "currentConditions")
                         (current_data springfield);
                       call (lookup_url springfield "history") (history_data springfield)] |}).
  reflexivity.
Defined.


(** ** Failure of a lookup *)

Lemma Forall2_in_l {A B : Type} (R : A -> B -> Prop) (l : list A) (l' : list B) (a : A) :
  Forall2 R l l' -> In a l -> exists b, In b l' /\ R a b.
Proof.
  intros H. induction H as [|x y l l' Hxy _ IH]; intros Hin.
  - destruct Hin.
  - destruct Hin as [E | Hin].
    + subst. exists y. split; [left; reflexivity | exact Hxy].
    + destruct (IH Hin) as [b [Hb HR]]. exists b. split; [right; exact Hb | exact HR].
Qed.

Lemma Forall2_in_r {A B : Type} (R : A -> B -> Prop) (l : list A) (l' : list B) (b : B) :
  Forall2 R l l' -> In b l' -> exists a, In a l /\ R a b.
Proof.
  intros H. induction H as [|x y l l' Hxy _ IH]; intros Hin.
  - destruct Hin.
  - destruct Hin as [E | Hin].
    + subst. exists x. split; [left; reflexivity | exact Hxy].
    + destruct (IH Hin) as [a [Ha HR]]. exists a. split; [right; exact Ha | exact HR].
Qed.

Lemma emits_ok (readings : json -> result (list (json * json))) (good : json -> Prop)
    (pages : list json) (rss : list (list (json * json))) :
  (forall b rs, readings b = Done rs -> good b) ->
  emits readings pages rss -> Forall good pages.
Proof.
  intros Hg H. induction H as [|b rs pages rss Hr _ IH]; constructor.
  - apply (Hg b rs Hr).
  - exact IH.
Qed.

Lemma merge_has_key (d : pydict) (rs : list (json * json)) (k v : json) :
  Forall (fun kv => exists hk, hash_key (fst kv) = Some hk) rs ->
  In (k, v) rs -> exists v', dict_get k (merge d rs) = Some v'.
Proof.
  intros Hk Hin. destruct (in_split _ _ Hin) as [l1 [l2 E]]. subst rs.
  apply (proj1 (merge_keeps d l1 l2 k v Hk)).
Qed.

(** A page of the expected shape is read without raising. *)
Lemma collect_total (f : json -> result (option (json * json))) (items : list json) :
  Forall (fun h => exists r, f h = Done r) items ->
  exists rs, collect f items = Done rs.
Proof.
  intros H. induction H as [|h items [r Hr] _ [rs IH]]; simpl.
  - exists []. reflexivity.
  - rewrite Hr, IH. simpl. eexists. reflexivity.
Qed.

Lemma forecast_ok_readings (b : json) :
  forecast_ok b -> exists rs, forecast_readings b = Done rs.
Proof.
  intros [info [items [Hi [Hit Hall]]]]. unfold forecast_readings.
  rewrite Hi. simpl. rewrite Hit. simpl.
  apply collect_total. eapply Forall_impl; [|exact Hall].
  intros h [kv Hkv]. exists (Some kv). unfold forecast_hour_reading.
  rewrite Hkv. reflexivity.
Qed.

Lemma skipped_reading (h : json) : skipped h -> history_hour_reading h = Done None.
Proof.
  unfold history_hour_reading. intros [H | [H1 H2]].
  - rewrite H. reflexivity.
  - rewrite H1. simpl. rewrite H2. reflexivity.
Qed.

Lemma history_ok_readings (b : json) :
  history_ok b -> exists rs, history_readings b = Done rs.
Proof.
  intros [info [items [Hi [Hit Hall]]]]. unfold history_readings.
  rewrite Hi. simpl. rewrite Hit. simpl.
  apply collect_total. eapply Forall_impl; [|exact Hall].
  intros h [Hs | [kv Hkv]].
  - exists None. apply skipped_reading. exact Hs.
  - exists (Some kv). apply reading_not_skipped. exact Hkv.
Qed.

Lemma ok_emits (readings : json -> result (list (json * json))) (good : json -> Prop)
    (pages : list json) :
  (forall b, good b -> exists rs, readings b = Done rs) ->
  Forall good pages -> exists rss, emits readings pages rss.
Proof.
  intros Hg H. induction H as [|b pages Hb _ [rss IH]].
  - exists []. constructor.
  - destruct (Hg b Hb) as [rs Hrs]. exists (rs :: rss). constructor; assumption.
Qed.

(** Every reading of a page comes from one of its hours. *)
Lemma collect_from (f : json -> result (option (json * json))) (items : list json)
    (rs : list (json * json)) (kv : json * json) :
  collect f items = Done rs -> In kv rs ->
  exists h, In h items /\ f h = Done (Some kv).
Proof.
  revert rs. induction items as [|a items IH]; simpl; intros rs H Hin.
  - inversion H; subst. destruct Hin.
  - bind_inv H as r Hr. bind_inv H as rs' Hrs. inversion H; subst. clear H.
    destruct r as [kv'|].
    + destruct Hin as [E | Hin].
      * subst kv'. exists a. split; [left; reflexivity | exact Hr].
      * destruct (IH _ Hrs Hin) as [h [Hh Hf]]. exists h. split; [right; exact Hh | exact Hf].
    + destruct (IH _ Hrs Hin) as [h [Hh Hf]]. exists h. split; [right; exact Hh | exact Hf].
Qed.

Lemma forecast_reading_from (b : json) (rs : list (json * json)) (kv : json * json) :
  forecast_readings b = Done rs -> In kv rs ->
  exists h, hour_of "hourlyForecasts" b h /\ reading h = Done kv.
Proof.
  unfold forecast_readings. intros H Hin.
  bind_inv H as info Hinfo. bind_inv H as items Hitems.
  destruct (collect_from _ _ _ _ H Hin) as [h [Hh Hf]].
  exists h. split; [exists info, items; repeat split; assumption|].
  unfold forecast_hour_reading in Hf. bind_inv Hf as kv' Hkv. inversion Hf; subst.
  exact Hkv.
Qed.

Lemma history_reading_from (b : json) (rs : list (json * json)) (kv : json * json) :
  history_readings b = Done rs -> In kv rs ->
  exists h, hour_of "hoursInfo" b h /\ reading h = Done kv.
Proof.
  unfold history_readings. intros H Hin.
  bind_inv H as info Hinfo. bind_inv H as items Hitems.
  destruct (collect_from _ _ _ _ H Hin) as [h [Hh Hf]].
  exists h. split; [exists info, items; repeat split; assumption|].
  destruct (history_hour_cases h _ Hf) as [[E _] | [kv' [E Hk]]].
  - discriminate E.
  - inversion E; subst. exact Hk.
Qed.

Lemma emitted_from (readings : json -> result (list (json * json)))
    (pages : list json) (rss : list (list (json * json))) (kv : json * json) :
  emits readings pages rss -> In kv (List.concat rss) ->
  exists b rs, In b pages /\ readings b = Done rs /\ In kv rs.
Proof.
  intros He Hin. apply in_concat in Hin. destruct Hin as [rs [Hrs Hkv]].
  destruct (Forall2_in_r _ _ _ rs He Hrs) as [b [Hb Hr]].
  exists b, rs. repeat split; assumption.
Qed.

Lemma last_write_in (k v : json) (rs : list (json * json)) :
  last_write k rs = Some v -> exists k', In (k', v) rs /\ key_eqb k' k = true.
Proof.
  induction rs as [|[k0 v0] rs IH]; simpl; intros H.
  - discriminate.
  - destruct (last_write k rs) as [v'|].
    + inversion H; subst v'. destruct (IH eq_refl) as [k' [Hin Hk]].
      exists k'. split; [right; exact Hin | exact Hk].
    + destruct (key_eqb k0 k) eqn:E; [|discriminate].
      inversion H; subst v0. exists k0. split; [left; reflexivity | exact E].
Qed.

(** The loop up to a page that fails. *)
Section Failure.
Variable page : json -> pydict -> result pydict.
Variable readings : json -> result (list (json * json)).
Variable good : json -> Prop.
Hypothesis page_merges :
  forall b d, page b d = (rs <- readings b ;; Done (merge d rs)).
Hypothesis readings_good : forall b rs, readings b = Done rs -> good b.

Lemma paginate_continuing (u : string) (pages tokens : list json)
    (rss : list (list (json * json))) :
  continuing pages tokens ->
  emits readings pages rss ->
  forall data d rest sent0,
    exists data' sent',
      paginate page u data d (map ok pages ++ rest) sent0
      = paginate page u data' (merge d (List.concat rss)) rest sent'.
Proof.
  intros Ht. revert rss.
  induction Ht as [|b t pages tokens Hb Ht IH]; intros rss He data d rest sent0.
  - inversion He; subst. exists data, sent0. reflexivity.
  - inversion He as [|b' rs l1 l2 Hr He']; subst. simpl.
    rewrite (turn_more page readings page_merges b t rs data d Hb Hr).
    destruct (IH l2 He' (field_set "pageToken" t data) (merge d rs) rest
                (sent0 ++ [{| url := u; data := data |}])) as [data' [sent' E]].
    exists data', sent'. rewrite E. rewrite merge_app. reflexivity.
Qed.

Lemma paginate_fails (u : string) (r : reply) (rest : list reply)
    (data : list (string * json)) (d : pydict) (sent0 : list request) :
  r = ConnectionFailed \/ r = Response None \/ (exists b, r = ok b /\ ~ good b) ->
  exists e,
    paginate page u data d (r :: rest) sent0 = Some (Raised e)
    /\ (r = ConnectionFailed -> e = ConnectionError)
    /\ (r = Response None -> e = JSONDecodeError).
Proof.
  intros Hf. destruct r as [|[b|]]; simpl.
  - exists ConnectionError. repeat split. intros H; discriminate H.
  - destruct (turn page (Some b) data d) as [[d' next]|e] eqn:Hturn.
    + exfalso.
      destruct (turn_inv page readings page_merges _ _ _ _ _ Hturn)
        as [b' [rs [Eb [Hr _]]]].
      inversion Eb; subst b'.
      destruct Hf as [Hf | [Hf | [b0 [Hf Hbad]]]]; try discriminate Hf.
      inversion Hf; subst b0. apply Hbad. apply (readings_good b rs Hr).
    + exists e. repeat split; intros H; discriminate H.
  - exists JSONDecodeError. repeat split. intros H; discriminate H.
Qed.
End Failure.

Lemma current_call_fails (u : string) (data : list (string * json)) (d : pydict)
    (r : reply) (rest : list reply) (sent0 : list request) :
  failed AtCurrent r ->
  exists e,
    current_call u data d {| pending := r :: rest; sent := sent0 |} = Some (Raised e)
    /\ (r = ConnectionFailed -> e = ConnectionError)
    /\ (r = Response None -> e = JSONDecodeError).
Proof.
  intros Hf. unfold current_call. simpl. destruct r as [|[b|]]; simpl.
  - exists ConnectionError. repeat split. intros H; discriminate H.
  - destruct (reading b) as [kv|e] eqn:Hr; simpl.
    + exfalso. destruct Hf as [Hf | [Hf | [b0 [Hf Hbad]]]]; try discriminate Hf.
      inversion Hf; subst b0. apply Hbad. exists kv. exact Hr.
    + exists e. repeat split; intros H; discriminate H.
  - exists JSONDecodeError. repeat split. intros H; discriminate H.
Qed.

(** A run over replies that are all of the expected shape. *)
Lemma aggregate_completes (s : site) (fp ft : list json)
    (frss : list (list (json * json))) (cb : json) (crd : json * json)
    (hp ht : list json) (hrss : list (list (json * json))) (rest : list reply) :
  paged fp ft -> emits forecast_readings fp frss ->
  reading cb = Done crd ->
  paged hp ht -> emits history_readings hp hrss ->
  aggregate s (map ok fp ++ ok cb :: map ok hp ++ rest)
  = Some (Done (merge [] (List.concat frss ++ crd :: List.concat hrss),
                {| pending := rest;
                   sent := map (call (lookup_url s "forecast")) (payloads (forecast_data s) ft)
                           ++ call (lookup_url s "currentConditions") (current_data s)
                           :: map (call (lookup_url s "history"))
                                (payloads (history_data s) ht) |})).
Proof.
  intros Hfp Hfe Hr Hhp Hhe. rewrite aggregate_unfold. unfold run_loop.
  rewrite (paginate_pages (loop_page ForecastLoop) (loop_readings ForecastLoop)
             (loop_page_merges ForecastLoop) _ fp ft frss Hfp Hfe).
  unfold current_call. simpl pending. simpl sent. cbn [deliver ok bind response_json].
  rewrite Hr. cbn [bind pending sent].
  rewrite (paginate_pages (loop_page HistoryLoop) (loop_readings HistoryLoop)
             (loop_page_merges HistoryLoop) _ hp ht hrss Hhp Hhe).
  rewrite merge_app. simpl. rewrite <- app_assoc. reflexivity.
Qed.

(** A failed lookup ends the run with an exception, at whichever stage. *)
Lemma aggregate_fails (s : site) (consumed : list reply) (st : stage)
    (r : reply) (rest : list reply) :
  reached consumed st -> failed st r ->
  exists e,
    aggregate s (consumed ++ r :: rest) = Some (Raised e)
    /\ (r = ConnectionFailed -> e = ConnectionError)
    /\ (r = Response None -> e = JSONDecodeError).
Proof.
  intros Hreach Hfail. rewrite aggregate_unfold. unfold run_loop.
  destruct st; simpl in Hreach.
  - destruct Hreach as [fp [ft [E [Hc Hok]]]]. subst consumed.
    destruct (ok_emits forecast_readings forecast_ok fp forecast_ok_readings Hok)
      as [frss Hfe].
    destruct (paginate_continuing (loop_page ForecastLoop) (loop_readings ForecastLoop)
                (loop_page_merges ForecastLoop) (lookup_url s (loop_time ForecastLoop))
                fp ft frss Hc Hfe (loop_data ForecastLoop s) [] (r :: rest) [])
      as [data' [sent' Ep]].
    rewrite Ep.
    destruct (paginate_fails (loop_page ForecastLoop) (loop_readings ForecastLoop)
                forecast_ok (loop_page_merges ForecastLoop) forecast_readings_ok
                (lookup_url s (loop_time ForecastLoop)) r rest data'
                (merge [] (List.concat frss)) sent' Hfail)
      as [e [He Hwhich]].
    exists e. rewrite He. split; [reflexivity | exact Hwhich].
  - destruct Hreach as [fp [ft [E [Hp Hok]]]]. subst consumed.
    destruct (ok_emits forecast_readings forecast_ok fp forecast_ok_readings Hok)
      as [frss Hfe].
    rewrite (paginate_pages (loop_page ForecastLoop) (loop_readings ForecastLoop)
               (loop_page_merges ForecastLoop) _ fp ft frss Hp Hfe).
    destruct (current_call_fails (lookup_url s "currentConditions") (current_data s)
                (merge [] (List.concat frss)) r rest
                ([] ++ map (call (lookup_url s (loop_time ForecastLoop)))
                          (payloads (loop_data ForecastLoop s) ft)) Hfail)
      as [e [He Hwhich]].
    exists e. rewrite He. split; [reflexivity | exact Hwhich].
  - destruct Hreach as [fp [ft [cb [hp [ht [E [Hp [Hok [[crd Hr] [Hc Hhok]]]]]]]]]].
    subst consumed.
    destruct (ok_emits forecast_readings forecast_ok fp forecast_ok_readings Hok)
      as [frss Hfe].
    destruct (ok_emits history_readings history_ok hp history_ok_readings Hhok)
      as [hrss Hhe].
    rewrite <- app_assoc. simpl app.
    rewrite (paginate_pages (loop_page ForecastLoop) (loop_readings ForecastLoop)
               (loop_page_merges ForecastLoop) _ fp ft frss Hp Hfe).
    unfold current_call. simpl pending. simpl sent. cbn [deliver ok bind response_json].
    rewrite Hr. cbn [bind pending sent].
    match goal with
    | |- context [paginate _ ?u ?data0 ?d0 _ ?sent0] =>
        destruct (paginate_continuing (loop_page HistoryLoop) (loop_readings HistoryLoop)
                    (loop_page_merges HistoryLoop) u hp ht hrss Hc Hhe
                    data0 d0 (r :: rest) sent0) as [data' [sent' Ep]];
        rewrite Ep;
        destruct (paginate_fails (loop_page HistoryLoop) (loop_readings HistoryLoop)
                    history_ok (loop_page_merges HistoryLoop) history_readings_ok
                    u r rest data' (merge d0 (List.concat hrss)) sent' Hfail)
          as [e [He Hwhich]]
    end.
    exists e. rewrite He. split; [reflexivity | exact Hwhich].
Qed.

(** C3 as stated fails: a history page one of whose hours lacks [indexes]
    does not make the aggregation fail; the hour is left out and a series
    without it is returned. *)
Lemma history_gap_is_silent :
  exists d w,
    aggregate springfield replies_gap = Some (Done (d, w))
    /\ dict_get (JStr t11) d = None
    /\ d = [(JStr t13, JNum 60); (JStr t12, JNum 50); (JStr t10, JNum 40)].
Proof.
  do 2 eexists. split; [reflexivity|]. split; reflexivity.
Qed.

(** C3, amended.  Whatever the site:

    - a lookup that fails ends the run with an exception, and so with no
      series: after replies that were all read without a failure, at
      whichever of the three lookups the run stands, a reply whose request
      raised, whose body is not JSON, or whose body is not of the expected
      shape (no array of hours, or an hour of a forecast page, the current
      body, or an hour of a history page that has [dateTime] and [indexes]
      lacking a field that is read) makes the aggregation raise; the
      exception is [ConnectionError] for a failed request and
      [JSONDecodeError] for a body that is not JSON;
    - a run all of whose replies are of the expected shape returns a
      series, also when hours of its history pages lack [dateTime] or
      [indexes]: those hours are passed over and the run goes on; the
      series holds the timestamp of every complete hour consumed, and every
      value in it is the reading of such an hour;
    - conversely, a run that returns a series has consumed only replies of
      the expected shape. *)
Theorem aggregation_all_or_nothing :
  forall s : site,
    (forall (consumed : list reply) (st : stage) (r : reply) (rest : list reply),
        reached consumed st ->
        failed st r ->
        exists e,
          aggregate s (consumed ++ r :: rest) = Some (Raised e)
          /\ (r = ConnectionFailed -> e = ConnectionError)
          /\ (r = Response None -> e = JSONDecodeError))
    /\ (forall (fp ft : list json) (cb : json) (hp ht : list json) (rest : list reply),
           paged fp ft ->
           Forall forecast_ok fp ->
           complete cb ->
           paged hp ht ->
           Forall history_ok hp ->
           exists d w,
             aggregate s (map ok fp ++ ok cb :: map ok hp ++ rest) = Some (Done (d, w))
             /\ pending w = rest
             /\ (forall h k v,
                    hour_consumed fp cb hp h ->
                    reading h = Done (k, v) ->
                    exists v', dict_get k d = Some v')
             /\ (forall k v,
                    dict_get k d = Some v ->
                    exists h k',
                      hour_consumed fp cb hp h
                      /\ reading h = Done (k', v)
                      /\ key_eqb k' k = true))
    /\ (forall (replies : list reply) (d : pydict) (w : net),
           aggregate s replies = Some (Done (d, w)) ->
           exists fp cb hp,
             replies = map ok fp ++ ok cb :: map ok hp ++ pending w
             /\ List.length (sent w) = (List.length fp + 1 + List.length hp)%nat
             /\ Forall forecast_ok fp
             /\ complete cb
             /\ Forall history_ok hp
             /\ forall h k v,
                  hour_consumed fp cb hp h ->
                  reading h = Done (k, v) ->
                  exists v', dict_get k d = Some v').
Proof.
  intros s.
  assert (Hholds :
    forall fp frss cb crd hp hrss h k v,
      emits forecast_readings fp frss ->
      reading cb = Done crd ->
      emits history_readings hp hrss ->
      hour_consumed fp cb hp h ->
      reading h = Done (k, v) ->
      exists v',
        dict_get k (merge [] (List.concat frss ++ crd :: List.concat hrss)) = Some v').
  { intros fp frss cb crd hp hrss h k v Hfe Hr Hhe Hwhere Hh.
    assert (Hkeys : Forall (fun kv => exists hk, hash_key (fst kv) = Some hk)
                      (List.concat frss ++ crd :: List.concat hrss)).
    { apply Forall_app. split; [apply (emits_keys ForecastLoop fp frss Hfe)|].
      constructor; [|apply (emits_keys HistoryLoop hp hrss Hhe)].
      destruct crd as [ck cv]. simpl. apply (reading_hashable cb ck cv Hr). }
    apply (merge_has_key [] _ k v Hkeys).
    destruct Hwhere as [[b [Hb Ho]] | [Ecb | [b [Hb Ho]]]].
    - destruct (Forall2_in_l _ _ _ b Hfe Hb) as [rs [Hrs Hrd]].
      apply in_or_app. left. apply in_concat. exists rs. split; [exact Hrs|].
      apply (forecast_hour_emitted b h rs (k, v) Hrd Ho Hh).
    - subst h. rewrite Hr in Hh. inversion Hh; subst.
      apply in_or_app. right. left. reflexivity.
    - destruct (Forall2_in_l _ _ _ b Hhe Hb) as [rs [Hrs Hrd]].
      apply in_or_app. right. right. apply in_concat. exists rs. split; [exact Hrs|].
      apply (history_hour_emitted b h rs (k, v) Hrd Ho Hh). }
  split; [|split].
  - intros consumed st r rest. apply aggregate_fails.
  - intros fp ft cb hp ht rest Hfp Hfok [crd Hr] Hhp Hhok.
    destruct (ok_emits forecast_readings forecast_ok fp forecast_ok_readings Hfok)
      as [frss Hfe].
    destruct (ok_emits history_readings history_ok hp history_ok_readings Hhok)
      as [hrss Hhe].
    eexists. eexists.
    split; [apply (aggregate_completes s fp ft frss cb crd hp ht hrss rest); assumption|].
    split; [reflexivity|]. split.
    + intros h k v. apply (Hholds fp frss cb crd hp hrss h k v Hfe Hr Hhe).
    + intros k v Hget. rewrite dict_get_merge in Hget. simpl dict_get in Hget.
      destruct (last_write k (List.concat frss ++ crd :: List.concat hrss)) as [v0|] eqn:Hlw;
        [|discriminate].
      inversion Hget; subst v0. clear Hget.
      destruct (last_write_in k v _ Hlw) as [k' [Hin Hk]].
      apply in_app_or in Hin. destruct Hin as [Hin | [E | Hin]].
      * destruct (emitted_from forecast_readings fp frss (k', v) Hfe Hin)
          as [b [rs [Hb [Hrs Hkv]]]].
        destruct (forecast_reading_from b rs (k', v) Hrs Hkv) as [h [Ho Hh]].
        exists h, k'. split; [left; exists b; split; assumption|].
        split; [exact Hh | exact Hk].
      * exists cb, k'. split; [right; left; reflexivity|].
        split; [rewrite Hr, E; reflexivity | exact Hk].
      * destruct (emitted_from history_readings hp hrss (k', v) Hhe Hin)
          as [b [rs [Hb [Hrs Hkv]]]].
        destruct (history_reading_from b rs (k', v) Hrs Hkv) as [h [Ho Hh]].
        exists h, k'. split; [right; right; exists b; split; assumption|].
        split; [exact Hh | exact Hk].
  - intros replies d w H.
    destruct (aggregate_inv s replies d w H)
      as [fp [ft [frss [cb [crd [hp [ht [hrss [E [Hfp [Hfe [Hr [Hhp [Hhe [Ed Es]]]]]]]]]]]]]]].
    exists fp, cb, hp.
    split; [exact E|].
    split.
    { rewrite Es. rewrite length_app. simpl. rewrite !length_map, !payloads_length.
      rewrite (paged_length fp ft Hfp), (paged_length hp ht Hhp). lia. }
    split; [apply (emits_ok forecast_readings forecast_ok fp frss forecast_readings_ok Hfe)|].
    split; [exists crd; exact Hr|].
    split; [apply (emits_ok history_readings history_ok hp hrss history_readings_ok Hhe)|].
    intros h k v. rewrite Ed. apply (Hholds fp frss cb crd hp hrss h k v Hfe Hr Hhe).
Qed.

(** The shapes that make a lookup fail, named: a body without its array
    of hours, and a page with an hour that is neither complete nor, in a
    history page, passed over by the guard. *)
Lemma missing_array_fails (b : json) (e : exn) :
  (py_getitem b "hourlyForecasts" = Raised e -> ~ forecast_ok b)
  /\ (py_getitem b "hoursInfo" = Raised e -> ~ history_ok b).
Proof.
  split; intros H [info [items [Hi _]]]; rewrite H in Hi; discriminate Hi.
Qed.

Lemma incomplete_hour_fails (b h : json) :
  ~ complete h ->
  (hour_of "hourlyForecasts" b h -> ~ forecast_ok b)
  /\ (hour_of "hoursInfo" b h -> ~ skipped h -> ~ history_ok b).
Proof.
  intros Hn. split.
  - intros [info [items [Hi [Hit Hin]]]] [info' [items' [Hi' [Hit' Hall]]]].
    rewrite Hi in Hi'. inversion Hi'; subst info'.
    rewrite Hit in Hit'. inversion Hit'; subst items'.
    rewrite Forall_forall in Hall. apply Hn. apply (Hall h Hin).
  - intros [info [items [Hi [Hit Hin]]]] Hs [info' [items' [Hi' [Hit' Hall]]]].
    rewrite Hi in Hi'. inversion Hi'; subst info'.
    rewrite Hit in Hit'. inversion Hit'; subst items'.
    rewrite Forall_forall in Hall. destruct (Hall h Hin) as [H | H]; contradiction.
Qed.

(** An hour that is a JSON object without [dateTime], without [indexes],
    or whose first index has no [aqi], is not complete. *)
Lemma hour_missing_field (fields : list (string * json)) :
  field "dateTime" fields = None
  \/ field "indexes" fields = None
  \/ (exists ix, field "indexes" fields = Some (JArr (JObj ix :: nil))
                 /\ field "aqi" ix = None) ->
  ~ complete (JObj fields).
Proof.
  intros H [kv Hkv]. unfold reading in Hkv. simpl in Hkv.
  destruct H as [H | [H | [ix [H Ha]]]].
  - rewrite H in Hkv. discriminate Hkv.
  - destruct (field "dateTime" fields); simpl in Hkv; [|discriminate Hkv].
    rewrite H in Hkv. discriminate Hkv.
  - destruct (field "dateTime" fields); simpl in Hkv; [|discriminate Hkv].
    rewrite H in Hkv. simpl in Hkv. rewrite Ha in Hkv. discriminate Hkv.
Qed.

Lemma aggregation_all_or_nothing_witness :
  (exists e,
      aggregate springfield
        ([] ++ ok forecast_page_short_hour :: [ok (hour t12 50)]) = Some (Raised e)
      /\ (ok forecast_page_short_hour = ConnectionFailed -> e = ConnectionError)
      /\ (ok forecast_page_short_hour = Response None -> e = JSONDecodeError))
  /\ (exists e,
         aggregate springfield
           ((map ok [forecast_body [hour t13 60]] ++ ok (hour t12 50) :: map ok [])
            ++ ok history_quota_error :: [])
         = Some (Raised e)
         /\ (ok history_quota_error = ConnectionFailed -> e = ConnectionError)
         /\ (ok history_quota_error = Response None -> e = JSONDecodeError))
  /\ (exists d w,
         aggregate springfield replies_gap = Some (Done (d, w))
         /\ pending w = []
         /\ (forall h k v,
                hour_consumed [forecast_body [hour t13 60]] (hour t12 50)
                  [history_body [hour t10 40; JObj [("dateTime", JStr t11)]]] h ->
                reading h = Done (k, v) ->
                exists v', dict_get k d = Some v')
         /\ (forall k v,
                dict_get k d = Some v ->
                exists h k',
                  hour_consumed [forecast_body [hour t13 60]] (hour t12 50)
                    [history_body [hour t10 40; JObj [("dateTime", JStr t11)]]] h
                  /\ reading h = Done (k', v)
                  /\ key_eqb k' k = true)).
Proof.
  assert (Hp : forall hours, paged [forecast_body hours] []
                             /\ paged [history_body hours] []).
  { intros hours. split.
    - exists [], (forecast_body hours). repeat split. constructor.
    - exists [], (history_body hours). repeat split. constructor. }
  assert (Hc : forall t a, complete (hour t a)).
  { intros t a. eexists. reflexivity. }
  assert (Hf : Forall forecast_ok [forecast_body [hour t13 60]]).
  { constructor; [|constructor].
    exists (JArr [hour t13 60]), [hour t13 60].
    repeat split. constructor; [apply Hc | constructor]. }
  split; [|split].
  - refine (proj1 (aggregation_all_or_nothing springfield)
              [] AtForecast (ok forecast_page_short_hour) [ok (hour t12 50)] _ _).
    + exists [], []. repeat split; constructor.
    + right. right. exists forecast_page_short_hour. split; [reflexivity|].
      apply (proj1 (incomplete_hour_fails forecast_page_short_hour
                      (JObj [("dateTime", JStr t14)])
                      (hour_missing_field [("dateTime", JStr t14)]
                         (or_intror (or_introl eq_refl))))).
      exists (JArr [hour t13 60; JObj [("dateTime", JStr t14)]]),
             [hour t13 60; JObj [("dateTime", JStr t14)]].
      repeat split. right. left. reflexivity.
  - refine (proj1 (aggregation_all_or_nothing springfield)
              (map ok [forecast_body [hour t13 60]] ++ ok (hour t12 50) :: map ok [])
              AtHistory (ok history_quota_error) [] _ _).
    + exists [forecast_body [hour t13 60]], [], (hour t12 50), [], [].
      split; [reflexivity|]. split; [apply Hp|]. split; [exact Hf|].
      split; [apply Hc|]. split; constructor.
    + right. right. exists history_quota_error. split; [reflexivity|].
      apply (proj2 (missing_array_fails history_quota_error KeyError)). reflexivity.
  - refine (proj1 (proj2 (aggregation_all_or_nothing springfield))
              [forecast_body [hour t13 60]] [] (hour t12 50)
              [history_body [hour t10 40; JObj [("dateTime", JStr t11)]]] [] []
              _ _ _ _ _).
    + apply Hp.
    + exact Hf.
    + apply Hc.
    + apply Hp.
    + constructor; [|constructor].
      exists (JArr [hour t10 40; JObj [("dateTime", JStr t11)]]),
             [hour t10 40; JObj [("dateTime", JStr t11)]].
      repeat split.
      constructor; [right; apply Hc|].
      constructor; [left; right; split; reflexivity | constructor].
Defined.

(** Each way a lookup can fail, and the exception it ends the run with. *)
Example connection_failure_raises :
  aggregate springfield [ok (forecast_body [hour t13 60]); ConnectionFailed]
  = Some (Raised ConnectionError).
Proof. reflexivity. Qed.

Example body_not_json_raises :
  aggregate springfield [Response None] = Some (Raised JSONDecodeError).
Proof. reflexivity. Qed.

Example forecast_hour_without_indexes_raises :
  aggregate springfield [ok forecast_page_short_hour] = Some (Raised KeyError).
Proof. reflexivity. Qed.

Example history_without_array_raises :
  aggregate springfield
    [ok (forecast_body [hour t13 60]); ok (hour t12 50); ok history_quota_error]
  = Some (Raised KeyError).
Proof. reflexivity. Qed.

(** A history hour that has [dateTime] and [indexes] but an empty list of
    indexes is not passed over by the guard: the run raises. *)
Example history_hour_empty_indexes_raises :
  aggregate springfield
    [ok (forecast_body [hour t13 60]); ok (hour t12 50);
     ok (history_body [JObj [("dateTime", JStr t11); ("indexes", JArr [])]])]
  = Some (Raised IndexError).
Proof. reflexivity. Qed.

(** ** The bundle loop of [fetch_all_resources]

    The same shape as the two loops of the callback: the loop reads on
    while a bundle carries a next link and returns at the first bundle
    without one, with the resources of all bundles read. *)
Lemma bundle_loop_unfold (next_url : pyval) (resources : list pyval)
    (pending : list fetched) (reads : list pyval) :
  bundle_loop next_url resources pending reads
  = if truthy next_url then
      match (new <- bundle_resources next_url ;;
             next_link <- bundle_next_link next_url ;;
             Done (resources ++ new, next_link)) with
      | Raised e => Some (Raised e)
      | Done (resources', next_link) =>
          if truthy next_link then
            match pending with
            | [] => None
            | FetchFailed :: _ => Some (Raised ConnectionError)
            | Bundle b :: pending' =>
                bundle_loop b resources' pending' (reads ++ [next_link])
            end
          else Some (Done (resources',
                           {| bundles_pending := pending; links_read := reads |}))
      end
    else Some (Done (resources, {| bundles_pending := pending; links_read := reads |})).
Proof. destruct pending; reflexivity. Qed.

Lemma bundle_loop_pages (bundles : list pyval) :
  forall (links : list pyval) (last_link : pyval) (news : list (list pyval))
         (first : pyval) (resources : list pyval) (rest : list fetched)
         (reads : list pyval),
    Forall (fun b => truthy b = true) (first :: bundles) ->
    Forall2 (fun b l => bundle_next_link b = Done l) (first :: bundles)
      (links ++ [last_link]) ->
    Forall (fun l => truthy l = true) links ->
    truthy last_link = false ->
    Forall2 (fun b new => bundle_resources b = Done new) (first :: bundles) news ->
    bundle_loop first resources (map Bundle bundles ++ rest) reads
    = Some (Done (resources ++ List.concat news,
                  {| bundles_pending := rest; links_read := reads ++ links |})).
Proof.
  induction bundles as [|b bundles IH];
    intros links last_link news first resources rest reads Ht Hl Hlinks Hlast Hn.
  - inversion Ht as [|x0 t0 Hfirst _]; subst.
    inversion Hn as [|x1 new t1 news' Hnew Hnil]; subst. inversion Hnil; subst.
    inversion Hl as [|x2 y t2 ls Hlink Hrest E1 E2]; subst.
    inversion Hrest; subst.
    destruct links as [|l0 [|l1 links]]; simpl in E2; try discriminate.
    inversion E2; subst y.
    rewrite bundle_loop_unfold. rewrite Hfirst, Hnew, Hlink. simpl. rewrite Hlast.
    rewrite !app_nil_r. reflexivity.
  - inversion Ht as [|x0 t0 Hfirst Ht']; subst.
    inversion Hn as [|x1 new t1 news' Hnew Hn']; subst.
    inversion Hl as [|x2 y t2 ls Hlink Hl' E1 E2]; subst.
    destruct links as [|l0 links]; simpl in E2.
    + inversion E2; subst. inversion Hl'.
    + inversion E2; subst y ls. clear E2.
      inversion Hlinks as [|z zs Hl0 Hlinks']; subst.
      rewrite bundle_loop_unfold. rewrite Hfirst, Hnew, Hlink. simpl. rewrite Hl0.
      rewrite (IH links last_link _ b (resources ++ new) rest (reads ++ [l0])
                 Ht' Hl' Hlinks' Hlast Hn').
      rewrite <- !app_assoc. reflexivity.
Qed.

Example fetch_two_bundles :
  fetch_all_resources two_bundles
  = Some (Done ([condition_text_and_code; condition_code_only],
                {| bundles_pending := []; links_read := [PStr "Condition?page=2"] |})).
Proof. reflexivity. Qed.

(** * Further properties of the code *)

(** ** The series as a dict: order, size, uniqueness of keys *)

Lemma keys_update (d : pydict) (k v : json) :
  keys (dict_update d (k, v))
  = if seen_key (keys d) k then keys d else keys d ++ [k].
Proof.
  unfold keys, seen_key. induction d as [|[k0 v0] d IH]; simpl.
  - reflexivity.
  - destruct (key_eqb k0 k) eqn:E; simpl.
    + reflexivity.
    + rewrite IH. destruct (existsb (fun k' => key_eqb k' k) (map fst d)); reflexivity.
Qed.

Lemma keys_merge (rs : list (json * json)) (d : pydict) :
  keys (merge d rs) = keys d ++ fresh_keys (keys d) (map fst rs).
Proof.
  unfold merge. revert d. induction rs as [|[k v] rs IH]; intros d; simpl.
  - rewrite app_nil_r. reflexivity.
  - rewrite IH, keys_update.
    destruct (seen_key (keys d) k); [reflexivity|].
    rewrite <- app_assoc. reflexivity.
Qed.

Lemma seen_key_false (seen : list json) (k : json) :
  seen_key seen k = false <-> Forall (fun k' => key_eqb k' k = false) seen.
Proof.
  unfold seen_key. induction seen as [|a seen IH]; simpl.
  - split; [constructor | reflexivity].
  - rewrite orb_false_iff, IH. split.
    + intros [Ha Hs]. constructor; assumption.
    + intros H. inversion H; subst. split; assumption.
Qed.

Lemma key_eqb_sym (a b : json) : key_eqb a b = key_eqb b a.
Proof.
  unfold key_eqb. destruct (hash_key a) as [ha|], (hash_key b) as [hb|]; try reflexivity.
  destruct (hkey_eqb ha hb) eqn:E.
  - apply hkey_eqb_eq in E. subst. symmetry. apply hkey_eqb_refl.
  - destruct (hkey_eqb hb ha) eqn:E'; [|reflexivity].
    apply hkey_eqb_eq in E'. subst. rewrite hkey_eqb_refl in E. discriminate.
Qed.

Lemma distinct_keys_app (d : pydict) (k v : json) :
  distinct_keys d ->
  Forall (fun k' => key_eqb k' k = false) (keys d) ->
  distinct_keys (d ++ [(k, v)]).
Proof.
  induction d as [|[k0 v0] d IH]; simpl; intros Hd Hk.
  - split; [constructor | exact I].
  - destruct Hd as [H0 Hd]. inversion Hk as [|x l Hk0 Hk']; subst. split.
    + apply Forall_app. split; [exact H0|]. constructor; [exact Hk0 | constructor].
    + apply IH; assumption.
Qed.

Lemma update_not_seen (d : pydict) (k v : json) :
  seen_key (keys d) k = false -> dict_update d (k, v) = d ++ [(k, v)].
Proof.
  unfold seen_key, keys. induction d as [|[k0 v0] d IH]; simpl; intros H.
  - reflexivity.
  - apply orb_false_iff in H. destruct H as [H0 H]. rewrite H0, (IH H). reflexivity.
Qed.

Lemma distinct_keys_update (d : pydict) (kv : json * json) :
  distinct_keys d -> distinct_keys (dict_update d kv).
Proof.
  destruct kv as [k v].
  destruct (seen_key (keys d) k) eqn:Es.
  - clear Es. induction d as [|[k0 v0] d IH]; simpl; intros Hd.
    + split; [constructor | exact I].
    + destruct Hd as [H0 Hd]. destruct (key_eqb k0 k) eqn:E; simpl.
      * split; assumption.
      * split; [|apply IH; exact Hd].
        clear IH Hd. induction d as [|[k1 v1] d IH]; simpl.
        -- constructor; [|constructor]. simpl. exact E.
        -- inversion H0 as [|x l H1 H0']; subst. simpl in H1.
           destruct (key_eqb k1 k); constructor; try assumption.
           apply IH. exact H0'.
  - intros Hd. rewrite (update_not_seen d k v Es).
    apply distinct_keys_app; [exact Hd|]. apply seen_key_false. exact Es.
Qed.

Lemma distinct_keys_merge (rs : list (json * json)) (d : pydict) :
  distinct_keys d -> distinct_keys (merge d rs).
Proof.
  unfold merge. revert d. induction rs as [|kv rs IH]; intros d Hd; simpl.
  - exact Hd.
  - apply IH. apply distinct_keys_update. exact Hd.
Qed.

Lemma hashable_keys_update (d : pydict) (kv : json * json) :
  Forall hashable (keys d) -> hashable (fst kv) ->
  Forall hashable (keys (dict_update d kv)).
Proof.
  destruct kv as [k v]. intros Hd Hk. rewrite keys_update.
  destruct (seen_key (keys d) k); [exact Hd|].
  apply Forall_app. split; [exact Hd | constructor; [exact Hk | constructor]].
Qed.

Lemma hashable_keys_merge (rs : list (json * json)) (d : pydict) :
  Forall hashable (keys d) ->
  Forall (fun kv => hashable (fst kv)) rs ->
  Forall hashable (keys (merge d rs)).
Proof.
  unfold merge. revert d. induction rs as [|kv rs IH]; intros d Hd Hrs; simpl.
  - exact Hd.
  - inversion Hrs; subst. apply IH; [|assumption].
    apply hashable_keys_update; assumption.
Qed.

(** X1.  The series a completed aggregation returns is a proper dict: no
    two of its entries stand under the same key, and every key is
    hashable. *)
Theorem aggregate_keys_distinct :
  forall (s : site) (replies : list reply) (d : pydict) (w : net),
    aggregate s replies = Some (Done (d, w)) ->
    distinct_keys d /\ Forall hashable (keys d).
Proof.
  intros s replies d w H.
  destruct (aggregate_inv s replies d w H)
    as [fp [ft [frss [cb [crd [hp [ht [hrss [E [Hfp [Hfe [Hr [Hhp [Hhe [Ed Es]]]]]]]]]]]]]]].
  subst d. split.
  - apply distinct_keys_merge. exact I.
  - apply hashable_keys_merge; [constructor|].
    apply Forall_app. split; [apply (emits_keys ForecastLoop fp frss Hfe)|].
    constructor; [|apply (emits_keys HistoryLoop hp hrss Hhe)].
    destruct crd as [ck cv]. apply (reading_hashable cb ck cv Hr).
Qed.

Lemma aggregate_keys_distinct_witness :
  distinct_keys [(JStr t13, JNum 60); (JStr t12, JNum 48); (JStr t11, JNum 45)]
  /\ Forall hashable (keys [(JStr t13, JNum 60); (JStr t12, JNum 48); (JStr t11, JNum 45)]).
Proof.
  apply (aggregate_keys_distinct springfield replies_collide
           [(JStr t13, JNum 60); (JStr t12, JNum 48); (JStr t11, JNum 45)]
           {| pending := [];
              sent := [call (lookup_url springfield "forecast") (forecast_data springfield);
                       call (lookup_url springfield "currentConditions")
                         (current_data springfield);
                       call (lookup_url springfield "history") (history_data springfield)] |}).
  reflexivity.
Defined.

(** X2.  The series lists its timestamps in the order in which they were
    first written: the keys of a completed aggregation are the timestamps
    of the forecast readings, then of the current reading, then of the
    history readings, each timestamp at its first occurrence only. *)
Theorem aggregate_keys_in_first_write_order :
  forall (s : site) (replies : list reply) (d : pydict) (w : net),
    aggregate s replies = Some (Done (d, w)) ->
    exists fp frss cb crd hp hrss,
      replies = map ok fp ++ ok cb :: map ok hp ++ pending w
      /\ emits forecast_readings fp frss
      /\ reading cb = Done crd
      /\ emits history_readings hp hrss
      /\ keys d
         = fresh_keys [] (map fst (List.concat frss ++ crd :: List.concat hrss)).
Proof.
  intros s replies d w H.
  destruct (aggregate_inv s replies d w H)
    as [fp [ft [frss [cb [crd [hp [ht [hrss [E [Hfp [Hfe [Hr [Hhp [Hhe [Ed Es]]]]]]]]]]]]]]].
  exists fp, frss, cb, crd, hp, hrss.
  repeat split; try assumption.
  rewrite Ed. apply (keys_merge _ []).
Qed.

Lemma aggregate_keys_in_first_write_order_witness :
  exists fp frss cb crd hp hrss,
    replies_collide = map ok fp ++ ok cb :: map ok hp ++ []
    /\ emits forecast_readings fp frss
    /\ reading cb = Done crd
    /\ emits history_readings hp hrss
    /\ [JStr t13; JStr t12; JStr t11]
       = fresh_keys [] (map fst (List.concat frss ++ crd :: List.concat hrss)).
Proof.
  apply (aggregate_keys_in_first_write_order springfield replies_collide
           [(JStr t13, JNum 60); (JStr t12, JNum 48); (JStr t11, JNum 45)]
           {| pending := [];
              sent := [call (lookup_url springfield "forecast") (forecast_data springfield);
                       call (lookup_url springfield "currentConditions")
                         (current_data springfield);
                       call (lookup_url springfield "history") (history_data springfield)] |}).
  reflexivity.
Defined.

Lemma fresh_keys_length (seen ks : list json) :
  (List.length (fresh_keys seen ks) <= List.length ks)%nat.
Proof.
  revert seen. induction ks as [|k ks IH]; intros seen; simpl.
  - lia.
  - destruct (seen_key seen k); simpl.
    + specialize (IH seen). lia.
    + specialize (IH (seen ++ [k])). lia.
Qed.

Lemma merge_all_new (rs : list (json * json)) (d : pydict) :
  distinct_keys rs ->
  Forall (fun kv => seen_key (keys d) (fst kv) = false) rs ->
  merge d rs = d ++ rs.
Proof.
  unfold merge. revert d. induction rs as [|[k v] rs IH]; intros d Hd Hn; simpl.
  - rewrite app_nil_r. reflexivity.
  - destruct Hd as [Hk Hd]. inversion Hn as [|x l Hk0 Hn']; subst. simpl in Hk0.
    rewrite (update_not_seen d k v Hk0). rewrite IH.
    + rewrite <- app_assoc. reflexivity.
    + exact Hd.
    + rewrite Forall_forall in *. intros [k1 v1] Hin. simpl.
      unfold keys. rewrite map_app. simpl. unfold seen_key. rewrite existsb_app. simpl.
      rewrite orb_false_r. apply orb_false_iff. split.
      * apply (Hn' (k1, v1) Hin).
      * apply (Hk (k1, v1) Hin).
Qed.

(** X3.  The series of a completed aggregation never has more entries
    than readings were written into it; and when no two of the readings
    carry the same timestamp, the series is exactly the list of the
    readings in the order they were written: forecast, current, history. *)
Theorem aggregate_size :
  forall (s : site) (replies : list reply) (d : pydict) (w : net),
    aggregate s replies = Some (Done (d, w)) ->
    exists fp frss cb crd hp hrss,
      replies = map ok fp ++ ok cb :: map ok hp ++ pending w
      /\ emits forecast_readings fp frss
      /\ reading cb = Done crd
      /\ emits history_readings hp hrss
      /\ let written := List.concat frss ++ crd :: List.concat hrss in
         (List.length d <= List.length written)%nat
         /\ (distinct_keys written -> d = written).
Proof.
  intros s replies d w H.
  destruct (aggregate_inv s replies d w H)
    as [fp [ft [frss [cb [crd [hp [ht [hrss [E [Hfp [Hfe [Hr [Hhp [Hhe [Ed Es]]]]]]]]]]]]]]].
  exists fp, frss, cb, crd, hp, hrss.
  repeat split; try assumption.
  - rewrite Ed. rewrite <- (length_map fst (merge [] _)).
    change (map fst (merge [] (List.concat frss ++ crd :: List.concat hrss)))
      with (keys (merge [] (List.concat frss ++ crd :: List.concat hrss))).
    rewrite keys_merge. simpl.
    rewrite <- (length_map fst (List.concat frss ++ crd :: List.concat hrss)).
    apply fresh_keys_length.
  - intros Hd. rewrite Ed. rewrite (merge_all_new _ [] Hd); [reflexivity|].
    apply Forall_forall. intros kv _. reflexivity.
Qed.

Lemma aggregate_size_witness :
  exists fp frss cb crd hp hrss,
    replies_plain = map ok fp ++ ok cb :: map ok hp ++ []
    /\ emits forecast_readings fp frss
    /\ reading cb = Done crd
    /\ emits history_readings hp hrss
    /\ let written := List.concat frss ++ crd :: List.concat hrss in
       (List.length [(JStr t13, JNum 60); (JStr t14, JNum 70); (JStr t12, JNum 50);
                     (JStr t10, JNum 40); (JStr t11, JNum 45)]
        <= List.length written)%nat
       /\ (distinct_keys written ->
           [(JStr t13, JNum 60); (JStr t14, JNum 70); (JStr t12, JNum 50);
            (JStr t10, JNum 40); (JStr t11, JNum 45)] = written).
Proof.
  apply (aggregate_size springfield replies_plain
           [(JStr t13, JNum 60); (JStr t14, JNum 70); (JStr t12, JNum 50);
            (JStr t10, JNum 40); (JStr t11, JNum 45)]
           {| pending := [];
              sent := [call (lookup_url springfield "forecast") (forecast_data springfield);
                       call (lookup_url springfield "currentConditions")
                         (current_data springfield);
                       call (lookup_url springfield "history") (history_data springfield)] |}).
  reflexivity.
Defined.

(** ** Merging a page twice *)

Lemma dict_get_none (k : json) (d : pydict) :
  Forall (fun kv => key_eqb (fst kv) k = false) d -> dict_get k d = None.
Proof.
  intros H. induction H as [|[k0 v0] d H0 _ IH]; simpl.
  - reflexivity.
  - simpl in H0. rewrite H0. exact IH.
Qed.

Lemma dict_get_seen (k v : json) (d : pydict) :
  dict_get k d = Some v -> seen_key (keys d) k = true.
Proof.
  unfold seen_key, keys. induction d as [|[k0 v0] d IH]; simpl; [discriminate|].
  destruct (key_eqb k0 k); [reflexivity | exact IH].
Qed.

(** A dict with distinct hashable keys is determined by the order of its
    keys and the value found under each. *)
Lemma dict_ext (d d' : pydict) :
  distinct_keys d -> distinct_keys d' ->
  Forall hashable (keys d) ->
  keys d = keys d' ->
  (forall k, dict_get k d = dict_get k d') ->
  d = d'.
Proof.
  revert d'. induction d as [|[k v] d IH]; intros [|[k' v'] d'] Hd Hd' Hh Hk Hg;
    simpl in Hk; try discriminate.
  - reflexivity.
  - inversion Hk as [[Ek Ekeys]]. subst k'.
    simpl in Hh. inversion Hh as [|x l [hk Hhk] Hh']; subst.
    destruct Hd as [Hf Hd]. destruct Hd' as [Hf' Hd'].
    assert (Ev : v = v').
    { specialize (Hg k). simpl in Hg. rewrite (key_eqb_refl k hk Hhk) in Hg.
      inversion Hg; reflexivity. }
    subst v'. f_equal.
    apply IH; try assumption.
    intros k0. specialize (Hg k0). simpl in Hg.
    destruct (key_eqb k k0) eqn:E; [|exact Hg].
    rewrite !dict_get_none; [reflexivity | |].
    + eapply Forall_impl; [|exact Hf']. intros [k1 v1] H1. simpl in *.
      rewrite key_eqb_sym. rewrite <- (key_eqb_congr k k0 k1 E). exact H1.
    + eapply Forall_impl; [|exact Hf]. intros [k1 v1] H1. simpl in *.
      rewrite key_eqb_sym. rewrite <- (key_eqb_congr k k0 k1 E). exact H1.
Qed.

Lemma fresh_keys_nil (seen ks : list json) :
  Forall (fun k => seen_key seen k = true) ks -> fresh_keys seen ks = [].
Proof.
  intros H. induction H as [|k ks Hk _ IH]; simpl.
  - reflexivity.
  - rewrite Hk. exact IH.
Qed.

Lemma merge_twice (rs : list (json * json)) (d : pydict) :
  distinct_keys d ->
  Forall hashable (keys d) ->
  Forall (fun kv => hashable (fst kv)) rs ->
  merge (merge d rs) rs = merge d rs.
Proof.
  intros Hd Hh Hrs.
  apply dict_ext.
  - apply distinct_keys_merge, distinct_keys_merge, Hd.
  - apply distinct_keys_merge, Hd.
  - apply hashable_keys_merge; [|exact Hrs]. apply hashable_keys_merge; assumption.
  - rewrite (keys_merge rs (merge d rs)).
    rewrite fresh_keys_nil; [apply app_nil_r|].
    apply Forall_forall. intros k Hin.
    apply in_map_iff in Hin. destruct Hin as [[k0 v0] [E Hin]]. simpl in E. subst k0.
    destruct (merge_has_key d rs k v0 Hrs Hin) as [v' Hv'].
    apply (dict_get_seen k v' _ Hv').
  - intros k. rewrite !dict_get_merge.
    destruct (last_write k rs); reflexivity.
Qed.

(** X4.  Merging a page that has already been merged changes nothing: for
    either loop, if a page was merged into a proper dict, merging the same
    page into the result returns the result unchanged (same keys, same
    order, same values). *)
Theorem page_merge_idempotent :
  forall (l : loop) (body : json) (d d1 : pydict),
    distinct_keys d ->
    Forall hashable (keys d) ->
    loop_page l body d = Done d1 ->
    loop_page l body d1 = Done d1.
Proof.
  intros l body d d1 Hd Hh H.
  rewrite loop_page_merges in H |- *.
  destruct (loop_readings l body) as [rs|e] eqn:Hr; simpl in H |- *; [|discriminate].
  inversion H; subst d1. f_equal.
  apply merge_twice; try assumption.
  apply (loop_readings_keys l body rs Hr).
Qed.

Lemma page_merge_idempotent_witness :
  loop_page HistoryLoop (history_body [hour t12 48; hour t11 45])
    [(JStr t12, JNum 48); (JStr t11, JNum 45)]
  = Done [(JStr t12, JNum 48); (JStr t11, JNum 45)].
Proof.
  apply (page_merge_idempotent HistoryLoop (history_body [hour t12 48; hour t11 45])
           [(JStr t12, JNum 50)] [(JStr t12, JNum 48); (JStr t11, JNum 45)]).
  - split; [constructor | exact I].
  - constructor; [exists (HStr t12); reflexivity | constructor].
  - reflexivity.
Defined.

(** ** The traces as a partition of the series *)

Lemma dict_get_in (d : pydict) (k v : json) :
  distinct_keys d -> hashable k -> In (k, v) d -> dict_get k d = Some v.
Proof.
  intros Hd [hk Hk]. induction d as [|[k0 v0] d IH]; simpl; intros Hin.
  - destruct Hin.
  - destruct Hd as [Hf Hd]. destruct Hin as [E | Hin].
    + inversion E; subst. rewrite (key_eqb_refl k hk Hk). reflexivity.
    + rewrite Forall_forall in Hf. specialize (Hf (k, v) Hin). simpl in Hf.
      rewrite Hf. apply IH; assumption.
Qed.

Lemma select_filter (test : json -> result bool) (d : pydict) :
  (forall k b, test k = Done b -> hashable k) ->
  distinct_keys d ->
  forall (items : list (json * json)) (xs ys : list json),
    (forall kv, In kv items -> In kv d) ->
    select test (map fst items) = Done xs ->
    select_values test d (map fst items) = Done ys ->
    combine xs ys = filter (fun kv => passes test (fst kv)) items
    /\ List.length xs = List.length ys.
Proof.
  intros Htest Hd items.
  induction items as [|[k v] items IH]; intros xs ys Hin Hx Hy; simpl in Hx, Hy.
  - inversion Hx; inversion Hy; subst. split; reflexivity.
  - assert (Hin' : forall kv, In kv items -> In kv d)
      by (intros kv H; apply Hin; right; exact H).
    simpl. unfold passes at 1. simpl.
    destruct (test k) as [[|]|e] eqn:Tk; simpl in Hx, Hy; try discriminate.
    + bind_inv Hx as xs' Hxs. inversion Hx; subst xs. clear Hx.
      bind_inv Hy as v' Hv. bind_inv Hy as ys' Hys. inversion Hy; subst ys. clear Hy.
      destruct (IH xs' ys' Hin' Hxs Hys) as [Hc Hl].
      assert (Ev : v' = v).
      { unfold dict_getitem in Hv.
        destruct (hash_key k) as [hk|] eqn:Hk; [|discriminate].
        rewrite (dict_get_in d k v Hd (Htest k true Tk) (Hin (k, v) (or_introl eq_refl))) in Hv.
        inversion Hv; reflexivity. }
      subst v'. simpl. rewrite Hc, Hl. split; reflexivity.
    + apply (IH xs ys Hin' Hx Hy).
Qed.

Lemma trace_filter (test : json -> result bool) (d : pydict) (s : scatter) :
  (forall k b, test k = Done b -> hashable k) ->
  distinct_keys d ->
  trace test d = Done s ->
  combine (x s) (y s) = filter (fun kv => passes test (fst kv)) d
  /\ List.length (x s) = List.length (y s).
Proof.
  intros Htest Hd H. unfold trace in H.
  bind_inv H as xs Hxs. bind_inv H as ys Hys. inversion H; subst; simpl.
  apply (select_filter test d Htest Hd d xs ys (fun kv Hin => Hin) Hxs Hys).
Qed.

Lemma le_str_hashable (bound : string) (k : json) (b : bool) :
  le_str bound k = Done b -> hashable k.
Proof.
  destruct k as [| bb | n | t | items | fields]; simpl; try discriminate.
  intros _. exists (HStr t). reflexivity.
Qed.

Lemma ge_str_hashable (bound : string) (k : json) (b : bool) :
  ge_str bound k = Done b -> hashable k.
Proof.
  destruct k as [| bb | n | t | items | fields]; simpl; try discriminate.
  intros _. exists (HStr t). reflexivity.
Qed.

Lemma passes_le (bound : string) (k : json) :
  passes (le_str bound) k = str_leb k (JStr bound).
Proof.
  unfold passes. destruct k as [| bb | n | t | items | fields]; simpl; try reflexivity.
  destruct (String.leb t bound); reflexivity.
Qed.

Lemma passes_ge (bound : string) (k : json) :
  passes (ge_str bound) k = str_leb (JStr bound) k.
Proof.
  unfold passes. destruct k as [| bb | n | t | items | fields]; simpl; try reflexivity.
  destruct (String.leb bound t); reflexivity.
Qed.

(** X5.  On a series that is a proper dict, the two traces partition it at
    now: the observed trace is exactly the readings of the series whose
    timestamp is at most now, the forecast trace exactly those whose
    timestamp is at least now, both in the order of the series and each
    timestamp paired with its own value; no reading is lost; and only a
    reading exactly at now is in both. *)
Theorem traces_partition_series :
  forall (aqi_results : pydict) (now_str : string) (observed forecast : scatter),
    distinct_keys aqi_results ->
    make_traces aqi_results now_str = Done (observed, forecast) ->
    combine (x observed) (y observed)
    = filter (fun kv => str_leb (fst kv) (JStr now_str)) aqi_results
    /\ combine (x forecast) (y forecast)
       = filter (fun kv => str_leb (JStr now_str) (fst kv)) aqi_results
    /\ List.length (x observed) = List.length (y observed)
    /\ List.length (x forecast) = List.length (y forecast)
    /\ (forall kv, In kv aqi_results ->
                   In kv (combine (x observed) (y observed))
                   \/ In kv (combine (x forecast) (y forecast)))
    /\ (forall k v v',
           In (k, v) (combine (x observed) (y observed)) ->
           In (k, v') (combine (x forecast) (y forecast)) ->
           k = JStr now_str).
Proof.
  intros d now_str o f Hd H. unfold make_traces in H.
  bind_inv H as o' Ho. bind_inv H as f' Hf. inversion H; subst o' f'. clear H.
  destruct (trace_filter _ d o (le_str_hashable now_str) Hd Ho) as [Eo Lo].
  destruct (trace_filter _ d f (ge_str_hashable now_str) Hd Hf) as [Ef Lf].
  assert (Eo' : combine (x o) (y o) = filter (fun kv => str_leb (fst kv) (JStr now_str)) d).
  { rewrite Eo. apply filter_ext. intros kv. apply passes_le. }
  assert (Ef' : combine (x f) (y f) = filter (fun kv => str_leb (JStr now_str) (fst kv)) d).
  { rewrite Ef. apply filter_ext. intros kv. apply passes_ge. }
  split; [exact Eo'|]. split; [exact Ef'|]. split; [exact Lo|]. split; [exact Lf|].
  split.
  - intros [k v] Hin. rewrite Eo', Ef'. rewrite !filter_In. simpl.
    assert (Hk : In k (keys d)) by (apply (in_map fst) in Hin; exact Hin).
    assert (Hs : exists t, k = JStr t).
    { unfold trace in Ho. bind_inv Ho as xs Hxs.
      clear - Hxs Hk. revert xs Hxs. induction (keys d) as [|a ks IH]; intros xs Hxs.
      - destruct Hk.
      - simpl in Hxs. destruct (le_str now_str a) as [[|]|e] eqn:Ta; simpl in Hxs;
          try discriminate.
        + destruct Hk as [E | Hk].
          * subst a. destruct k; simpl in Ta; try discriminate. eexists; reflexivity.
          * bind_inv Hxs as xs' Hxs'. apply (IH Hk xs' Hxs').
        + destruct Hk as [E | Hk].
          * subst a. destruct k; simpl in Ta; try discriminate. eexists; reflexivity.
          * apply (IH Hk xs Hxs). }
    destruct Hs as [t Et]. subst k. simpl.
    destruct (String.leb_total t now_str) as [Hle | Hge].
    + left. split; [exact Hin | exact Hle].
    + right. split; [exact Hin | exact Hge].
  - intros k v v' Hino Hinf. rewrite Eo' in Hino. rewrite Ef' in Hinf.
    apply filter_In in Hino. apply filter_In in Hinf.
    destruct Hino as [_ Hle]. destruct Hinf as [_ Hge]. simpl in Hle, Hge.
    destruct k as [| bb | n | t | items | fields]; simpl in Hle, Hge; try discriminate.
    f_equal. apply String.leb_antisym; assumption.
Qed.

Lemma traces_partition_series_witness :
  combine [JStr "2024-06-01T12:30:00Z"; JStr t11] [JNum 52; JNum 45]
  = filter (fun kv => str_leb (fst kv) (JStr "2024-06-01T12:30:00Z")) series_at_now.
Proof.
  refine (proj1 (traces_partition_series series_at_now "2024-06-01T12:30:00Z"
                   {| x := [JStr "2024-06-01T12:30:00Z"; JStr t11];
                      y := [JNum 52; JNum 45] |}
                   {| x := [JStr t13; JStr "2024-06-01T12:30:00Z"];
                      y := [JNum 60; JNum 52] |} _ _)).
  - simpl. repeat split; repeat constructor.
  - reflexivity.
Defined.

(** ** A key that is not a string *)

Lemma timestamps_or_not (ks : list json) :
  Forall is_timestamp ks \/ Exists (fun k => ~ is_timestamp k) ks.
Proof.
  induction ks as [|k ks [IH | IH]].
  - left. constructor.
  - destruct k as [| bb | n | t | items | fields];
      try (right; apply Exists_cons_hd; intros [t' E]; discriminate E).
    left. constructor; [exists t; reflexivity | exact IH].
  - right. apply Exists_cons_tl. exact IH.
Qed.

Lemma select_raises (test : json -> result bool) (ks : list json) :
  (forall t, exists b, test (JStr t) = Done b) ->
  (forall k, ~ is_timestamp k -> test k = Raised TypeError) ->
  Exists (fun k => ~ is_timestamp k) ks ->
  select test ks = Raised TypeError.
Proof.
  intros Hs Hn H. induction H as [k ks Hk | k ks _ IH]; simpl.
  - rewrite (Hn k Hk). reflexivity.
  - destruct k as [| bb | n | t | items | fields];
      try (rewrite Hn; [reflexivity | intros [t' E]; discriminate E]).
    destruct (Hs t) as [b Hb]. rewrite Hb. simpl. rewrite IH. destruct b; reflexivity.
Qed.

Lemma le_str_non_timestamp (bound : string) (k : json) :
  ~ is_timestamp k -> le_str bound k = Raised TypeError.
Proof.
  intros H. destruct k as [| bb | n | t | items | fields]; try reflexivity.
  exfalso. apply H. exists t. reflexivity.
Qed.

(** X6.  The chart step raises exactly when some key of the series is not
    a string, and what it raises is then a [TypeError]: the aggregation
    accepts a reading whose [dateTime] is null, a number or a boolean, and
    the comparison with now fails on it. *)
Theorem traces_raise_on_non_string_key :
  forall (aqi_results : pydict) (now_str : string),
    (Exists (fun k => ~ is_timestamp k) (keys aqi_results) ->
     make_traces aqi_results now_str = Raised TypeError)
    /\ (forall e,
           make_traces aqi_results now_str = Raised e ->
           e = TypeError /\ Exists (fun k => ~ is_timestamp k) (keys aqi_results)).
Proof.
  intros d now_str.
  assert (Hraise : Exists (fun k => ~ is_timestamp k) (keys d) ->
                   make_traces d now_str = Raised TypeError).
  { intros H. unfold make_traces, trace.
    rewrite (select_raises (le_str now_str) (keys d)); try assumption.
    - reflexivity.
    - intros t. eexists; reflexivity.
    - apply le_str_non_timestamp. }
  split; [exact Hraise|].
  intros e He. destruct (timestamps_or_not (keys d)) as [Hall | Hex].
  - exfalso. unfold make_traces in He.
    destruct (trace_total (le_str now_str) d) as [o Ho];
      [intros t; eexists; reflexivity | exact Hall |].
    destruct (trace_total (ge_str now_str) d) as [f Hf];
      [intros t; eexists; reflexivity | exact Hall |].
    rewrite Ho, Hf in He. discriminate He.
  - rewrite (Hraise Hex) in He. inversion He; subst. split; [reflexivity | exact Hex].
Qed.

Lemma traces_raise_on_non_string_key_witness :
  make_traces [(JStr t13, JNum 60); (JNull, JNum 50)] "2024-06-01T12:30:00Z"
  = Raised TypeError.
Proof.
  apply (proj1 (traces_raise_on_non_string_key
                  [(JStr t13, JNum 60); (JNull, JNum 50)] "2024-06-01T12:30:00Z")).
  apply Exists_cons_tl. apply Exists_cons_hd. intros [t E]. discriminate E.
Defined.

Example null_timestamp_passes_aggregation :
  exists d w,
    aggregate springfield
      [ok (forecast_body [hour t13 60]);
       ok (JObj [("dateTime", JNull); ("indexes", JArr [JObj [("aqi", JNum 50)]])]);
       ok (history_body [hour t11 45])]
    = Some (Done (d, w))
    /\ make_traces d (now springfield) = Raised TypeError.
Proof. do 2 eexists. split; reflexivity. Qed.

(** ** The pagination loop: no bound, and what each call carries *)

(** X7.  The loop has no bound on the number of pages: over any finite
    sequence of well-formed pages that all carry a continuation token, it
    has asked for yet another page and has not returned. *)
Theorem pagination_has_no_cap :
  forall (l : loop) (s : site) (pages tokens : list json)
         (rss : list (list (json * json))) (d : pydict) (sent0 : list request),
    Forall2 (fun b token => py_getitem b "nextPageToken" = Done token) pages tokens ->
    emits (loop_readings l) pages rss ->
    run_loop l s d (map ok pages) sent0 = None.
Proof.
  intros l s pages tokens rss d sent0 Ht. unfold run_loop.
  generalize (loop_data l s) as data. revert rss d sent0.
  induction Ht as [|b t pages tokens Hb Ht IH]; intros rss d sent0 data He.
  - reflexivity.
  - inversion He as [|b' rs l1 l2 Hr He']; subst. simpl.
    rewrite (turn_more (loop_page l) (loop_readings l) (loop_page_merges l)
               b t rs data d Hb Hr).
    apply (IH l2 _ _ _ He').
Qed.

Lemma pagination_has_no_cap_witness :
  run_loop HistoryLoop springfield []
    (map ok [with_token "p2" (history_body [hour t10 40]);
             with_token "p2" (history_body [hour t10 40])]) []
  = None.
Proof.
  refine (pagination_has_no_cap HistoryLoop springfield
            [with_token "p2" (history_body [hour t10 40]);
             with_token "p2" (history_body [hour t10 40])]
            [JStr "p2"; JStr "p2"]
            [[(JStr t10, JNum 40)]; [(JStr t10, JNum 40)]] [] [] _ _).
  - constructor; [reflexivity|]. constructor; [reflexivity|]. constructor.
  - constructor; [reflexivity|]. constructor; [reflexivity|]. constructor.
Defined.

Lemma field_set_other {A : Type} (k k0 : string) (v : A) (fields : list (string * A)) :
  k <> k0 -> field k (field_set k0 v fields) = field k fields.
Proof.
  intros Hk. induction fields as [|[k' v'] fields IH]; simpl.
  - destruct (String.eqb k0 k) eqn:E; [|reflexivity].
    apply String.eqb_eq in E. subst. contradiction.
  - destruct (String.eqb k' k0) eqn:E0; simpl.
    + destruct (String.eqb k' k) eqn:E; [|reflexivity].
      apply String.eqb_eq in E0. apply String.eqb_eq in E. subst. contradiction.
    + rewrite IH. reflexivity.
Qed.

Lemma payloads_fields (tokens : list json) :
  forall (data p : list (string * json)),
    In p (payloads data tokens) ->
    forall k, k <> "pageToken" -> field k p = field k data.
Proof.
  induction tokens as [|t tokens IH]; intros data p Hin k Hk; simpl in Hin.
  - destruct Hin as [E | []]. subst. reflexivity.
  - destruct Hin as [E | Hin].
    + subst. reflexivity.
    + rewrite (IH _ p Hin k Hk). apply field_set_other. exact Hk.
Qed.

(** X8.  Every call a completed pagination loop has issued goes to the
    URL of its lookup, the first with the initial request body, and every
    one with the fields of that body unchanged: the location, the window
    and the page size are the same in each call, only [pageToken] is added
    or replaced. *)
Theorem pagination_keeps_request_fields :
  forall (l : loop) (s : site) (d d' : pydict) (pend : list reply)
         (sent0 : list request) (w' : net),
    run_loop l s d pend sent0 = Some (Done (d', w')) ->
    exists calls,
      sent w' = sent0 ++ calls
      /\ nth_error calls 0 = Some (call (lookup_url s (loop_time l)) (loop_data l s))
      /\ Forall (fun r =>
                   url r = lookup_url s (loop_time l)
                   /\ forall k, k <> "pageToken" ->
                                field k (data r) = field k (loop_data l s))
           calls.
Proof.
  intros l s d d' pend sent0 w' H. unfold run_loop in H.
  destruct (paginate_inv _ _ (loop_page_merges l) _ _ _ _ _ _ _ H)
    as [pages [tokens [rss [Ep [Hp [He [Ed Es]]]]]]].
  exists (map (call (lookup_url s (loop_time l))) (payloads (loop_data l s) tokens)).
  split; [exact Es|]. split.
  - destruct tokens; reflexivity.
  - apply Forall_forall. intros r Hin.
    apply in_map_iff in Hin. destruct Hin as [p [E Hin]]. subst r. simpl.
    split; [reflexivity|].
    intros k Hk. apply (payloads_fields tokens _ p Hin k Hk).
Qed.

Lemma pagination_keeps_request_fields_witness :
  exists calls,
    map (call (lookup_url springfield "history"))
      (payloads (history_data springfield) [JStr "p2"; JStr "p3"])
    = [] ++ calls
    /\ nth_error calls 0
       = Some (call (lookup_url springfield "history") (history_data springfield))
    /\ Forall (fun r =>
                 url r = lookup_url springfield "history"
                 /\ forall k, k <> "pageToken" ->
                              field k (data r) = field k (history_data springfield))
         calls.
Proof.
  apply (pagination_keeps_request_fields HistoryLoop springfield []
           [(JStr t10, JNum 40); (JStr t11, JNum 45); (JStr t12, JNum 48)]
           (map ok history_three_pages) []
           {| pending := [];
              sent := map (call (lookup_url springfield "history"))
                        (payloads (history_data springfield) [JStr "p2"; JStr "p3"]) |}).
  reflexivity.
Defined.

(** ** The escaped address of the map URL *)

Example quote_spec_address :
  quote "123 Main St, Springfield" = "123%20Main%20St%2C%20Springfield".
Proof. reflexivity. Qed.

Example quote_ampersand_and_accent :
  quote (String (ascii_of_nat 233) "&q=x") = "%C3%A9%26q%3Dx".
Proof. reflexivity. Qed.

Lemma quote_char_url (c : ascii) :
  forallb url_char (list_ascii_of_string (quote_char c)) = true.
Proof.
  destruct c as [[|] [|] [|] [|] [|] [|] [|] [|]]; vm_compute; reflexivity.
Qed.

Lemma list_ascii_app (a b : string) :
  list_ascii_of_string (a ++ b) = list_ascii_of_string a ++ list_ascii_of_string b.
Proof.
  induction a as [|c a IH]; simpl; [reflexivity | rewrite IH; reflexivity].
Qed.

Lemma quote_url (s : string) :
  forallb url_char (list_ascii_of_string (quote s)) = true.
Proof.
  induction s as [|c s IH]; simpl.
  - reflexivity.
  - rewrite list_ascii_app, forallb_app, quote_char_url, IH. reflexivity.
Qed.

(** X9.  The map URL is built for an address that is a string, and only
    for one; the address stands in it between [&q=] and [&zoom=], escaped
    so that it consists of letters, digits, [_.-~] and [%] only: no
    character of the address can close the parameter or open another one. *)
Theorem iframe_address_is_escaped :
  forall (key : string) (address : pyval),
    (forall u, generate_iframe key address = Done u ->
               exists a,
                 address = PStr a
                 /\ u = ("https://www.google.com/maps/embed/v1/place?key=" ++ key
                         ++ "&q=" ++ quote a ++ "&zoom=11&maptype=satellite")%string
                 /\ forallb url_char (list_ascii_of_string (quote a)) = true
                 /\ forall c, In c (list_ascii_of_string (quote a)) ->
                              c <> "&"%char /\ c <> "="%char /\ c <> "#"%char
                              /\ c <> " "%char /\ c <> "/"%char /\ c <> "?"%char)
    /\ ((forall a, address <> PStr a) ->
        generate_iframe key address = Raised TypeError).
Proof.
  intros key address. split.
  - intros u H. destruct address as [| a | items | attrs]; simpl in H; try discriminate.
    inversion H; subst u. exists a.
    split; [reflexivity|]. split; [reflexivity|]. split; [apply quote_url|].
    intros c Hin.
    pose proof (quote_url a) as Hq. rewrite forallb_forall in Hq.
    specialize (Hq c Hin).
    repeat split; intros E; subst c; vm_compute in Hq; discriminate Hq.
  - intros Hn. destruct address as [| a | items | attrs]; try reflexivity.
    exfalso. apply (Hn a). reflexivity.
Qed.

Lemma iframe_address_is_escaped_witness :
  exists a,
    PStr "123 Main St, Springfield" = PStr a
    /\ ("https://www.google.com/maps/embed/v1/place?key=KEY&q=123%20Main%20St%2C%20Springfield&zoom=11&maptype=satellite")%string
       = ("https://www.google.com/maps/embed/v1/place?key=" ++ "KEY"
          ++ "&q=" ++ quote a ++ "&zoom=11&maptype=satellite")%string
    /\ forallb url_char (list_ascii_of_string (quote a)) = true
    /\ forall c, In c (list_ascii_of_string (quote a)) ->
                 c <> "&"%char /\ c <> "="%char /\ c <> "#"%char
                 /\ c <> " "%char /\ c <> "/"%char /\ c <> "?"%char.
Proof.
  apply (proj1 (iframe_address_is_escaped "KEY" (PStr "123 Main St, Springfield"))).
  reflexivity.
Defined.

Lemma unquote_bytes_char (c : ascii) (r : string) :
  unquote_bytes (quote_char c ++ r) = utf8 c ++ unquote_bytes r.
Proof.
  destruct c as [[|] [|] [|] [|] [|] [|] [|] [|]]; reflexivity.
Qed.

Lemma utf8_decode_char (c : ascii) (bs : list N) :
  utf8_decode (utf8 c ++ bs) = String c (utf8_decode bs).
Proof.
  destruct c as [[|] [|] [|] [|] [|] [|] [|] [|]]; reflexivity.
Qed.

Lemma unquote_quote (s : string) : unquote (quote s) = s.
Proof.
  unfold unquote. induction s as [|c s IH]; simpl.
  - reflexivity.
  - rewrite unquote_bytes_char, utf8_decode_char, IH. reflexivity.
Qed.

Lemma string_app_inv_head (p a b : string) :
  (p ++ a)%string = (p ++ b)%string -> a = b.
Proof.
  induction p as [|c p IH]; simpl; intros H; [exact H|].
  inversion H. apply IH. assumption.
Qed.

Lemma string_app_inv_tail (a b q : string) :
  (a ++ q)%string = (b ++ q)%string -> a = b.
Proof.
  intros H. apply (f_equal list_ascii_of_string) in H.
  rewrite !list_ascii_app in H. apply app_inv_tail in H.
  rewrite <- (string_of_list_ascii_of_string a), <- (string_of_list_ascii_of_string b), H.
  reflexivity.
Qed.

Lemma iframe_url_inj (key qa qb : string) :
  ("https://www.google.com/maps/embed/v1/place?key=" ++ key
   ++ "&q=" ++ qa ++ "&zoom=11&maptype=satellite")%string
  = ("https://www.google.com/maps/embed/v1/place?key=" ++ key
     ++ "&q=" ++ qb ++ "&zoom=11&maptype=satellite")%string ->
  qa = qb.
Proof.
  intros E.
  apply string_app_inv_head in E. apply string_app_inv_head in E.
  apply string_app_inv_head in E. apply string_app_inv_tail in E. exact E.
Qed.

(** X10.  Escaping loses nothing: decoding the escaped address gives the
    address back, so two different addresses never give the same map
    URL. *)
Theorem quote_is_injective :
  (forall s, unquote (quote s) = s)
  /\ (forall s t, quote s = quote t -> s = t)
  /\ (forall key a b u,
         generate_iframe key (PStr a) = Done u ->
         generate_iframe key (PStr b) = Done u ->
         a = b).
Proof.
  assert (Hinj : forall s t, quote s = quote t -> s = t).
  { intros s t H. rewrite <- (unquote_quote s), <- (unquote_quote t), H. reflexivity. }
  split; [exact unquote_quote|]. split; [exact Hinj|].
  intros key a b u Ha Hb. unfold generate_iframe in Ha, Hb. rewrite <- Hb in Ha.
  apply Hinj. apply (iframe_url_inj key).
  congruence.
Qed.

Lemma quote_is_injective_witness : "9 Elm St" = "9 Elm St".
Proof.
  apply (proj1 (proj2 quote_is_injective) "9 Elm St" "9 Elm St").
  reflexivity.
Defined.

(** ** The session helpers *)

Lemma field_del_gone {A : Type} (k : string) (fields : list (string * A)) :
  field k (field_del k fields) = None.
Proof.
  induction fields as [|[k' v] fields IH]; simpl.
  - reflexivity.
  - destruct (String.eqb k' k) eqn:E; [exact IH|]. simpl. rewrite E. exact IH.
Qed.

Lemma field_del_other {A : Type} (k k0 : string) (fields : list (string * A)) :
  k <> k0 -> field k (field_del k0 fields) = field k fields.
Proof.
  intros Hk. induction fields as [|[k' v] fields IH]; simpl.
  - reflexivity.
  - destruct (String.eqb k' k0) eqn:E0.
    + destruct (String.eqb k' k) eqn:E; [|exact IH].
      apply String.eqb_eq in E0. apply String.eqb_eq in E. subst. contradiction.
    + simpl. rewrite IH. reflexivity.
Qed.

(** X11.  The stored state decides which client [get_smart] builds: after
    [save_state] it is built from the saved state when that state is true,
    and from the application settings when the saved state is empty; after
    [reset] it is built from the settings; [reset] on a session without a
    state leaves the session as it is; and neither helper touches another
    key of the session. *)
Theorem session_state_round_trip :
  forall (session : flask_session) (state : json),
    get_smart (save_state state session)
    = (if json_truthy state then WithState state else WithSettings)
    /\ get_smart (reset session) = WithSettings
    /\ get_smart (reset (save_state state session)) = WithSettings
    /\ (field "state" session = None -> reset session = session)
    /\ (forall k, k <> "state" ->
                  field k (save_state state session) = field k session
                  /\ field k (reset session) = field k session).
Proof.
  intros session state.
  assert (Hreset : forall s : flask_session, get_smart (reset s) = WithSettings).
  { intros s. unfold get_smart, reset.
    destruct (field "state" s) eqn:E.
    - rewrite field_del_gone. reflexivity.
    - rewrite E. reflexivity. }
  split; [|split; [|split; [|split]]].
  - unfold get_smart, save_state. rewrite field_set_get. reflexivity.
  - apply Hreset.
  - apply Hreset.
  - intros H. unfold reset. rewrite H. reflexivity.
  - intros k Hk. split.
    + apply field_set_other. exact Hk.
    + unfold reset. destruct (field "state" session); [|reflexivity].
      apply field_del_other. exact Hk.
Qed.

Lemma session_state_round_trip_witness :
  reset [("user", JStr "ann")] = [("user", JStr "ann")].
Proof.
  apply (proj1 (proj2 (proj2 (proj2
           (session_state_round_trip [("user", JStr "ann")] JNull))))).
  reflexivity.
Defined.

(** ** Encounter and medication rows *)

(** One turn of the loop over [encounter.type]. *)
Lemma type_loop_writes (c v : pyval) (rest : list pyval) (d : pyval) :
  concept_writes c v -> type_loop (c :: rest) d = type_loop rest v.
Proof.
  intros [Ht | [Hnt [coding [before [cd [after [Hc [Hi [Hb Hd]]]]]]]]]; simpl.
  - rewrite (getattr_hasattr _ _ _ Ht), Ht. reflexivity.
  - rewrite Hnt, (getattr_hasattr _ _ _ Hc), Hc. simpl. rewrite Hi. simpl.
    rewrite (first_display_found before after cd v d Hb Hd). reflexivity.
Qed.

Lemma type_loop_passes (c : pyval) (rest : list pyval) (d : pyval) :
  concept_silent c -> type_loop (c :: rest) d = type_loop rest d.
Proof.
  intros [Hnt [Hnc | [coding [codings [Hc [Hi Hn]]]]]]; simpl.
  - rewrite Hnt, Hnc. reflexivity.
  - rewrite Hnt, (getattr_hasattr _ _ _ Hc), Hc. simpl. rewrite Hi. simpl.
    rewrite (first_display_none codings d Hn). reflexivity.
Qed.

Lemma type_loop_reach (before rest : list pyval) :
  Forall (fun c => concept_silent c \/ exists v, concept_writes c v) before ->
  forall d, exists d', type_loop (before ++ rest) d = type_loop rest d'.
Proof.
  intros H. induction H as [|c before Hc _ IH]; intros d.
  - exists d. reflexivity.
  - destruct Hc as [Hs | [v Hw]].
    + change ((c :: before) ++ rest) with (c :: before ++ rest).
      rewrite (type_loop_passes c _ d Hs). apply IH.
    + change ((c :: before) ++ rest) with (c :: before ++ rest).
      rewrite (type_loop_writes c v _ d Hw). apply IH.
Qed.

Lemma type_loop_silent (after : list pyval) (d : pyval) :
  Forall concept_silent after -> type_loop after d = Done d.
Proof.
  intros H. induction H as [|c after Hc _ IH].
  - reflexivity.
  - rewrite (type_loop_passes c after d Hc). exact IH.
Qed.

(** X12.  An encounter with neither a [type] nor a [class] attribute makes
    the table builder raise, even when its service type has already given
    a description.  When the encounter has a list of type concepts, each
    concept in turn may overwrite the description: a concept with a [text]
    attribute writes the value of that attribute, [None] included; a
    concept without one writes the display of the first of its codings
    that has a [display] attribute; any other concept writes nothing.  The
    description is what the last concept that writes has written, whatever
    the service type and the earlier concepts gave, and it is the
    description of the service type when no concept writes.  So on
    concepts that all have a [text] attribute it is the [text] attribute
    of the last concept.  A [type] attribute that holds [None] makes the
    builder raise a [TypeError]. *)
Theorem encounter_description_resolution :
  forall encounter : pyval,
    (forall d,
        service_type_description encounter = Done d ->
        hasattr encounter "type" = false ->
        hasattr encounter "class" = false ->
        encounter_description encounter
        = Raised (PyException
                    "An Encounter resource has no human readable element to serve as a description"))
    /\ (forall d before cc after v,
           service_type_description encounter = Done d ->
           getattr encounter "type" = Done (PList (before ++ cc :: after)) ->
           Forall (fun c => concept_silent c \/ exists v', concept_writes c v') before ->
           concept_writes cc v ->
           Forall concept_silent after ->
           encounter_description encounter = Done v)
    /\ (forall d concepts,
           service_type_description encounter = Done d ->
           getattr encounter "type" = Done (PList concepts) ->
           Forall concept_silent concepts ->
           encounter_description encounter = Done d)
    /\ (forall d before cc t,
           service_type_description encounter = Done d ->
           getattr encounter "type" = Done (PList (before ++ [cc])) ->
           Forall (fun c => hasattr c "text" = true) before ->
           getattr cc "text" = Done t ->
           encounter_description encounter = Done t)
    /\ (forall d,
           service_type_description encounter = Done d ->
           getattr encounter "type" = Done PNone ->
           encounter_description encounter = Raised TypeError).
Proof.
  intros encounter.
  assert (Hlast : forall d before cc after v,
    service_type_description encounter = Done d ->
    getattr encounter "type" = Done (PList (before ++ cc :: after)) ->
    Forall (fun c => concept_silent c \/ exists v', concept_writes c v') before ->
    concept_writes cc v ->
    Forall concept_silent after ->
    encounter_description encounter = Done v).
  { intros d before cc after v Hd Hty Hb Hcc Ha.
    unfold encounter_description. rewrite Hd. simpl.
    rewrite (getattr_hasattr _ _ _ Hty), Hty. simpl.
    destruct (type_loop_reach before (cc :: after) Hb d) as [d' Hd'].
    rewrite Hd'. rewrite (type_loop_writes cc v after d' Hcc).
    apply type_loop_silent. exact Ha. }
  split; [|split; [|split; [|split]]].
  - intros d Hd Ht Hc. unfold encounter_description. rewrite Hd. simpl.
    rewrite Ht, Hc. reflexivity.
  - exact Hlast.
  - intros d concepts Hd Hty Hs.
    unfold encounter_description. rewrite Hd. simpl.
    rewrite (getattr_hasattr _ _ _ Hty), Hty. simpl.
    apply type_loop_silent. exact Hs.
  - intros d before cc t Hd Hty Hb Hcc.
    apply (Hlast d before cc [] t Hd Hty).
    + eapply Forall_impl; [|exact Hb].
      intros c Hc. right. destruct (hasattr_getattr c "text" Hc) as [v Hv].
      exists v. left. exact Hv.
    + left. exact Hcc.
    + constructor.
  - intros d Hd Hty. unfold encounter_description. rewrite Hd. simpl.
    rewrite (getattr_hasattr _ _ _ Hty), Hty. reflexivity.
Qed.

Lemma encounter_description_resolution_witness :
  encounter_description encounter_service_only
  = Raised (PyException
              "An Encounter resource has no human readable element to serve as a description")
  /\ encounter_description encounter_text_then_coded = Done (PStr "ambulatory").
Proof.
  split.
  - apply (proj1 (encounter_description_resolution encounter_service_only)
             (PStr "Cardiology")); reflexivity.
  - refine (proj1 (proj2 (encounter_description_resolution encounter_text_then_coded))
              (PStr "Cardiology") [concept_text "Consultation"]
              (concept_coded "ambulatory")
              [PObj [("coding", PList [PObj [("code", PStr "x")]])]]
              (PStr "ambulatory") _ _ _ _ _).
    + reflexivity.
    + reflexivity.
    + constructor; [|constructor]. right. exists (PStr "Consultation"). left. reflexivity.
    + right. split; [reflexivity|].
      exists (PList [PObj [("code", PStr "AMB")];
                     PObj [("code", PStr "AMB"); ("display", PStr "ambulatory")]]),
             [PObj [("code", PStr "AMB")]],
             (PObj [("code", PStr "AMB"); ("display", PStr "ambulatory")]),
             [].
      split; [reflexivity|]. split; [reflexivity|].
      split; [constructor; [reflexivity | constructor] | reflexivity].
    + constructor; [|constructor]. split; [reflexivity|]. right.
      exists (PList [PObj [("code", PStr "x")]]), [PObj [("code", PStr "x")]].
      split; [reflexivity|]. split; [reflexivity|].
      constructor; [reflexivity | constructor].
Defined.

Example encounter_last_type_text :
  encounter_description (encounter_of ["Consultation"; "Follow-up"] "finished")
  = Done (PStr "Follow-up").
Proof. reflexivity. Qed.

(** On type concepts as the FHIR client builds them the [text] attribute
    of the last one is the description, also when it holds [None] and an
    earlier concept had a text. *)
Example encounter_last_text_none :
  encounter_description
    (PObj [("serviceType", PNone);
           ("type", PList [PObj [("text", PStr "Consultation"); ("coding", PNone)];
                           PObj [("text", PNone);
                                 ("coding", PList [PObj [("display", PStr "ambulatory")]])]]);
           ("status", PStr "finished")])
  = Done PNone.
Proof. reflexivity. Qed.

(** X13.  The name of a medication administration: the text of its
    [medicationCodeableConcept] when that has one; the empty name, with no
    error, when the resource has a [medicationCodeableConcept] attribute
    whose value has neither a text nor a coding (as when the FHIR client
    holds [None] there), in which case [medicationReference] is never read;
    the display of [medicationReference] only when the resource has no
    [medicationCodeableConcept] attribute at all; and an error when it has
    neither attribute. *)
Theorem medication_name_resolution :
  forall m : pyval,
    (forall cc text,
        getattr m "medicationCodeableConcept" = Done cc ->
        getattr cc "text" = Done text ->
        medication_administration_name m = Done text)
    /\ (forall cc,
           getattr m "medicationCodeableConcept" = Done cc ->
           hasattr cc "text" = false ->
           hasattr cc "coding" = false ->
           medication_administration_name m = Done (PStr ""))
    /\ (forall ref,
           hasattr m "medicationCodeableConcept" = false ->
           getattr m "medicationReference" = Done ref ->
           medication_administration_name m = getattr ref "display")
    /\ (hasattr m "medicationCodeableConcept" = false ->
        hasattr m "medicationReference" = false ->
        medication_administration_name m
        = Raised (PyException
                    "A medication resource has no human readable 'medication[x]' element")).
Proof.
  intros m. unfold medication_administration_name. repeat split.
  - intros cc text Hcc Ht.
    rewrite (getattr_hasattr _ _ _ Hcc), Hcc. simpl.
    rewrite (getattr_hasattr _ _ _ Ht). exact Ht.
  - intros cc Hcc Ht Hc.
    rewrite (getattr_hasattr _ _ _ Hcc), Hcc. simpl. rewrite Ht, Hc. reflexivity.
  - intros ref Hn Hr.
    rewrite Hn, (getattr_hasattr _ _ _ Hr), Hr. reflexivity.
  - intros Hn Hr. rewrite Hn, Hr. reflexivity.
Qed.

Lemma medication_name_resolution_witness :
  medication_administration_name
    (PObj [("medicationCodeableConcept", PNone);
           ("medicationReference", PObj [("display", PStr "Salbutamol inhaler")])])
  = Done (PStr "").
Proof.
  apply (proj1 (proj2 (medication_name_resolution
           (PObj [("medicationCodeableConcept", PNone);
                  ("medicationReference", PObj [("display", PStr "Salbutamol inhaler")])])))
           PNone); reflexivity.
Defined.

Example medication_by_reference_name :
  medication_administration_name medication_by_reference
  = Done (PStr "Salbutamol inhaler").
Proof. reflexivity. Qed.

(** ** Sorting the rows *)

Lemma compare_refl (s : string) : String.compare s s = Eq.
Proof.
  pose proof (String.compare_antisym s s) as H.
  destruct (String.compare s s); simpl in H; try discriminate; reflexivity.
Qed.

Lemma ltb_irrefl (s : string) : String.ltb s s = false.
Proof. unfold String.ltb. rewrite compare_refl. reflexivity. Qed.

Lemma ltb_leb (a b : string) : String.ltb a b = true -> String.leb a b = true.
Proof.
  unfold String.ltb, String.leb. destruct (String.compare a b); try discriminate; reflexivity.
Qed.

Lemma not_ltb_leb (a b : string) : String.ltb b a = false -> String.leb a b = true.
Proof.
  unfold String.ltb, String.leb. rewrite (String.compare_antisym a b).
  destruct (String.compare b a); simpl; try discriminate; reflexivity.
Qed.

Section StableSort.
Variable A : Type.
Variable key : A -> string.

Lemma insert_row_perm (a : A) (l : list A) : Permutation (a :: l) (insert_row key a l).
Proof.
  induction l as [|b l IH]; simpl.
  - apply Permutation_refl.
  - destruct (String.ltb (key b) (key a)).
    + apply perm_trans with (b :: a :: l); [apply perm_swap|].
      apply perm_skip. exact IH.
    + apply Permutation_refl.
Qed.

Lemma stable_sort_perm (rows : list A) : Permutation rows (stable_sort key rows).
Proof.
  unfold stable_sort. induction rows as [|a rows IH]; simpl.
  - apply perm_nil.
  - apply perm_trans with (a :: fold_right (insert_row key) [] rows).
    + apply perm_skip. exact IH.
    + apply insert_row_perm.
Qed.

Lemma insert_row_sorted (a : A) (l : list A) :
  Sorted (fun x y => String.leb (key x) (key y) = true) l ->
  Sorted (fun x y => String.leb (key x) (key y) = true) (insert_row key a l).
Proof.
  intros H. induction H as [|b l Hs IH Hhd]; simpl.
  - constructor; constructor.
  - destruct (String.ltb (key b) (key a)) eqn:E.
    + constructor; [exact IH|].
      destruct l as [|c l]; simpl.
      * constructor. apply ltb_leb. exact E.
      * destruct (String.ltb (key c) (key a)).
        -- inversion Hhd; subst. constructor. assumption.
        -- constructor. apply ltb_leb. exact E.
    + constructor; [constructor; assumption|].
      constructor. apply not_ltb_leb. exact E.
Qed.

Lemma stable_sort_sorted (rows : list A) :
  Sorted (fun x y => String.leb (key x) (key y) = true) (stable_sort key rows).
Proof.
  unfold stable_sort. induction rows as [|a rows IH]; simpl.
  - constructor.
  - apply insert_row_sorted. exact IH.
Qed.

Lemma filter_insert_row (k : string) (a : A) (l : list A) :
  filter (fun r => String.eqb (key r) k) (insert_row key a l)
  = filter (fun r => String.eqb (key r) k) (a :: l).
Proof.
  induction l as [|b l IH]; simpl.
  - reflexivity.
  - destruct (String.ltb (key b) (key a)) eqn:E; simpl; [|reflexivity].
    rewrite IH. simpl.
    destruct (String.eqb (key b) k) eqn:Eb; [|reflexivity].
    destruct (String.eqb (key a) k) eqn:Ea; [|reflexivity].
    apply String.eqb_eq in Eb. apply String.eqb_eq in Ea.
    rewrite Eb, Ea, ltb_irrefl in E. discriminate.
Qed.

Lemma stable_sort_stable (k : string) (rows : list A) :
  filter (fun r => String.eqb (key r) k) (stable_sort key rows)
  = filter (fun r => String.eqb (key r) k) rows.
Proof.
  unfold stable_sort. induction rows as [|a rows IH]; simpl.
  - reflexivity.
  - rewrite filter_insert_row. simpl. rewrite IH. reflexivity.
Qed.

Lemma stable_sort_stably_sorted (rows : list A) :
  stably_sorted key rows (stable_sort key rows).
Proof.
  split; [apply stable_sort_perm|]. split; [apply stable_sort_sorted|].
  intros k. apply stable_sort_stable.
Qed.
End StableSort.

Lemma sort_rows_done {A : Type} (key : A -> pyval) (rows sorted : list A) :
  sort_rows key rows = Some (Done sorted) ->
  stably_sorted (fun r => str_of (key r)) rows sorted.
Proof.
  unfold sort_rows. destruct rows as [|a [|b rows]]; intros H.
  - inversion H; subst. split; [apply perm_nil|]. split; [constructor | reflexivity].
  - inversion H; subst. split; [apply Permutation_refl|].
    split; [constructor; constructor | reflexivity].
  - destruct (forallb (fun r => is_pstr (key r)) (a :: b :: rows)).
    + inversion H; subst. apply stable_sort_stably_sorted.
    + destruct (forallb (fun r => is_plist (key r)) (a :: b :: rows)); discriminate.
Qed.

(** X14.  Whenever the table builder returns, each of its three tables
    holds exactly the rows built from its resources, arranged by status as
    a stable sort arranges them: ascending by the status string, rows of
    equal status in the order of the resources. *)
Theorem tables_sorted_by_status :
  forall (conditions encounters medication_administrations : list pyval)
         (c : list condition_row) (e : list encounter_row) (m : list medication_row),
    generate_clinical_details_table conditions encounters medication_administrations
    = Some (Done (c, e, m)) ->
    exists rc re rm,
      health_conditions_list conditions = Done rc
      /\ for_list encounter_row_of encounters = Done re
      /\ for_list medication_row_of medication_administrations = Done rm
      /\ stably_sorted (fun r => str_of (row_clinical_status r)) rc c
      /\ stably_sorted (fun r => str_of (row_encounter_status r)) re e
      /\ stably_sorted (fun r => str_of (row_medication_administration_status r)) rm m.
Proof.
  intros conditions encounters meds c e m H.
  unfold generate_clinical_details_table in H.
  destruct (health_conditions_list conditions) as [rc|ex]; [|discriminate].
  destruct (sort_rows row_clinical_status rc) as [[c'|ex]|] eqn:Sc; try discriminate.
  destruct (for_list encounter_row_of encounters) as [re|ex]; [|discriminate].
  destruct (sort_rows row_encounter_status re) as [[e'|ex]|] eqn:Se; try discriminate.
  destruct (for_list medication_row_of meds) as [rm|ex]; [|discriminate].
  destruct (sort_rows row_medication_administration_status rm) as [[m'|ex]|] eqn:Sm;
    try discriminate.
  inversion H; subst c' e' m'.
  exists rc, re, rm.
  split; [reflexivity|]. split; [reflexivity|]. split; [reflexivity|].
  split; [apply (sort_rows_done _ _ _ Sc)|].
  split; [apply (sort_rows_done _ _ _ Se) | apply (sort_rows_done _ _ _ Sm)].
Qed.

Lemma tables_sorted_by_status_witness :
  exists rc re rm,
    health_conditions_list sample_conditions = Done rc
    /\ for_list encounter_row_of [] = Done re
    /\ for_list medication_row_of [medication_by_reference] = Done rm
    /\ stably_sorted (fun r => str_of (row_clinical_status r)) rc sample_condition_rows
    /\ stably_sorted (fun r => str_of (row_encounter_status r)) re []
    /\ stably_sorted (fun r => str_of (row_medication_administration_status r)) rm
         [{| row_medication_administration_name := PStr "Salbutamol inhaler";
             row_medication_administration_status := PStr "completed" |}].
Proof.
  apply (tables_sorted_by_status sample_conditions [] [medication_by_reference]).
  reflexivity.
Defined.

(** Two encounters built by the FHIR client, one without a status: the
    attribute exists and holds [None], the default "Unknown" does not
    apply, and the sort raises. *)
Example encounter_without_status_breaks_sort :
  generate_clinical_details_table []
    [encounter_of ["Consultation"] "finished";
     PObj [("type", PList [concept_text "Follow-up"]); ("status", PNone)]]
    []
  = Some (Raised TypeError).
Proof. reflexivity. Qed.

(** ** The callback as a whole *)

Lemma and_then_done {A B : Type} (c : result A) (k : A -> option (result B)) (b : B) :
  and_then c k = Some (Done b) -> exists a, c = Done a /\ k a = Some (Done b).
Proof.
  destruct c as [a|e]; simpl; intros H.
  - exists a. split; [reflexivity | exact H].
  - discriminate H.
Qed.

Lemma callback_prompt_not_done (fmt : prompt_arg -> string) (patient : pyval)
    (conds : list json) (now_s : string) (d : pydict) (prompt : string) :
  callback_prompt fmt patient conds now_s d <> Done prompt.
Proof.
  unfold callback_prompt. intros H.
  bind_inv H as gender Hg. bind_inv H as birthDate Hb. bind_inv H as iso Hi.
  unfold generate_prompt, py_call in H. simpl in H. discriminate H.
Qed.

(** X15.  The callback never returns its five outputs: whatever the
    patient, the conditions, the geocoder, the air-quality service and the
    text model answer, every run ends in an exception or is still waiting
    for a page, because the prompt step that precedes the return cannot
    complete. *)
Theorem handle_callback_never_returns :
  forall (c : collaborators) (out : outputs),
    handle_callback c <> Some (Done out).
Proof.
  intros c out H. unfold handle_callback in H.
  apply and_then_done in H. destruct H as [patient [_ H]].
  apply and_then_done in H. destruct H as [conditions [_ H]].
  apply and_then_done in H. destruct H as [[[[name sex] birthday] address] [_ H]].
  apply and_then_done in H. destruct H as [[current all_conditions] [_ H]].
  apply and_then_done in H. destruct H as [geocode_result [_ H]].
  apply and_then_done in H. destruct H as [lat [_ H]].
  apply and_then_done in H. destruct H as [lng [_ H]].
  apply and_then_done in H. destruct H as [maps_iframe [_ H]].
  match type of H with
  | match ?agg with _ => _ end = _ => destruct agg as [[[aqi w]|e]|]
  end; try discriminate.
  apply and_then_done in H. destruct H as [figure [_ H]].
  apply and_then_done in H. destruct H as [u [_ H]].
  apply and_then_done in H. destruct H as [prompt [Hp _]].
  apply (callback_prompt_not_done _ _ _ _ _ _ Hp).
Qed.

Example callback_with_every_answer :
  handle_callback (all_answer patient_usual_only replies_plain)
  = Some (Raised TypeError).
Proof. reflexivity. Qed.

(** X16.  How the callback's early failures surface: a failed patient
    read raises what the read raised; a patient with no address attribute
    or an empty address list stops the callback with "No address found for
    the patient."; any exception of the demographics extractor becomes
    "Something went wrong processing the patient's demographics"; any
    exception while the conditions are processed becomes "Something went
    wrong processing the patient's health conditions"; and an address the
    geocoder finds no match for ends the callback with the [IndexError] of
    [geocode_result[0]]. *)
Theorem callback_failures :
  forall c : collaborators,
    (forall e, patient_read c = Raised e -> handle_callback c = Some (Raised e))
    /\ (forall patient conditions,
           patient_read c = Done patient ->
           conditions_read c = Done conditions ->
           hasattr patient "address" = false
           \/ getattr patient "address" = Done (PList []) ->
           handle_callback c
           = Some (Raised (PreventUpdate "No address found for the patient.")))
    /\ (forall patient conditions a addresses e,
           patient_read c = Done patient ->
           conditions_read c = Done conditions ->
           getattr patient "address" = Done (PList (a :: addresses)) ->
           get_patient_demographics patient = Raised e ->
           handle_callback c
           = Some (Raised (PreventUpdate
                             "Something went wrong processing the patient's demographics")))
    /\ (forall patient conditions demographics e,
           patient_read c = Done patient ->
           conditions_read c = Done conditions ->
           callback_demographics patient = Done demographics ->
           callback_conditions c conditions = Raised e ->
           e = PreventUpdate
                 "Something went wrong processing the patient's health conditions"
           /\ handle_callback c = Some (Raised e))
    /\ (forall patient conditions name sex birthday address health,
           patient_read c = Done patient ->
           conditions_read c = Done conditions ->
           callback_demographics patient = Done (name, sex, birthday, address) ->
           callback_conditions c conditions = Done health ->
           geocode c address = Done (JArr []) ->
           handle_callback c = Some (Raised IndexError)).
Proof.
  intros c. unfold handle_callback. repeat split.
  - intros e H. rewrite H. reflexivity.
  - intros patient conditions Hp Hc Ha. rewrite Hp, Hc. simpl.
    unfold callback_demographics. destruct Ha as [Ha | Ha].
    + rewrite Ha. reflexivity.
    + rewrite (getattr_hasattr _ _ _ Ha), Ha. reflexivity.
  - intros patient conditions a addresses e Hp Hc Ha He. rewrite Hp, Hc. simpl.
    unfold callback_demographics.
    rewrite (getattr_hasattr _ _ _ Ha), Ha. simpl. rewrite He. reflexivity.
  - unfold callback_conditions in H2.
    destruct (current <- retrieve_current_health_conditions c conditions ;;
              joined <- join ", " current ;;
              all_health_conditions <- for_list (as_json c) conditions ;;
              Done (joined, all_health_conditions)); [discriminate|].
    inversion H2; reflexivity.
  - rewrite H, H0. simpl. rewrite H1. simpl.
    destruct demographics as [[[name sex] birthday] address].
    rewrite H2. reflexivity.
  - intros patient conditions name sex birthday address health Hp Hc Hd Hh Hg.
    rewrite Hp, Hc. simpl. rewrite Hd. simpl. rewrite Hh. simpl.
    destruct health as [current all_conditions]. rewrite Hg. reflexivity.
Qed.

Lemma callback_failures_witness :
  handle_callback (all_answer patient_two_addresses replies_plain)
  = Some (Raised (PreventUpdate
                    "Something went wrong processing the patient's demographics")).
Proof.
  apply (proj1 (proj2 (proj2 (callback_failures
           (all_answer patient_two_addresses replies_plain))))
           patient_two_addresses [] main_st [elm_st]
           (PyException "Multiple addresses detected!"));
    reflexivity.
Defined.

(** ** Reading every bundle of a search *)

(** X17.  [fetch_all_resources] follows the next links: over a sequence of
    bundles of which every one but the last has a true link of relation
    "next", it reads exactly those bundles, hands each next link to the
    following read, leaves later answers untouched, and returns the
    resources of all the bundles in order. *)
Theorem fetch_reads_every_bundle :
  forall (first : pyval) (bundles links : list pyval) (last_link : pyval)
         (news : list (list pyval)) (rest : list fetched),
    Forall (fun b => truthy b = true) (first :: bundles) ->
    Forall2 (fun b l => bundle_next_link b = Done l) (first :: bundles)
      (links ++ [last_link]) ->
    Forall (fun l => truthy l = true) links ->
    truthy last_link = false ->
    Forall2 (fun b new => bundle_resources b = Done new) (first :: bundles) news ->
    fetch_all_resources (Bundle first :: map Bundle bundles ++ rest)
    = Some (Done (List.concat news,
                  {| bundles_pending := rest; links_read := links |}))
    /\ List.length links = List.length bundles.
Proof.
  intros first bundles links last_link news rest Ht Hl Hlinks Hlast Hn. split.
  - simpl.
    rewrite (bundle_loop_pages bundles links last_link news first [] rest []
               Ht Hl Hlinks Hlast Hn).
    reflexivity.
  - apply Forall2_length in Hl. rewrite length_app in Hl. simpl in Hl. lia.
Qed.

Lemma fetch_reads_every_bundle_witness :
  fetch_all_resources two_bundles
  = Some (Done ([condition_text_and_code; condition_code_only],
                {| bundles_pending := []; links_read := [PStr "Condition?page=2"] |}))
  /\ List.length [PStr "Condition?page=2"] = 1%nat.
Proof.
  refine (fetch_reads_every_bundle
            (bundle_of [condition_text_and_code]
               [link_to "self" "Condition?patient=1"; link_to "next" "Condition?page=2"])
            [bundle_of [condition_code_only] [link_to "self" "Condition?page=2"]]
            [PStr "Condition?page=2"] PNone
            [[condition_text_and_code]; [condition_code_only]] [] _ _ _ _ _).
  - constructor; [reflexivity|]. constructor; [reflexivity|]. constructor.
  - constructor; [reflexivity|]. constructor; [reflexivity|]. constructor.
  - constructor; [reflexivity|]. constructor.
  - reflexivity.
  - constructor; [reflexivity|]. constructor; [reflexivity|]. constructor.
Defined.

(** ** The name entries *)

Lemma name_loop_reach (before rest : list pyval) :
  Forall passed_over before ->
  forall n0, exists n1, name_loop (before ++ rest) n0 = name_loop rest n1.
Proof.
  intros H. induction H as [|b before [use [Hu Hn]] _ IH]; intros n0; simpl.
  - exists n0. reflexivity.
  - rewrite Hu. simpl. rewrite Hn. apply IH.
Qed.

Lemma get_name_raises (patient : pyval) (e : exn) :
  get_name patient = Raised e -> get_patient_demographics patient = Raised e.
Proof.
  intros H. unfold get_patient_demographics. rewrite H. reflexivity.
Qed.

(** X18.  An official name entry is chosen wherever it stands, given that
    the entries before it carry a use-code without "official" in it and
    that its given names can be joined: the name is its text when that is
    a true value, and its given names, a space and its family name when
    its text is [None]; but when its text is neither [None] nor true (the
    empty string), the name is composed from the first entry of the list
    instead.  A name entry whose use-code is [None] makes the extractor
    raise a [TypeError] when the loop reaches it, and so does an official
    entry whose given names are [None], even when it has a text. *)
Theorem name_entry_selection :
  forall (patient : pyval) (before after : list pyval) (entry : pyval),
    getattr patient "name" = Done (PList (before ++ entry :: after)) ->
    Forall passed_over before ->
    (forall use given firstNames,
        getattr entry "use" = Done use ->
        pv_contains "official" use = Done true ->
        getattr entry "given" = Done given ->
        join " " given = Done firstNames ->
        (forall text,
            getattr entry "text" = Done text ->
            truthy text = true ->
            get_name patient = Done text)
        /\ (forall family,
               getattr entry "text" = Done PNone ->
               getattr entry "family" = Done (PStr family) ->
               get_name patient = Done (PStr ((firstNames ++ " ") ++ family)))
        /\ (forall text first rest,
               getattr entry "text" = Done text ->
               text <> PNone ->
               truthy text = false ->
               before ++ entry :: after = first :: rest ->
               get_name patient = composed_name first))
    /\ (getattr entry "use" = Done PNone ->
        get_name patient = Raised TypeError
        /\ get_patient_demographics patient = Raised TypeError)
    /\ (forall use,
           getattr entry "use" = Done use ->
           pv_contains "official" use = Done true ->
           getattr entry "given" = Done PNone ->
           get_name patient = Raised TypeError
           /\ get_patient_demographics patient = Raised TypeError).
Proof.
  intros patient before after entry Hn Hb. split; [|split].
  - intros use given firstNames Hu Ho Hg Hj. split; [|split].
    + intros text Ht Htr.
      apply (get_name_official patient before after entry use given text firstNames);
        try assumption.
      unfold text_or_parts. rewrite Ht. simpl.
      destruct text; try reflexivity. discriminate Htr.
    + intros family Ht Hf.
      apply (get_name_official patient before after entry use given
               (PStr ((firstNames ++ " ") ++ family)) firstNames); try assumption.
      * unfold text_or_parts. rewrite Ht. simpl. rewrite Hf. reflexivity.
      * destruct firstNames; reflexivity.
    + intros text first rest Ht Hnone Htr E.
      unfold get_name. rewrite Hn. simpl.
      rewrite (name_loop_official before after entry use given PNone PNone firstNames
                 Hb Hu Ho Hg Hj).
      assert (Hparts : text_or_parts entry firstNames = Done text).
      { unfold text_or_parts. rewrite Ht. simpl.
        destruct text; try reflexivity. contradiction Hnone. reflexivity. }
      rewrite Hparts. simpl. rewrite Htr. simpl.
      unfold first_name_entry. rewrite Hn. simpl. rewrite E. simpl.
      unfold composed_name.
      destruct (getattr first "given") as [g|e]; simpl; [|reflexivity].
      destruct (join " " g) as [fn|e]; simpl; reflexivity.
  - intros Hu.
    assert (H : get_name patient = Raised TypeError).
    { unfold get_name. rewrite Hn. simpl.
      destruct (name_loop_reach before (entry :: after) Hb PNone) as [n1 E].
      rewrite E. simpl. rewrite Hu. reflexivity. }
    split; [exact H | apply get_name_raises; exact H].
  - intros use Hu Ho Hg.
    assert (H : get_name patient = Raised TypeError).
    { unfold get_name. rewrite Hn. simpl.
      destruct (name_loop_reach before (entry :: after) Hb PNone) as [n1 E].
      rewrite E. simpl. rewrite Hu. simpl. rewrite Ho. simpl. rewrite Hg. reflexivity. }
    split; [exact H | apply get_name_raises; exact H].
Qed.

Lemma name_entry_selection_witness :
  get_name patient_official_second = Done (PStr "Annabel Lee")
  /\ get_name patient_official_empty_text = composed_name usual_ann.
Proof.
  split.
  - refine (proj1 (proj2 (proj1 (name_entry_selection patient_official_second
                                   [usual_ann] [] official_ann _ _)
                            (PStr "official") (PList [PStr "Annabel"]) "Annabel"
                            _ _ _ _))
              "Lee" _ _); try reflexivity.
    constructor; [|constructor].
    exists "usual". split; reflexivity.
  - refine (proj2 (proj2 (proj1 (name_entry_selection patient_official_empty_text
                                   [usual_ann] [] official_empty_text _ _)
                            (PStr "official") (PList [PStr "Annabel"]) "Annabel"
                            _ _ _ _))
              (PStr EmptyString) usual_ann [official_empty_text] _ _ _ _);
      try reflexivity.
    + constructor; [|constructor].
      exists "usual". split; reflexivity.
    + discriminate.
Defined.

(** The official entry with an empty text is passed by: the name is that
    of the first entry. *)
Example official_empty_text_falls_back :
  get_name patient_official_empty_text = Done (PStr "Ann Lee").
Proof. reflexivity. Qed.

Example name_entry_without_use :
  get_name (patient_of
              (PList [PObj [("use", PNone); ("given", PList [PStr "Ann"]);
                            ("family", PStr "Lee"); ("text", PNone)];
                      official_ann])
              (PList [main_st]))
  = Raised TypeError.
Proof. reflexivity. Qed.

(** ** The address *)

Lemma as_str_strs (strs : list string) :
  for_list as_str (map PStr strs) = Done strs.
Proof.
  induction strs as [|s strs IH]; simpl; [reflexivity | rewrite IH; reflexivity].
Qed.

Lemma as_str_filter (fields : list pyval) :
  Forall str_or_none fields ->
  for_list as_str (filter truthy fields)
  = Done (filter non_empty (map str_of fields)).
Proof.
  intros H. induction H as [|v fields Hv _ IH]; simpl.
  - reflexivity.
  - destruct Hv as [E | [s E]]; subst v; simpl.
    + exact IH.
    + destruct s as [|c s]; simpl; [exact IH|]. rewrite IH. reflexivity.
Qed.

Lemma join_strs (sep : string) (strs : list string) :
  join sep (PList (map PStr strs)) = Done (String.concat sep strs).
Proof. unfold join. simpl. rewrite as_str_strs. reflexivity. Qed.

Lemma join_fields (joined : string) (fields : list pyval) :
  Forall str_or_none fields ->
  join ", " (PList (filter truthy (PStr joined :: fields)))
  = Done (String.concat ", " (filter non_empty (joined :: map str_of fields))).
Proof.
  intros H. unfold join. cbn [pv_iter bind].
  rewrite (as_str_filter (PStr joined :: fields)).
  - reflexivity.
  - constructor; [right; eexists; reflexivity | exact H].
Qed.

(** X19.  For a patient with exactly one address: its text is returned
    unchanged when it has a true one; otherwise the address is composed
    from the lines joined by ", ", the city, the district, the state, the
    postal code and the country, in that order, joined by ", " with the
    empty and absent parts left out; and an address with neither a text
    nor any line (the attribute holding [None]) makes the extractor raise
    a [TypeError], whatever its other fields hold. *)
Theorem address_composition :
  forall patient address : pyval,
    getattr patient "address" = Done (PList [address]) ->
    (forall t,
        getattr address "text" = Done t -> truthy t = true ->
        get_address patient = Done (Some t))
    /\ (forall t lines city district state postal_code country,
           getattr address "text" = Done t -> truthy t = false ->
           getattr address "line" = Done (PList (map PStr lines)) ->
           getattr address "city" = Done city ->
           getattr address "district" = Done district ->
           getattr address "state" = Done state ->
           getattr address "postalCode" = Done postal_code ->
           getattr address "country" = Done country ->
           Forall str_or_none [city; district; state; postal_code; country] ->
           get_address patient
           = Done (Some (PStr (String.concat ", "
                     (filter non_empty
                        (String.concat ", " lines
                         :: map str_of [city; district; state; postal_code; country]))))))
    /\ (forall t city district state postal_code country,
           getattr address "text" = Done t -> truthy t = false ->
           getattr address "line" = Done PNone ->
           getattr address "city" = Done city ->
           getattr address "district" = Done district ->
           getattr address "state" = Done state ->
           getattr address "postalCode" = Done postal_code ->
           getattr address "country" = Done country ->
           get_address patient = Raised TypeError).
Proof.
  intros patient address Ha. unfold get_address. rewrite Ha.
  cbn [bind pv_len List.length Nat.eqb pv_first].
  split; [|split].
  - intros t Ht Htr. rewrite Ht. simpl. rewrite Htr. reflexivity.
  - intros t lines city district state postal country Ht Htr Hl Hc Hd Hs Hp Hco Hf.
    rewrite Ht. cbn [bind]. rewrite Htr.
    rewrite (getattr_hasattr _ _ _ Hl), Hl. cbn [bind].
    rewrite Hc. cbn [bind]. rewrite Hd. cbn [bind]. rewrite Hs. cbn [bind].
    rewrite Hp. cbn [bind]. rewrite Hco. cbn [bind].
    rewrite (join_strs ", " lines). cbn [bind].
    rewrite (join_fields (String.concat ", " lines)
               [city; district; state; postal; country] Hf).
    reflexivity.
  - intros t city district state postal country Ht Htr Hl Hc Hd Hs Hp Hco.
    rewrite Ht. simpl. rewrite Htr.
    rewrite (getattr_hasattr _ _ _ Hl), Hl. simpl.
    rewrite Hc. simpl. rewrite Hd. simpl. rewrite Hs. simpl. rewrite Hp. simpl.
    rewrite Hco. reflexivity.
Qed.

Lemma address_composition_witness :
  get_address (patient_of (PList [official_ann]) (PList [main_st]))
  = Done (Some (PStr "123 Main St, Springfield, IL")).
Proof.
  refine (proj1 (proj2 (address_composition
            (patient_of (PList [official_ann]) (PList [main_st])) main_st _))
            PNone ["123 Main St"] (PStr "Springfield") PNone (PStr "IL") PNone PNone
            _ _ _ _ _ _ _ _ _); try reflexivity.
  constructor; [right; eexists; reflexivity|].
  constructor; [left; reflexivity|].
  constructor; [right; eexists; reflexivity|].
  constructor; [left; reflexivity|].
  constructor; [left; reflexivity | constructor].
Defined.

(** ** Formatted instants compare as instants *)

Example strftime_half_past_noon : strftime half_past_noon = "2024-06-01T12:30:00Z".
Proof. reflexivity. Qed.

Lemma digit_compare (i j : N) :
  (i < 10)%N -> (j < 10)%N -> Ascii.compare (digit i) (digit j) = N.compare i j.
Proof.
  intros Hi Hj. unfold Ascii.compare, digit.
  rewrite !N_ascii_embedding by lia.
  destruct (N.compare_spec i j) as [E | L | G].
  - apply N.compare_eq_iff. lia.
  - apply N.compare_lt_iff. lia.
  - apply N.compare_gt_iff. lia.
Qed.

Lemma compare_by_parts (k a b : N) :
  (0 < k)%N ->
  N.compare a b
  = match N.compare (a / k) (b / k) with
    | Eq => N.compare (a mod k) (b mod k)
    | c => c
    end.
Proof.
  intros Hk.
  assert (Ha := N.div_mod a k ltac:(lia)). assert (Hb := N.div_mod b k ltac:(lia)).
  assert (Hra := N.mod_lt a k ltac:(lia)).
  assert (Hrb := N.mod_lt b k ltac:(lia)).
  remember (a / k)%N as qa eqn:Eqa. remember (b / k)%N as qb eqn:Eqb.
  remember (a mod k)%N as ra eqn:Era. remember (b mod k)%N as rb eqn:Erb.
  clear Eqa Eqb Era Erb.
  destruct (N.compare_spec qa qb) as [E | L | G].
  - subst qb.
    destruct (N.compare_spec ra rb) as [E' | L' | G'].
    + apply N.compare_eq_iff. lia.
    + apply N.compare_lt_iff. lia.
    + apply N.compare_gt_iff. lia.
  - apply N.compare_lt_iff.
    assert (H : (k * (qa + 1) <= k * qb)%N) by (apply N.mul_le_mono_l; lia).
    rewrite N.mul_add_distr_l, N.mul_1_r in H. lia.
  - apply N.compare_gt_iff.
    assert (H : (k * (qb + 1) <= k * qa)%N) by (apply N.mul_le_mono_l; lia).
    rewrite N.mul_add_distr_l, N.mul_1_r in H. lia.
Qed.

Lemma two_digits_compare (a b : N) (r r' : string) :
  (a < 100)%N -> (b < 100)%N ->
  String.compare (two_digits a ++ r) (two_digits b ++ r')
  = match N.compare a b with
    | Eq => String.compare r r'
    | c => c
    end.
Proof.
  intros Ha Hb. unfold two_digits.
  assert (Ha1 : (a / 10 < 10)%N) by (apply N.Div0.div_lt_upper_bound; lia).
  assert (Hb1 : (b / 10 < 10)%N) by (apply N.Div0.div_lt_upper_bound; lia).
  assert (Ha0 : (a mod 10 < 10)%N) by (apply N.mod_lt; lia).
  assert (Hb0 : (b mod 10 < 10)%N) by (apply N.mod_lt; lia).
  cbn [append String.compare].
  rewrite (digit_compare _ _ Ha1 Hb1), (digit_compare _ _ Ha0 Hb0).
  rewrite (compare_by_parts 10 a b) by lia.
  destruct (N.compare (a / 10) (b / 10)); try reflexivity.
  all: destruct (N.compare (a mod 10) (b mod 10)); reflexivity.
Qed.

Lemma separator_compare (c : ascii) (r r' : string) :
  String.compare (String c EmptyString ++ r) (String c EmptyString ++ r')
  = String.compare r r'.
Proof.
  cbn [append String.compare]. unfold Ascii.compare. rewrite N.compare_refl. reflexivity.
Qed.

Lemma strftime_compare (a b : datetime) :
  valid_datetime a -> valid_datetime b ->
  String.compare (strftime a) (strftime b) = instant_compare a b.
Proof.
  intros [Hya [Hma [Hda [Hha [Hmia Hsa]]]]] [Hyb [Hmb [Hdb [Hhb [Hmib Hsb]]]]].
  unfold strftime, instant_compare. cbn [lex_compare].
  assert (Hy1 : (dt_year a / 100 < 100)%N) by (apply N.Div0.div_lt_upper_bound; lia).
  assert (Hy2 : (dt_year b / 100 < 100)%N) by (apply N.Div0.div_lt_upper_bound; lia).
  assert (Hy3 : (dt_year a mod 100 < 100)%N) by (apply N.mod_lt; lia).
  assert (Hy4 : (dt_year b mod 100 < 100)%N) by (apply N.mod_lt; lia).
  rewrite (compare_by_parts 100 (dt_year a) (dt_year b)) by lia.
  rewrite two_digits_compare by assumption.
  destruct (N.compare (dt_year a / 100) (dt_year b / 100)); try reflexivity.
  rewrite two_digits_compare by assumption.
  destruct (N.compare (dt_year a mod 100) (dt_year b mod 100)); try reflexivity.
  rewrite separator_compare, two_digits_compare by lia.
  destruct (N.compare (dt_month a) (dt_month b)); try reflexivity.
  rewrite separator_compare, two_digits_compare by lia.
  destruct (N.compare (dt_day a) (dt_day b)); try reflexivity.
  rewrite separator_compare, two_digits_compare by lia.
  destruct (N.compare (dt_hour a) (dt_hour b)); try reflexivity.
  rewrite separator_compare, two_digits_compare by lia.
  destruct (N.compare (dt_minute a) (dt_minute b)); try reflexivity.
  rewrite separator_compare, two_digits_compare by lia.
  destruct (N.compare (dt_second a) (dt_second b)); reflexivity.
Qed.

(** X20.  Instants formatted the way the callback formats now compare as
    strings exactly as they compare in time; so the test that places a
    reading in the observed trace, applied to a timestamp written in that
    format, holds exactly when the reading's instant is at or before now,
    and the test of the forecast trace exactly when it is at or after. *)
Theorem formatted_instants_compare_in_time :
  forall t current_dt : datetime,
    valid_datetime t -> valid_datetime current_dt ->
    String.compare (strftime t) (strftime current_dt) = instant_compare t current_dt
    /\ le_str (strftime current_dt) (JStr (strftime t)) = Done (at_or_before t current_dt)
    /\ ge_str (strftime current_dt) (JStr (strftime t)) = Done (at_or_before current_dt t).
Proof.
  intros t current_dt Ht Hc. split; [apply strftime_compare; assumption|].
  unfold le_str, ge_str, String.leb, at_or_before.
  rewrite (strftime_compare t current_dt Ht Hc), (strftime_compare current_dt t Hc Ht).
  split; reflexivity.
Qed.

Lemma formatted_instants_compare_in_time_witness :
  String.compare (strftime noon) (strftime half_past_noon)
  = instant_compare noon half_past_noon
  /\ le_str (strftime half_past_noon) (JStr (strftime noon))
     = Done (at_or_before noon half_past_noon)
  /\ ge_str (strftime half_past_noon) (JStr (strftime noon))
     = Done (at_or_before half_past_noon noon).
Proof.
  apply (formatted_instants_compare_in_time noon half_past_noon);
    unfold valid_datetime; simpl; lia.
Defined.
